(** * DeployX: the on-chain contract registry and the deployment bot

    A shallow embedding of [ContractRegistry.sol] (the registry of deployed
    contracts) and of the conversation handlers of [index.js] (the Telegram
    deployment bot), with the properties of the design document proved or
    refuted on them. *)

From Stdlib Require Import ZArith NArith List String Ascii Bool Lia.
From stdpp Require Import base option list gmap strings.

Set Warnings "-register-all".
Local Open Scope N_scope.

(** * Part I.  ContractRegistry.sol *)

Module Registry.

(** ** Data model *)

(** Solidity's [address] (160 bits), [bytes32] and [uint256] are unsigned
    machine integers; no operation of the contract does arithmetic on them,
    they are only stored and compared, so they are kept as [N].  The zero
    address and the zero hash are [0]. *)
Definition address := N.
Definition bytes32 := N.
Definition uint256 := N.

(** [struct DeployedContract]. *)
Record DeployedContract := mkDeployedContract {
  name : string;
  contractAddress : address;
  network : string;
  timestamp : uint256;
  txHash : bytes32;
  deployer : address
}.

(** The two storage mappings.  A Solidity mapping is total: a key that was
    never written reads as the zero value of the value type (the empty array,
    the zero address).  The finite maps below hold the written keys and the
    accessors [contracts_of] and [owner_of] supply the default. *)
Record State := mkState {
  userContracts : gmap address (list DeployedContract);
  contractToOwner : gmap address address
}.

Definition contracts_of (s : State) (user : address) : list DeployedContract :=
  default [] (userContracts s !! user).

Definition owner_of (s : State) (contractAddr : address) : address :=
  default 0 (contractToOwner s !! contractAddr).

(** The state of a freshly deployed registry. *)
Definition init : State := mkState ∅ ∅.

(** The events of the contract. *)
Inductive Event :=
| ContractRegistered (deployer0 contractAddr : address) (name0 network0 : string)
    (txHash0 : bytes32) (timestamp0 : uint256)
| ContractUpdated (deployer0 contractAddr : address) (newName : string).

(** The reasons a call reverts with, one per [require]/[revert] of the source;
    [reason] gives the message the source attaches to each. *)
Inductive Revert :=
| NameEmpty
| InvalidAddress
| NetworkEmpty
| InvalidTxHash
| AlreadyRegistered
| NotRegistered
| NotOwner
| NotFound.

Definition reason (r : Revert) : string :=
  match r with
  | NameEmpty => "Name cannot be empty"
  | InvalidAddress => "Invalid contract address"
  | NetworkEmpty => "Network cannot be empty"
  | InvalidTxHash => "Invalid transaction hash"
  | AlreadyRegistered => "Contract already registered"
  | NotRegistered => "Contract not registered"
  | NotOwner => "Not the contract owner"
  | NotFound => "Contract not found"
  end.

(** A call either reverts (and the storage is what it was before the call) or
    returns a value.  State-changing entry points return the new storage and
    the events they emitted. *)
Inductive result (A : Type) :=
| Reverted (r : Revert)
| Ok (a : A).
Arguments Reverted {A} r.
Arguments Ok {A} a.

Definition bind {A B} (m : result A) (k : A → result B) : result B :=
  match m with
  | Reverted r => Reverted r
  | Ok a => k a
  end.

Notation "x ←? m ; k" := (bind m (fun x => k))
  (at level 100, m at next level, right associativity).

(** [require(cond, msg)]. *)
Definition require (cond : bool) (r : Revert) : result unit :=
  if cond then Ok tt else Reverted r.

(** [bytes(s).length > 0]. *)
Definition nonempty (s : string) : bool := negb (String.length s =? 0)%nat.

(** ** Modifiers *)

Definition onlyContractOwner (s : State) (sender contractAddr : address) : result unit :=
  require (owner_of s contractAddr =? sender) NotOwner.

Definition contractExists (s : State) (contractAddr : address) : result unit :=
  require (negb (owner_of s contractAddr =? 0)) NotRegistered.

(** ** registerContract *)

Definition registerContract (sender : address) (now : uint256)
    (name0 : string) (contractAddr : address) (network0 : string) (txHash0 : bytes32)
    (s : State) : result (State * list Event) :=
  _ ←? require (nonempty name0) NameEmpty;
  _ ←? require (negb (contractAddr =? 0)) InvalidAddress;
  _ ←? require (nonempty network0) NetworkEmpty;
  _ ←? require (negb (txHash0 =? 0)) InvalidTxHash;
  _ ←? require (owner_of s contractAddr =? 0) AlreadyRegistered;
  let newContract :=
    {| name := name0; contractAddress := contractAddr; network := network0;
       timestamp := now; txHash := txHash0; deployer := sender |} in
  Ok ({| userContracts :=
           <[sender := contracts_of s sender ++ [newContract]]> (userContracts s);
         contractToOwner := <[contractAddr := sender]> (contractToOwner s) |},
      [ContractRegistered sender contractAddr name0 network0 txHash0 now]).

(** ** updateContractName *)

Definition set_name (newName : string) (c : DeployedContract) : DeployedContract :=
  {| name := newName; contractAddress := contractAddress c; network := network c;
     timestamp := timestamp c; txHash := txHash c; deployer := deployer c |}.

(** The loop of [updateContractName]: the first entry whose address matches
    gets the new name and the scan stops; [None] when the scan runs off the
    end of the array without a match. *)
Fixpoint rename_first (contractAddr : address) (newName : string)
    (contracts : list DeployedContract) : option (list DeployedContract) :=
  match contracts with
  | [] => None
  | c :: rest =>
      if contractAddress c =? contractAddr
      then Some (set_name newName c :: rest)
      else cons c <$> rename_first contractAddr newName rest
  end.

Definition updateContractName (sender : address)
    (contractAddr : address) (newName : string)
    (s : State) : result (State * list Event) :=
  _ ←? contractExists s contractAddr;
  _ ←? onlyContractOwner s sender contractAddr;
  _ ←? require (nonempty newName) NameEmpty;
  match rename_first contractAddr newName (contracts_of s sender) with
  | Some contracts' =>
      Ok ({| userContracts := <[sender := contracts']> (userContracts s);
             contractToOwner := contractToOwner s |},
          [ContractUpdated sender contractAddr newName])
  | None => Ok (s, [])
  end.

(** ** Read accessors *)

Definition getUserContracts (s : State) (user : address) : list DeployedContract :=
  contracts_of s user.

Definition getMyContracts (s : State) (sender : address) : list DeployedContract :=
  contracts_of s sender.

(** The loop of [getContract]: the first entry with the address. *)
Fixpoint find_contract (contractAddr : address) (contracts : list DeployedContract)
    : option DeployedContract :=
  match contracts with
  | [] => None
  | c :: rest =>
      if contractAddress c =? contractAddr then Some c
      else find_contract contractAddr rest
  end.

Definition getContract (s : State) (contractAddr : address) : result DeployedContract :=
  _ ←? contractExists s contractAddr;
  let owner := owner_of s contractAddr in
  match find_contract contractAddr (contracts_of s owner) with
  | Some c => Ok c
  | None => Reverted NotFound
  end.

Definition getContractOwner (s : State) (contractAddr : address) : result address :=
  _ ←? contractExists s contractAddr;
  Ok (owner_of s contractAddr).

(** [userContracts[user].length], a [uint256]. *)
Definition getUserContractCount (s : State) (user : address) : uint256 :=
  N.of_nat (length (contracts_of s user)).

Definition getMyContractCount (s : State) (sender : address) : uint256 :=
  N.of_nat (length (contracts_of s sender)).

Definition isContractRegistered (s : State) (contractAddr : address) : bool :=
  negb (owner_of s contractAddr =? 0).

(** ** Transactions and reachable states *)

(** The two state-changing entry points, with the transaction context
    ([msg.sender], [block.timestamp]) they run in. *)
Inductive Call :=
| CallRegister (sender : address) (now : uint256)
    (name0 : string) (contractAddr : address) (network0 : string) (txHash0 : bytes32)
| CallRename (sender : address) (contractAddr : address) (newName : string).

Definition call_sender (c : Call) : address :=
  match c with
  | CallRegister sender _ _ _ _ _ => sender
  | CallRename sender _ _ => sender
  end.

Definition exec (c : Call) (s : State) : result (State * list Event) :=
  match c with
  | CallRegister sender now name0 a network0 txHash0 =>
      registerContract sender now name0 a network0 txHash0 s
  | CallRename sender a newName => updateContractName sender a newName s
  end.

(** A reverted transaction leaves the storage as it was. *)
Definition after (c : Call) (s : State) : State :=
  match exec c s with
  | Ok (s', _) => s'
  | Reverted _ => s
  end.

Definition succeeded (c : Call) (s : State) : bool :=
  match exec c s with
  | Ok _ => true
  | Reverted _ => false
  end.

(** Running a sequence of transactions; the result is the final storage and,
    for each transaction in order, whether it went through. *)
Fixpoint run (calls : list Call) (s : State) : State * list (Call * bool) :=
  match calls with
  | [] => (s, [])
  | c :: rest =>
      let '(s', log) := run rest (after c s) in
      (s', (c, succeeded c s) :: log)
  end.

(** The sender of a transaction is an account that signed it, never the zero
    address. *)
Definition signed (c : Call) : Prop := call_sender c ≠ 0.

(** The storage reachable from deployment by signed transactions. *)
Inductive reachable : State → Prop :=
| reachable_init : reachable init
| reachable_step c s : reachable s → signed c → reachable (after c s).

(** Is this log entry a [registerContract] for [a] that went through? *)
Definition registered_ok (a : address) (entry : Call * bool) : bool :=
  match entry with
  | (CallRegister _ _ _ a' _ _, true) => a' =? a
  | _ => false
  end.

(** ** Auxiliary notions *)

(** What [registerContract] does when all its checks pass. *)
Definition registered (sender : address) (now : uint256) (name0 : string)
    (a : address) (network0 : string) (txHash0 : bytes32) (s : State)
    : State * list Event :=
  ({| userContracts :=
        <[sender := contracts_of s sender
                    ++ [mkDeployedContract name0 a network0 now txHash0 sender]]>
          (userContracts s);
      contractToOwner := <[a := sender]> (contractToOwner s) |},
   [ContractRegistered sender a name0 network0 txHash0 now]).

(** Every record sits in the list of the owner of its address, who is not
    the zero address; and every owned address has its record in the list of
    its owner. *)
Definition consistent (s : State) : Prop :=
  (∀ u c, c ∈ contracts_of s u → owner_of s (contractAddress c) = u ∧ u ≠ 0)
  ∧ (∀ a, owner_of s a ≠ 0 →
       ∃ c, c ∈ contracts_of s (owner_of s a) ∧ contractAddress c = a).

(** Sample accounts and transactions. *)
Definition alice : address := 0xA11CE.
Definition bob : address := 0xB0B.
Definition token : address := 0xC0DE.

Definition alice_registers : Call :=
  CallRegister alice 1700000000 "Token" token "mantle-testnet" 0xFEED.
Definition bob_registers : Call :=
  CallRegister bob 1700000050 "Mine" token "mantle-testnet" 0xBEEF.
Definition alice_renames : Call := CallRename alice token "Token v2".

Definition registered_once : State := after alice_registers init.

End Registry.

(** * Part II.  index.js *)

(** ** JavaScript values *)

Module JS.

(** A JavaScript string is a sequence of UTF-16 code units; [length],
    [startsWith] and [includes] count and compare code units.  [lit] turns an
    ASCII literal of the source into that representation. *)
Definition code_unit := N.
Definition jsstring := list code_unit.

Definition lit (s : string) : jsstring :=
  (fun a => N_of_ascii a) <$> list_ascii_of_string s.

Definition str_eqb (a b : jsstring) : bool := bool_decide (a = b).

(** [s.startsWith(p)]. *)
Fixpoint startsWith (p s : jsstring) : bool :=
  match p, s with
  | [], _ => true
  | _ :: _, [] => false
  | a :: p', b :: s' => (a =? b) && startsWith p' s'
  end.

(** [s.includes(p)]. *)
Fixpoint includes (p s : jsstring) : bool :=
  startsWith p s ||
  match s with
  | [] => false
  | _ :: s' => includes p s'
  end.

(** [WhiteSpace] and [LineTerminator] code points, the ones [trim] strips. *)
Definition is_trim_space (c : code_unit) : bool :=
  (9 <=? c) && (c <=? 13) || (c =? 32) || (c =? 160) || (c =? 5760)
  || (8192 <=? c) && (c <=? 8202) || (c =? 8232) || (c =? 8233)
  || (c =? 8239) || (c =? 8287) || (c =? 12288) || (c =? 65279).

Fixpoint trimStart (s : jsstring) : jsstring :=
  match s with
  | c :: s' => if is_trim_space c then trimStart s' else s
  | [] => []
  end.

(** [s.trim()]. *)
Definition trim (s : jsstring) : jsstring :=
  reverse (trimStart (reverse (trimStart s))).

(** The exact decimal value written by a JSON number literal:
    [(-1)^negative * digits * 10^exp10]. *)
Record DecimalValue := mkDecimalValue {
  negative : bool;
  digits : N;
  exp10 : Z
}.

(** The values [JSON.parse] produces.  An object is the list of its own
    properties in the order [Object.keys] enumerates them. *)
Inductive JSON :=
| JNull
| JBool (b : bool)
| JNumber (d : DecimalValue)
| JString (s : jsstring)
| JArray (items : list JSON)
| JObject (props : list (jsstring * JSON)).

(** The errors the handlers throw or meet.  [Error] carries the message the
    source gives it.  The messages of the errors raised by the engine itself
    ([TypeError], [SyntaxError]) are not fixed by the language: whoever reads
    them is given their wording (see [message_of]).  [ErrorQuoting prefix
    cause] is [new Error(prefix + cause.message)] for such a cause. *)
Inductive Exn :=
| TypeError
| SyntaxError
| Error (message : jsstring)
| ErrorQuoting (prefix : string) (cause : Exn).

(** ** Property keys *)

Definition is_digit (c : code_unit) : bool := (48 <=? c) && (c <=? 57).

Definition digit_val (c : code_unit) : N := c - 48.

(** The number written by a run of decimal digits. *)
Definition digits_val (ds : list code_unit) : N :=
  fold_left (fun acc c => 10 * acc + digit_val c) ds 0.

(** An array index is the canonical decimal numeral of an integer below
    [2^32 - 1]: such keys are enumerated first, in ascending order. *)
Definition array_index (k : jsstring) : option N :=
  match k with
  | [] => None
  | c :: rest =>
      if forallb is_digit k && (negb (c =? 48) || bool_decide (rest = []))
         && (length k <=? 10)%nat && (digits_val k <? 4294967295)
      then Some (digits_val k) else None
  end.

(** Where a new key goes among the own properties: an array index before the
    first key that is not an array index or is a larger one; any other key at
    the end. *)
Fixpoint insert_index (i : N) (k : jsstring) (v : JSON)
    (props : list (jsstring * JSON)) : list (jsstring * JSON) :=
  match props with
  | [] => [(k, v)]
  | (k', v') :: rest =>
      match array_index k' with
      | Some j => if j <? i then (k', v') :: insert_index i k v rest
                  else (k, v) :: props
      | None => (k, v) :: props
      end
  end.

Fixpoint replace_prop (k : jsstring) (v : JSON)
    (props : list (jsstring * JSON)) : option (list (jsstring * JSON)) :=
  match props with
  | [] => None
  | (k', v') :: rest =>
      if str_eqb k' k then Some ((k', v) :: rest)
      else cons (k', v') <$> replace_prop k v rest
  end.

(** [CreateDataProperty(obj, k, v)] on the property list: an existing key
    keeps its place and takes the new value. *)
Definition define_prop (k : jsstring) (v : JSON)
    (props : list (jsstring * JSON)) : list (jsstring * JSON) :=
  match replace_prop k v props with
  | Some props' => props'
  | None =>
      match array_index k with
      | Some i => insert_index i k v props
      | None => props ++ [(k, v)]
      end
  end.

Fixpoint lookup_prop (k : jsstring) (props : list (jsstring * JSON)) : option JSON :=
  match props with
  | [] => None
  | (k', v) :: rest => if str_eqb k' k then Some v else lookup_prop k rest
  end.

(** ** JSON.parse *)

(** The outcome of a parsing function: the value and the text left after it,
    a syntax error, or the recursion budget used up. *)
Inductive Parse (A : Type) :=
| Parsed (a : A) (rest : jsstring)
| Invalid
| OutOfFuel.
Arguments Parsed {A} a rest.
Arguments Invalid {A}.
Arguments OutOfFuel {A}.

(** JSON white space: tab, line feed, carriage return, space. *)
Definition is_json_ws (c : code_unit) : bool :=
  (c =? 9) || (c =? 10) || (c =? 13) || (c =? 32).

Fixpoint skip_ws (s : jsstring) : jsstring :=
  match s with
  | c :: s' => if is_json_ws c then skip_ws s' else s
  | [] => []
  end.

Definition hex_val (c : code_unit) : option N :=
  if is_digit c then Some (c - 48)
  else if (97 <=? c) && (c <=? 102) then Some (c - 87)
  else if (65 <=? c) && (c <=? 70) then Some (c - 55)
  else None.

(** The character a one-letter escape stands for. *)
Definition unescape (c : code_unit) : option code_unit :=
  if (c =? 34) || (c =? 92) || (c =? 47) then Some c
  else if c =? 98 then Some 8
  else if c =? 102 then Some 12
  else if c =? 110 then Some 10
  else if c =? 114 then Some 13
  else if c =? 116 then Some 9
  else None.

(** The characters of a string literal, from after the opening quote up to
    and including the closing one. *)
Fixpoint parse_chars (s : jsstring) : option (jsstring * jsstring) :=
  match s with
  | [] => None
  | c :: r =>
      if c =? 34 then Some ([], r)
      else if c =? 92 then
        match r with
        | [] => None
        | e :: r1 =>
            if e =? 117 then
              match r1 with
              | h1 :: h2 :: h3 :: h4 :: r2 =>
                  match hex_val h1, hex_val h2, hex_val h3, hex_val h4 with
                  | Some a, Some b, Some c', Some d =>
                      match parse_chars r2 with
                      | Some (str, rest) =>
                          Some ((4096 * a + 256 * b + 16 * c' + d) :: str, rest)
                      | None => None
                      end
                  | _, _, _, _ => None
                  end
              | _ => None
              end
            else
              match unescape e with
              | Some u =>
                  match parse_chars r1 with
                  | Some (str, rest) => Some (u :: str, rest)
                  | None => None
                  end
              | None => None
              end
        end
      else if c <? 32 then None
      else
        match parse_chars r with
        | Some (str, rest) => Some (c :: str, rest)
        | None => None
        end
  end.

(** The longest run of decimal digits at the head of the text. *)
Fixpoint span_digits (s : jsstring) : list code_unit * jsstring :=
  match s with
  | c :: s' =>
      if is_digit c then let '(ds, rest) := span_digits s' in (c :: ds, rest)
      else ([], s)
  | [] => ([], [])
  end.

(** The integer part of a number: a lone [0], or a run of digits that does
    not start with [0]. *)
Definition parse_int (s : jsstring) : option (list code_unit * jsstring) :=
  match s with
  | c :: r =>
      if c =? 48 then Some ([c], r)
      else if is_digit c then Some (span_digits s)
      else None
  | [] => None
  end.

(** The optional fraction: a dot and at least one digit. *)
Definition parse_frac (s : jsstring) : option (list code_unit * jsstring) :=
  match s with
  | c :: r =>
      if c =? 46 then
        match span_digits r with
        | ([], _) => None
        | (ds, rest) => Some (ds, rest)
        end
      else Some ([], s)
  | [] => Some ([], [])
  end.

(** The optional exponent: [e] or [E], an optional sign, at least one digit. *)
Definition parse_exp (s : jsstring) : option (Z * jsstring) :=
  match s with
  | c :: r =>
      if (c =? 101) || (c =? 69) then
        let '(minus, r') :=
          match r with
          | sg :: r0 =>
              if sg =? 45 then (true, r0)
              else if sg =? 43 then (false, r0)
              else (false, r)
          | [] => (false, r)
          end in
        match span_digits r' with
        | ([], _) => None
        | (ds, rest) =>
            Some (if minus then (- Z.of_N (digits_val ds))%Z
                  else Z.of_N (digits_val ds), rest)
        end
      else Some (0%Z, s)
  | [] => Some (0%Z, [])
  end.

Definition parse_number (s : jsstring) : option (DecimalValue * jsstring) :=
  let '(neg, s1) :=
    match s with
    | c :: r => if c =? 45 then (true, r) else (false, s)
    | [] => (false, s)
    end in
  match parse_int s1 with
  | None => None
  | Some (ip, s2) =>
      match parse_frac s2 with
      | None => None
      | Some (fp, s3) =>
          match parse_exp s3 with
          | None => None
          | Some (e, s4) =>
              Some ({| negative := neg;
                       digits := digits_val (ip ++ fp);
                       exp10 := (e - Z.of_nat (length fp))%Z |}, s4)
          end
      end
  end.

(** A value, with the white space before it.  [parse_elements] reads the
    elements of an array from the start of an element to the closing bracket,
    [parse_members] the members of an object from the start of a member to
    the closing brace. *)
Fixpoint parse_value (fuel : nat) (s : jsstring) : Parse JSON :=
  match fuel with
  | O => OutOfFuel
  | S fuel' =>
      match skip_ws s with
      | [] => Invalid
      | c :: r =>
          if c =? 123 then
            match skip_ws r with
            | c' :: r' =>
                if c' =? 125 then Parsed (JObject []) r'
                else parse_members fuel' [] (c' :: r')
            | [] => Invalid
            end
          else if c =? 91 then
            match skip_ws r with
            | c' :: r' =>
                if c' =? 93 then Parsed (JArray []) r'
                else parse_elements fuel' [] (c' :: r')
            | [] => Invalid
            end
          else if c =? 34 then
            match parse_chars r with
            | Some (str, rest) => Parsed (JString str) rest
            | None => Invalid
            end
          else if startsWith (lit "null") (c :: r) then Parsed JNull (drop 4 (c :: r))
          else if startsWith (lit "true") (c :: r) then Parsed (JBool true) (drop 4 (c :: r))
          else if startsWith (lit "false") (c :: r) then Parsed (JBool false) (drop 5 (c :: r))
          else
            match parse_number (c :: r) with
            | Some (d, rest) => Parsed (JNumber d) rest
            | None => Invalid
            end
      end
  end
with parse_elements (fuel : nat) (acc : list JSON) (s : jsstring) : Parse JSON :=
  match fuel with
  | O => OutOfFuel
  | S fuel' =>
      match parse_value fuel' s with
      | Parsed v rest =>
          match skip_ws rest with
          | c :: r =>
              if c =? 44 then parse_elements fuel' (acc ++ [v]) r
              else if c =? 93 then Parsed (JArray (acc ++ [v])) r
              else Invalid
          | [] => Invalid
          end
      | Invalid => Invalid
      | OutOfFuel => OutOfFuel
      end
  end
with parse_members (fuel : nat) (acc : list (jsstring * JSON)) (s : jsstring)
    : Parse JSON :=
  match fuel with
  | O => OutOfFuel
  | S fuel' =>
      match skip_ws s with
      | c :: r =>
          if c =? 34 then
            match parse_chars r with
            | Some (key, rest) =>
                match skip_ws rest with
                | c2 :: r2 =>
                    if c2 =? 58 then
                      match parse_value fuel' r2 with
                      | Parsed v rest2 =>
                          match skip_ws rest2 with
                          | c3 :: r3 =>
                              if c3 =? 44
                              then parse_members fuel' (define_prop key v acc) r3
                              else if c3 =? 125
                              then Parsed (JObject (define_prop key v acc)) r3
                              else Invalid
                          | [] => Invalid
                          end
                      | Invalid => Invalid
                      | OutOfFuel => OutOfFuel
                      end
                    else Invalid
                | [] => Invalid
                end
            | None => Invalid
            end
          else Invalid
      | [] => Invalid
      end
  end.

(** The recursion budget for a text: every recursive call either consumes a
    character or is a [parse_value] made by [parse_elements] or
    [parse_members], so twice the length (and two) is never exhausted. *)
Definition parse_fuel (text : jsstring) : nat := 2 * length text + 2.

(** [JSON.parse(text)]: one value, then only white space; a [SyntaxError]
    otherwise.  (Limits of the engine, such as its stack depth, are not
    modelled.) *)
Definition JSON_parse (text : jsstring) : Exn + JSON :=
  match parse_value (parse_fuel text) text with
  | Parsed v rest =>
      match skip_ws rest with
      | [] => inr v
      | _ :: _ => inl SyntaxError
      end
  | Invalid | OutOfFuel => inl SyntaxError
  end.

(** ** Number values *)

(** The magnitude of a Number: the IEEE-754 double [mant * 2^exp2] with
    [0 < mant <= 2^53], zero, or infinity.  (The sign is kept apart.) *)
Inductive Double :=
| DZero
| DFinite (mant : Z) (exp2 : Z)
| DInfinity.

Section Rounding.
Local Open Scope Z_scope.

(** [num / den >= base ^ k], for positive [num] and [den]. *)
Definition ratio_ge_pow (base num den k : Z) : bool :=
  if 0 <=? k then den * base ^ k <=? num else den <=? num * base ^ (- k).

(** The double nearest to [num / den] (positive), ties to the even
    mantissa; subnormal below [2^-1022], infinite from [2^1024] on. *)
Definition round_ratio (num den : Z) : Double :=
  let k0 := Z.log2 num - Z.log2 den in
  let k := if ratio_ge_pow 2 num den k0 then k0 else k0 - 1 in
  let q := Z.max k (-1022) - 52 in
  let n' := if 0 <=? q then num else num * 2 ^ (- q) in
  let d' := if 0 <=? q then den * 2 ^ q else den in
  let quo := n' / d' in
  let rem := n' mod d' in
  let n := if 2 * rem <? d' then quo
           else if d' <? 2 * rem then quo + 1
           else if Z.even quo then quo else quo + 1 in
  if n =? 0 then DZero
  else if (971 <? q) || ((q =? 971) && (n =? 2 ^ 53)) then DInfinity
  else DFinite n q.

(** The double nearest to [m * 10^e], for [m >= 0]. *)
Definition to_double (m e : Z) : Double :=
  if m =? 0 then DZero
  else if 0 <=? e then round_ratio (m * 10 ^ e) 1
  else round_ratio m (10 ^ (- e)).

Definition double_eqb (x y : Double) : bool :=
  match x, y with
  | DZero, DZero => true
  | DInfinity, DInfinity => true
  | DFinite n1 q1, DFinite n2 q2 =>
      if q1 <=? q2 then n1 =? n2 * 2 ^ (q2 - q1) else n1 * 2 ^ (q1 - q2) =? n2
  | _, _ => false
  end.

(** The largest [c] among [c0], [c0 - 1], ... (at most [steps] below) with
    [10^c <= num / den]. *)
Fixpoint log10_down (steps : nat) (num den c0 : Z) : Z :=
  match steps with
  | O => c0
  | S steps' =>
      if ratio_ge_pow 10 num den c0 then c0
      else log10_down steps' num den (c0 - 1)
  end.

(** [floor (log10 (num / den))]. *)
Definition floor_log10 (num den : Z) : Z :=
  log10_down 4 num den ((Z.log2 num - Z.log2 den) * 30103 / 100000 + 2).

Fixpoint strip_zeros (steps : nat) (s p : Z) : Z * Z :=
  match steps with
  | O => (s, p)
  | S steps' =>
      if (s mod 10 =? 0) && negb (s =? 0) then strip_zeros steps' (s / 10) (p + 1)
      else (s, p)
  end.

(** The shortest decimal [s * 10^p] that denotes the double [num / den],
    tried with 1, 2, ... significant digits; of two with the same number of
    digits the nearer one, and the even one on a tie. *)
Fixpoint shortest_from (tries : nat) (k : Z) (num den : Z) (x : Double) : Z * Z :=
  let p := floor_log10 num den + 1 - k in
  let lo := if 0 <=? p then num / (den * 10 ^ p) else (num * 10 ^ (- p)) / den in
  let hi := lo + 1 in
  match tries with
  | O => (lo, p)
  | S tries' =>
      let ok_lo := double_eqb (to_double lo p) x in
      let ok_hi := double_eqb (to_double hi p) x in
      (* twice the value against the sum of the two candidates *)
      let twice := if 0 <=? p then 2 * num - (lo + hi) * 10 ^ p * den
                   else 2 * num * 10 ^ (- p) - (lo + hi) * den in
      if ok_lo && ok_hi then
        if twice <? 0 then (lo, p)
        else if 0 <? twice then (hi, p)
        else if Z.even lo then (lo, p) else (hi, p)
      else if ok_lo then (lo, p)
      else if ok_hi then (hi, p)
      else shortest_from tries' (k + 1) num den x
  end.

End Rounding.

Fixpoint uint_digits (u : Decimal.uint) : jsstring :=
  match u with
  | Decimal.Nil => []
  | Decimal.D0 u' => 48 :: uint_digits u'
  | Decimal.D1 u' => 49 :: uint_digits u'
  | Decimal.D2 u' => 50 :: uint_digits u'
  | Decimal.D3 u' => 51 :: uint_digits u'
  | Decimal.D4 u' => 52 :: uint_digits u'
  | Decimal.D5 u' => 53 :: uint_digits u'
  | Decimal.D6 u' => 54 :: uint_digits u'
  | Decimal.D7 u' => 55 :: uint_digits u'
  | Decimal.D8 u' => 56 :: uint_digits u'
  | Decimal.D9 u' => 57 :: uint_digits u'
  end.

(** The decimal numeral of a natural number. *)
Definition decimal_digits (n : N) : jsstring := uint_digits (N.to_uint n).

(** [Number::toString] of the positive double [mant * 2^exp2]. *)
Definition format_double (mant exp2 : Z) : jsstring :=
  let num := if (0 <=? exp2)%Z then (mant * 2 ^ exp2)%Z else mant in
  let den := if (0 <=? exp2)%Z then 1%Z else (2 ^ (- exp2))%Z in
  let '(s0, p0) := shortest_from 17 1 num den (DFinite mant exp2) in
  let '(s, p) := strip_zeros 400 s0 p0 in
  let ds := decimal_digits (Z.to_N s) in
  let k := Z.of_nat (length ds) in
  let n := (p + k)%Z in
  if ((k <=? n) && (n <=? 21))%Z then ds ++ replicate (Z.to_nat (n - k)) 48
  else if ((0 <? n) && (n <=? 21))%Z then
    take (Z.to_nat n) ds ++ [46] ++ drop (Z.to_nat n) ds
  else if ((-6 <? n) && (n <=? 0))%Z then
    [48; 46] ++ replicate (Z.to_nat (- n)) 48 ++ ds
  else
    let e := (n - 1)%Z in
    let sign := if (e <? 0)%Z then 45 else 43 in
    let ex := decimal_digits (Z.to_N (Z.abs e)) in
    match ds with
    | [d] => [d; 101; sign] ++ ex
    | d :: more => d :: 46 :: more ++ [101; sign] ++ ex
    | [] => []
    end.

(** The Number a literal evaluates to, as its magnitude. *)
Definition number_value (d : DecimalValue) : Double :=
  to_double (Z.of_N (digits d)) (exp10 d).

(** [ToString] of the Number of a literal. *)
Definition Number_toString (d : DecimalValue) : jsstring :=
  match number_value d with
  | DZero => [48]
  | DFinite mant exp2 =>
      (if negative d then [45] else []) ++ format_double mant exp2
  | DInfinity => (if negative d then [45] else []) ++ lit "Infinity"
  end.

(** [ToBoolean] of the Number of a literal: false for [0] and [-0]. *)
Definition Number_truthy (d : DecimalValue) : bool :=
  negb (double_eqb (number_value d) DZero).

(** ** Conversions and property reads on parsed values *)

(** [ToBoolean]. *)
Definition truthy (v : JSON) : bool :=
  match v with
  | JNull => false
  | JBool b => b
  | JNumber d => Number_truthy d
  | JString s => negb (bool_decide (s = []))
  | JArray _ | JObject _ => true
  end.

(** A value read from a property: [None] is [undefined]. *)
Definition truthy_opt (v : option JSON) : bool :=
  match v with
  | Some v => truthy v
  | None => false
  end.

(** [v.k] for a property name [k] that no prototype defines (all the names
    the source reads except [length] are such): an own property of an
    object, [undefined] on any other value, a [TypeError] on [null]. *)
Definition get (v : JSON) (k : string) : Exn + option JSON :=
  match v with
  | JNull => inl TypeError
  | JObject props => inr (lookup_prop (lit k) props)
  | _ => inr None
  end.

(** The same read on something that may be [undefined]. *)
Definition get_opt (v : option JSON) (k : string) : Exn + option JSON :=
  match v with
  | Some v => get v k
  | None => inl TypeError
  end.

(** [Object.keys(v)] for a truthy [v]: the own property names of an object,
    the indices of an array or of a string, nothing for a number or a
    boolean. *)
Definition Object_keys (v : JSON) : list jsstring :=
  match v with
  | JObject props => fst <$> props
  | JArray items => (fun i => decimal_digits (N.of_nat i)) <$> seq 0 (length items)
  | JString s => (fun i => decimal_digits (N.of_nat i)) <$> seq 0 (length s)
  | _ => []
  end.

(** [v[k]] for [k] one of [Object.keys(v)]. *)
Definition get_key (v : JSON) (k : jsstring) : option JSON :=
  match v with
  | JObject props => lookup_prop k props
  | JArray items => i ← array_index k; items !! N.to_nat i
  | JString s => i ← array_index k; c ← s !! N.to_nat i; Some (JString [c])
  | _ => None
  end.

(** [ToString].  An array is its elements joined by commas, [null] elements
    as the empty string; an object is ["[object Object]"] unless it has an
    own property [toString], which a parsed object cannot call. *)
Fixpoint ToString (v : JSON) : Exn + jsstring :=
  match v with
  | JNull => inr (lit "null")
  | JBool true => inr (lit "true")
  | JBool false => inr (lit "false")
  | JNumber d => inr (Number_toString d)
  | JString s => inr s
  | JArray items =>
      (fix join (first : bool) (l : list JSON) : Exn + jsstring :=
         match l with
         | [] => inr []
         | item :: l' =>
             match (match item with JNull => inr [] | _ => ToString item end) with
             | inl e => inl e
             | inr s =>
                 match join false l' with
                 | inl e => inl e
                 | inr rest => inr ((if first then [] else [44]) ++ s ++ rest)
                 end
             end
         end) true items
  | JObject props =>
      match lookup_prop (lit "toString") props with
      | Some _ => inl TypeError
      | None => inr (lit "[object Object]")
      end
  end.

(** [ToString] of a property that may be [undefined]. *)
Definition ToString_opt (v : option JSON) : Exn + jsstring :=
  match v with
  | Some v => ToString v
  | None => inr (lit "undefined")
  end.

(** [strings.join(sep)]. *)
Fixpoint join (sep : jsstring) (strings : list jsstring) : jsstring :=
  match strings with
  | [] => []
  | [s] => s
  | s :: rest => s ++ sep ++ join sep rest
  end.

(** [e.message].  The wording of the engine's own errors differs between
    engines and versions (that of [JSON.parse] may quote the text it was
    given), so it is a parameter: [wording e] is the message of the engine's
    error [e] in the run at hand.  No run of a handler reads the message of
    more than one such error. *)
Fixpoint message_of (wording : Exn → jsstring) (e : Exn) : jsstring :=
  match e with
  | Error message => message
  | ErrorQuoting prefix cause => lit prefix ++ message_of wording cause
  | TypeError => wording TypeError
  | SyntaxError => wording SyntaxError
  end.

(** [e.message.includes(needle)]. *)
Definition message_includes (wording : Exn → jsstring) (needle : string) (e : Exn)
    : bool :=
  includes (lit needle) (message_of wording e).

(** [new Error(prefix + cause.message)]. *)
Definition quoting (prefix : string) (cause : Exn) : Exn :=
  match cause with
  | Error message => Error (lit prefix ++ message)
  | _ => ErrorQuoting prefix cause
  end.

(** The names every object inherits from [Object.prototype]: reading one of
    them from an object literal gives a function (or, for [__proto__], the
    prototype), which is truthy and has none of the properties the tables
    of the bot hold. *)
Definition OBJECT_PROTOTYPE_KEYS : list jsstring :=
  lit <$> ["constructor"; "__defineGetter__"; "__defineSetter__"; "hasOwnProperty";
           "__lookupGetter__"; "__lookupSetter__"; "isPrototypeOf";
           "propertyIsEnumerable"; "toString"; "valueOf"; "__proto__";
           "toLocaleString"]%string.

Definition inherited (key : jsstring) : bool :=
  bool_decide (key ∈ OBJECT_PROTOTYPE_KEYS).

(** Text of the development with an apostrophe wherever the JSON text has a
    quotation mark. *)
Definition json_text (s : string) : jsstring :=
  (fun c => if c =? 39 then 34 else c) <$> lit s.

End JS.

(** ** The bot: configuration, sessions, replies *)

Module Bot.
Import JS.

(** A computation that may throw. *)
#[export] Instance exn_ret : MRet (sum Exn) := λ A a, inr a.
#[export] Instance exn_bind : MBind (sum Exn) := λ A B f m,
  match m with
  | inl e => inl e
  | inr a => f a
  end.

(** What the process is started with: the demo key of the environment
    ([process.env.PRIVATE_KEY], possibly unset) and the registry address
    exported by [config.js]. *)
Record Config := mkConfig {
  PRIVATE_KEY : option jsstring;
  CONTRACT_REGISTRY_ADDRESS : jsstring
}.

Definition ZERO_ADDRESS : jsstring := lit "0x0000000000000000000000000000000000000000".

(** What the handlers read of a value found in the table of networks: its
    [name], [rpcUrl], [chainId] and [isTestnet], each of which may be
    [undefined]. *)
Record NetInfo := mkNetInfo {
  net_name : option jsstring;
  rpcUrl : option jsstring;
  chainId : option N;
  isTestnet : option bool
}.

Definition NETWORKS : list (jsstring * NetInfo) :=
  [(lit "mantle-testnet",
    {| net_name := Some (lit "Mantle Sepolia Testnet");
       rpcUrl := Some (lit "https://rpc.sepolia.mantle.xyz");
       chainId := Some 5003;
       isTestnet := Some true |})].

(** What the table, an object literal, gives for a name it only inherits:
    a function, whose [name] is the name it is inherited under (for
    [constructor], the function [Object]), or, for [__proto__], the prototype
    itself, which has no [name].  None has one of the other properties. *)
Definition inherited_member (key : jsstring) : NetInfo :=
  {| net_name := if str_eqb key (lit "__proto__") then None
                 else if str_eqb key (lit "constructor") then Some (lit "Object")
                 else Some key;
     rpcUrl := None;
     chainId := None;
     isTestnet := None |}.

(** [NETWORKS[key]], for a key that may be [null]: [None] where the source
    finds [undefined]. *)
Definition NETWORKS_get (key : option jsstring) : option NetInfo :=
  k ← key;
  match find (fun entry => str_eqb (fst entry) k) NETWORKS with
  | Some entry => Some (snd entry)
  | None => if inherited k then Some (inherited_member k) else None
  end.

(** The values [session.step] takes. *)
Inductive Step :=
| contract_input
| awaiting_contract_data
| awaiting_constructor_params
| awaiting_contract_name
| awaiting_network_selection
| deployment_confirmation
| awaiting_private_key_choice
| awaiting_private_key
| deploying
| awaiting_address.

(** The values [session.contractInputType] takes. *)
Inductive InputType :=
| bytecode_abi
| solidity.

(** The value [session.action] takes. *)
Inductive Action :=
| view_contracts.

(** A session object.  A field that is [null] or was never set is [None];
    the source treats the two alike.  [contractData] is either the parsed
    JSON of the user or the object [{ sourceCode: text }]. *)
Record Session := mkSession {
  step : Step;
  contractData : option JSON;
  constructorParams : option (list JSON);
  network : option jsstring;
  privateKey : option jsstring;
  contractInputType : option InputType;
  contractName : option jsstring;
  action : option Action
}.

Definition set_step (v : Step) (s : Session) : Session :=
  mkSession v (contractData s) (constructorParams s) (network s) (privateKey s)
    (contractInputType s) (contractName s) (action s).
Definition set_contractData (v : JSON) (s : Session) : Session :=
  mkSession (step s) (Some v) (constructorParams s) (network s) (privateKey s)
    (contractInputType s) (contractName s) (action s).
Definition set_constructorParams (v : list JSON) (s : Session) : Session :=
  mkSession (step s) (contractData s) (Some v) (network s) (privateKey s)
    (contractInputType s) (contractName s) (action s).
Definition set_network (v : jsstring) (s : Session) : Session :=
  mkSession (step s) (contractData s) (constructorParams s) (Some v) (privateKey s)
    (contractInputType s) (contractName s) (action s).
Definition set_privateKey (v : jsstring) (s : Session) : Session :=
  mkSession (step s) (contractData s) (constructorParams s) (network s) (Some v)
    (contractInputType s) (contractName s) (action s).
Definition set_contractInputType (v : InputType) (s : Session) : Session :=
  mkSession (step s) (contractData s) (constructorParams s) (network s) (privateKey s)
    (Some v) (contractName s) (action s).
Definition set_contractName (v : jsstring) (s : Session) : Session :=
  mkSession (step s) (contractData s) (constructorParams s) (network s) (privateKey s)
    (contractInputType s) (Some v) (action s).

(** What [getConstructorInfo] reports. *)
Inductive ConstructorInfo :=
| BasedOnSolidity
| NoParametersNeeded
| ConstructorRequires (count : nat) (params : list (jsstring * jsstring)).

(** The reasons a deployment is reported as failed, in the order the source
    tests for them. *)
Inductive FailureKind :=
| CompilationError
| CompilationFailure
| InsufficientFunds
| NonceError
| GasError
| OtherError.

(** The result shown after a deployment. *)
Record Deployment := mkDeployment {
  dep_contractAddress : jsstring;
  dep_txHash : jsstring;
  dep_blockNumber : N;
  dep_registryTxHash : option jsstring
}.

(** The messages the bot sends, one constructor per [bot.sendMessage] of the
    functions modelled, with the values the text is built from. *)
Inductive Reply :=
| DeploymentIntro
| AskBytecodeAbi
| AskSolidity
| ContractDataReceived (info : ConstructorInfo)
| ErrorParsingContractData (e : Exn) (kind : option InputType)
| ConstructorParamsSet
| ErrorParsingConstructorParams (e : Exn)
| ContractNameEmpty
| ContractNameTooLong
| ContractNameSet (name : jsstring)
| InvalidAddressFormat
| NetworkSelected (info : NetInfo) (name : option jsstring) (params : option (list JSON))
| PrivateKeyRequired (hasDemoKey : bool)
| DeploymentCancelled
| DemoKeyNotConfigured
| UsingDemoKey (maskedKey : jsstring)
| EnterYourPrivateKey
| RegistryNotConfigured
| AskAddress
| InvalidPrivateKeyFormat
| PrivateKeyReceived (maskedKey : jsstring)
| NetworkConfigurationError
| DeployingTo (info : NetInfo)
| Compiling
| TransactionSent (hash : jsstring)
| RegisteringWithRegistry
| DeployedSuccessfully (d : Deployment) (registryConfigured : bool)
| DeploymentFailed (kind : FailureKind) (e : Exn).

(** The asynchronous functions a handler may leave running. *)
Inductive Task :=
| DeployContract (chatId : Z)
| ViewUserContracts (chatId : Z) (userAddress : jsstring).

(** What a handler does: the session store ([userSessions]) it leaves, the
    messages it sent, the asynchronous function it called last, and the
    exception that escaped it, if any. *)
Record Outcome := mkOutcome {
  sessions : gmap Z Session;
  sent : list Reply;
  started : option Task;
  thrown : option Exn
}.

Definition done (store : gmap Z Session) (replies : list Reply) : Outcome :=
  mkOutcome store replies None None.

(** ** Starting and leaving a workflow *)

Definition new_session : Session :=
  mkSession contract_input None None None None None None None.

Definition startDeploymentProcess (chatId : Z) (store : gmap Z Session) : Outcome :=
  done (<[chatId := new_session]> (delete chatId store)) [DeploymentIntro].

Definition showMyContracts (cfg : Config) (chatId : Z) (store : gmap Z Session) : Outcome :=
  if str_eqb (CONTRACT_REGISTRY_ADDRESS cfg) ZERO_ADDRESS
  then done store [RegistryNotConfigured]
  else done (<[chatId := mkSession awaiting_address None None None None None None
                            (Some view_contracts)]> (delete chatId store))
            [AskAddress].

Definition cancelDeployment (chatId : Z) (store : gmap Z Session) : Outcome :=
  done (delete chatId store) [DeploymentCancelled].

(** ** Button selections *)

Definition handleContractInputType (chatId : Z) (type : InputType)
    (store : gmap Z Session) : Outcome :=
  match store !! chatId with
  | None => done store []
  | Some session =>
      done (<[chatId := set_step awaiting_contract_data
                          (set_contractInputType type session)]> store)
           [match type with bytecode_abi => AskBytecodeAbi | solidity => AskSolidity end]
  end.

Definition selectNetworkForDeployment (chatId : Z) (net : jsstring)
    (store : gmap Z Session) : Outcome :=
  match store !! chatId with
  | None => done store []
  | Some session =>
      match NETWORKS_get (Some net) with
      | None => done store []
      | Some netInfo =>
          done (<[chatId := set_step deployment_confirmation (set_network net session)]> store)
               [NetworkSelected netInfo (contractName session) (constructorParams session)]
      end
  end.

(** The demo key is offered when it is set, starts with [0x] and has 66
    characters. *)
Definition demo_key (cfg : Config) : option jsstring :=
  match PRIVATE_KEY cfg with
  | Some key =>
      if negb (bool_decide (key = [])) && startsWith (lit "0x") key
         && bool_decide (length key = 66%nat)
      then Some key else None
  | None => None
  end.

Definition requestPrivateKey (cfg : Config) (chatId : Z) (store : gmap Z Session) : Outcome :=
  match store !! chatId with
  | None => done store []
  | Some session =>
      done (<[chatId := set_step awaiting_private_key_choice session]> store)
           [PrivateKeyRequired (bool_decide (is_Some (demo_key cfg)))]
  end.

(** [key.substring(0, 6) + '****************************' +
    key.substring(key.length - 4)]. *)
Definition mask (key : jsstring) : jsstring :=
  take 6 key ++ lit "****************************" ++ drop (length key - 4) key.

Definition useDemoKey (cfg : Config) (chatId : Z) (store : gmap Z Session) : Outcome :=
  match store !! chatId with
  | None => done store []
  | Some session =>
      match demo_key cfg with
      | None => done store [DemoKeyNotConfigured]
      | Some demoKey =>
          mkOutcome (<[chatId := set_step deploying (set_privateKey demoKey session)]> store)
                    [UsingDemoKey (mask demoKey)]
                    (Some (DeployContract chatId)) None
      end
  end.

Definition requestCustomPrivateKey (chatId : Z) (store : gmap Z Session) : Outcome :=
  match store !! chatId with
  | None => done store []
  | Some session =>
      done (<[chatId := set_step awaiting_private_key session]> store) [EnterYourPrivateKey]
  end.

(** ** Free-text steps *)

(** [JSON.parse(text)] for a text that may be [undefined], which is parsed
    as the text [undefined]. *)
Definition JSON_parse_arg (text : option jsstring) : Exn + JSON :=
  JSON_parse (default (lit "undefined") text).

(** [abi.find(item => item.type === 'constructor')] on the elements. *)
Fixpoint find_constructor (items : list JSON) : Exn + option JSON :=
  match items with
  | [] => inr None
  | item :: rest =>
      type ← get item "type";
      match type with
      | Some (JString s) =>
          if str_eqb s (lit "constructor") then inr (Some item) else find_constructor rest
      | _ => find_constructor rest
      end
  end.

(** [inputs.length === 0], for a truthy [inputs]. *)
Definition length_is_zero (inputs : JSON) : bool :=
  match inputs with
  | JArray items => bool_decide (items = [])
  | JString s => bool_decide (s = [])
  | JObject props =>
      match lookup_prop (lit "length") props with
      | Some (JNumber d) => negb (Number_truthy d)
      | _ => false
      end
  | _ => false
  end.

(** One line of the parameter list: [input.type] and [input.name || 'unnamed']. *)
Definition describe_input (input : JSON) : Exn + (jsstring * jsstring) :=
  type ← get input "type";
  type_text ← ToString_opt type;
  name ← get input "name";
  name_text ← (if truthy_opt name then ToString_opt name else inr (lit "unnamed"));
  inr (type_text, name_text).

Definition getConstructorInfo (contractData : JSON) (inputType : option InputType)
    : Exn + ConstructorInfo :=
  match inputType with
  | Some solidity => inr BasedOnSolidity
  | _ =>
      abi ← get contractData "abi";
      match abi with
      | Some (JArray items) =>
          constructorAbi ← find_constructor items;
          match constructorAbi with
          | None => inr NoParametersNeeded
          | Some c =>
              inputs ← get c "inputs";
              match inputs with
              | None => inr NoParametersNeeded
              | Some v =>
                  if negb (truthy v) || length_is_zero v then inr NoParametersNeeded
                  else
                    match v with
                    | JArray ins =>
                        params ← mapM describe_input ins;
                        inr (ConstructorRequires (length ins) params)
                    | _ => inl TypeError
                    end
              end
          end
      | _ => inl TypeError
      end
  end.

(** The [try] block of [handleContractData] up to the two assignments to the
    session: the contract data, or what was thrown. *)
Definition read_contract_data (inputType : option InputType) (text : option jsstring)
    : Exn + JSON :=
  match inputType with
  | Some bytecode_abi =>
      contractData ← JSON_parse_arg text;
      bytecode ← get contractData "bytecode";
      if negb (truthy_opt bytecode) then inl (Error (lit "Missing bytecode or abi fields"))
      else
        abi ← get contractData "abi";
        if negb (truthy_opt abi) then inl (Error (lit "Missing bytecode or abi fields"))
        else
          match bytecode with
          | Some (JString s) =>
              if startsWith (lit "0x") s then inr contractData
              else inl (Error (lit "Bytecode must start with 0x"))
          | _ => inl TypeError
          end
  | _ =>
      inr (JObject match text with
                   | Some t => [(lit "sourceCode", JString t)]
                   | None => []
                   end)
  end.

Definition handleContractData (chatId : Z) (text : option jsstring)
    (store : gmap Z Session) : Outcome :=
  match store !! chatId with
  | None => done store []
  | Some session =>
      match read_contract_data (contractInputType session) text with
      | inl e => done store [ErrorParsingContractData e (contractInputType session)]
      | inr contractData =>
          let session' :=
            set_step awaiting_constructor_params (set_contractData contractData session) in
          let store' := <[chatId := session']> store in
          match getConstructorInfo contractData (contractInputType session') with
          | inl e => done store' [ErrorParsingContractData e (contractInputType session')]
          | inr info => done store' [ContractDataReceived info]
          end
      end
  end.

Definition handleConstructorParams (chatId : Z) (text : option jsstring)
    (store : gmap Z Session) : Outcome :=
  match store !! chatId with
  | None => done store []
  | Some session =>
      match JSON_parse_arg text with
      | inl e => done store [ErrorParsingConstructorParams e]
      | inr (JArray params) =>
          done (<[chatId := set_step awaiting_contract_name
                              (set_constructorParams params session)]> store)
               [ConstructorParamsSet]
      | inr _ =>
          done store [ErrorParsingConstructorParams
                        (Error (lit "Parameters must be a JSON array"))]
      end
  end.

Definition handleContractName (chatId : Z) (contractName0 : option jsstring)
    (store : gmap Z Session) : Outcome :=
  match store !! chatId with
  | None => done store []
  | Some session =>
      match contractName0 with
      | None => mkOutcome store [] None (Some TypeError)
      | Some name =>
          let trimmedName := trim name in
          if bool_decide (length trimmedName = 0%nat) then done store [ContractNameEmpty]
          else if bool_decide (100 < length trimmedName)%nat
          then done store [ContractNameTooLong]
          else done (<[chatId := set_step awaiting_network_selection
                                   (set_contractName trimmedName session)]> store)
                    [ContractNameSet trimmedName]
      end
  end.

Definition handleAddressForContracts (chatId : Z) (address : option jsstring)
    (store : gmap Z Session) : Outcome :=
  match store !! chatId with
  | None => done store []
  | Some session =>
      match action session with
      | None => done store []
      | Some view_contracts =>
          match address with
          | None => mkOutcome store [] None (Some TypeError)
          | Some a =>
              if negb (startsWith (lit "0x") a) || negb (bool_decide (length a = 42%nat))
              then done store [InvalidAddressFormat]
              else mkOutcome (delete chatId store) [] (Some (ViewUserContracts chatId a)) None
          end
      end
  end.

Definition handlePrivateKey (chatId : Z) (privateKey0 : option jsstring)
    (store : gmap Z Session) : Outcome :=
  match store !! chatId with
  | None => done store []
  | Some session =>
      match privateKey0 with
      | None => mkOutcome store [] None (Some TypeError)
      | Some key =>
          if negb (startsWith (lit "0x") key) || negb (bool_decide (length key = 66%nat))
          then done store [InvalidPrivateKeyFormat]
          else mkOutcome (<[chatId := set_step deploying (set_privateKey key session)]> store)
                         [PrivateKeyReceived (mask key)]
                         (Some (DeployContract chatId)) None
      end
  end.

(** ** The listeners *)

(** [bot.on('message', ...)]: the text of the message is [undefined] when the
    message is not a text message. *)
Definition on_message (chatId : Z) (text : option jsstring)
    (store : gmap Z Session) : Outcome :=
  if match text with
     | Some t => negb (bool_decide (t = [])) && startsWith (lit "/") t
     | None => false
     end
  then done store []
  else
    match store !! chatId with
    | None => done store []
    | Some session =>
        match step session with
        | awaiting_contract_data => handleContractData chatId text store
        | awaiting_constructor_params => handleConstructorParams chatId text store
        | awaiting_contract_name => handleContractName chatId text store
        | awaiting_private_key_choice => done store []
        | awaiting_private_key => handlePrivateKey chatId text store
        | awaiting_address => handleAddressForContracts chatId text store
        | _ => done store []
        end
    end.

(** The selections [bot.on('callback_query', ...)] tells apart, as far as
    they touch the sessions: those that only show information (the networks,
    the help) are left without their messages. *)
Definition on_callback_query (cfg : Config) (chatId : Z) (data : jsstring)
    (store : gmap Z Session) : Outcome :=
  if str_eqb data (lit "start_deploy") then startDeploymentProcess chatId store
  else if str_eqb data (lit "show_networks") || str_eqb data (lit "show_help")
  then done store []
  else if str_eqb data (lit "input_bytecode_abi")
  then handleContractInputType chatId bytecode_abi store
  else if str_eqb data (lit "input_solidity")
  then handleContractInputType chatId solidity store
  else if startsWith (lit "network_") data then done store []
  else if startsWith (lit "select_network_") data
  then selectNetworkForDeployment chatId (drop 15 data) store
  else if str_eqb data (lit "confirm_deploy") then requestPrivateKey cfg chatId store
  else if str_eqb data (lit "cancel_deploy") then cancelDeployment chatId store
  else if str_eqb data (lit "use_demo_key") then useDemoKey cfg chatId store
  else if str_eqb data (lit "enter_own_key") then requestCustomPrivateKey chatId store
  else done store [].

(** ** The outside world *)

(** The objects [ethers] hands out (providers, wallets, factories, contracts,
    transactions) are opaque to the bot. *)
Definition handle := N.

(** The calls that leave the process, each with the arguments the source
    passes and either the exception it throws (or rejects with) or its
    result.  [solc_compile] is [solc.compile] on the standard-JSON input
    whose single source [contract.sol] has the given content; the provider
    is made for an endpoint that may be [undefined].  With them comes the
    wording the engine gives its own errors in the run. *)
Record World := mkWorld {
  solc_compile : option JSON → Exn + jsstring;
  new_JsonRpcProvider : option jsstring → Exn + handle;
  new_Wallet : option jsstring → handle → Exn + handle;
  new_ContractFactory : option JSON → option JSON → handle → Exn + handle;
  factory_deploy : handle → list JSON → Exn + (handle * jsstring);
  waitForDeployment : handle → Exn + handle;
  getAddress : handle → Exn + jsstring;
  getBlockNumber : handle → Exn + N;
  new_Contract : jsstring → handle → Exn + handle;
  registry_registerContract :
    handle → option jsstring → jsstring → option jsstring → jsstring → Exn + handle;
  tx_wait : handle → Exn + option jsstring;
  engine_message : Exn → jsstring
}.

(** [try { body } catch (error) { handler }]. *)
Definition try_catch {A} (body : Exn + A) (handler : Exn → Exn + A) : Exn + A :=
  match body with
  | inl e => handler e
  | inr a => inr a
  end.

(** ** compileSolidity *)

Record Compiled := mkCompiled {
  bytecode : jsstring;
  abi : option JSON
}.

(** [errors.filter(error => error.severity === 'error')]. *)
Fixpoint filter_errors (items : list JSON) : Exn + list JSON :=
  match items with
  | [] => inr []
  | item :: rest =>
      severity ← get item "severity";
      kept ← filter_errors rest;
      match severity with
      | Some (JString s) => if str_eqb s (lit "error") then inr (item :: kept) else inr kept
      | _ => inr kept
      end
  end.

(** [err.message] as [join] renders it: nothing for [undefined] and [null]. *)
Definition error_message (err : JSON) : Exn + jsstring :=
  message ← get err "message";
  match message with
  | None | Some JNull => inr []
  | Some v => ToString v
  end.

Definition COMPILATION_ERRORS : jsstring := lit "Compilation errors:" ++ [10].
Definition NO_CONTRACTS : jsstring := lit "No contracts found in the source code".
Definition NO_BYTECODE : jsstring := lit "No bytecode generated. Check your contract code.".

(** The checks of [compileSolidity] on the parsed output of the compiler. *)
Definition check_output (output : JSON) : Exn + Compiled :=
  errors ← get output "errors";
  _ ← (if truthy_opt errors then
         match errors with
         | Some (JArray items) =>
             errs ← filter_errors items;
             if bool_decide (0 < length errs)%nat then
               messages ← mapM error_message errs;
               inl (Error (COMPILATION_ERRORS ++ join [10] messages))
             else inr tt
         | _ => inl TypeError
         end
       else inr tt);
  files ← get output "contracts";
  contracts ← get_opt files "contract.sol";
  match contracts with
  | None => inl (Error NO_CONTRACTS)
  | Some cs =>
      if negb (truthy cs) then inl (Error NO_CONTRACTS)
      else
        match Object_keys cs with
        | [] => inl (Error NO_CONTRACTS)
        | contractName0 :: _ =>
            let contract := get_key cs contractName0 in
            evm ← get_opt contract "evm";
            if negb (truthy_opt evm) then inl (Error NO_BYTECODE)
            else
              bc ← get_opt evm "bytecode";
              if negb (truthy_opt bc) then inl (Error NO_BYTECODE)
              else
                object ← get_opt bc "object";
                match object with
                | None => inl (Error NO_BYTECODE)
                | Some code =>
                    if negb (truthy code) then inl (Error NO_BYTECODE)
                    else
                      text ← ToString code;
                      abi0 ← get_opt contract "abi";
                      inr {| bytecode := lit "0x" ++ text; abi := abi0 |}
                end
        end
  end.

(** The [catch] block of [compileSolidity]: what it throws for what it
    caught. *)
Definition compile_catch (wording : Exn → jsstring) (error : Exn) : Exn :=
  if message_includes wording "Compilation errors:" error then error
  else quoting "Solidity compilation failed: " error.

Definition compileSolidity (w : World) (sourceCode : option JSON) : Exn + Compiled :=
  try_catch
    (text ← solc_compile w sourceCode;
     output ← JSON_parse text;
     check_output output)
    (fun error => inl (compile_catch (engine_message w) error)).

(** ** registerContractWithRegistry *)

Definition registerContractWithRegistry (cfg : Config) (w : World) (wallet : handle)
    (contractAddress : jsstring) (contractName0 : option jsstring)
    (network0 : option jsstring) (txHash : jsstring) : Exn + option jsstring :=
  try_catch
    (if str_eqb (CONTRACT_REGISTRY_ADDRESS cfg) ZERO_ADDRESS then inr None
     else
       contractRegistry ← new_Contract w (CONTRACT_REGISTRY_ADDRESS cfg) wallet;
       tx ← registry_registerContract w contractRegistry
              contractName0 contractAddress network0 txHash;
       receipt ← tx_wait w tx;
       match receipt with
       | None => inl TypeError
       | Some hash => inr (Some hash)
       end)
    (fun error => inr None).

(** ** deployContract *)

(** The steps of the [try] block send messages as they go and may throw at
    any point: the messages sent so far, and the exception or the result. *)
Definition Try (A : Type) : Type := list Reply * (Exn + A).

Definition try_bind {A B} (m : Try A) (k : A → Try B) : Try B :=
  match m with
  | (out, inl e) => (out, inl e)
  | (out, inr a) => let '(out', r) := k a in (out ++ out', r)
  end.

Notation "x ←! m ; k" := (try_bind m (fun x => k))
  (at level 100, m at next level, right associativity).

Definition send (r : Reply) : Try unit := ([r], inr tt).
Definition call {A} (r : Exn + A) : Try A := ([], r).

(** The tests of the [catch] block on the message of the error, first match
    first. *)
Definition classify (wording : Exn → jsstring) (e : Exn) : FailureKind :=
  if message_includes wording "Compilation errors:" e then CompilationError
  else if message_includes wording "Solidity compilation failed:" e then CompilationFailure
  else if message_includes wording "insufficient funds" e then InsufficientFunds
  else if message_includes wording "nonce" e then NonceError
  else if message_includes wording "gas" e then GasError
  else OtherError.

(** The [try] block of [deployContract]. *)
Definition deploy_steps (cfg : Config) (w : World) (session : Session) (netInfo : NetInfo)
    : Try Deployment :=
  provider ←! call (new_JsonRpcProvider w (rpcUrl netInfo));
  wallet ←! call (new_Wallet w (privateKey session) provider);
  _ ←! send (DeployingTo netInfo);
  contractFactory ←!
    match contractInputType session with
    | Some bytecode_abi =>
        call (abi0 ← get_opt (contractData session) "abi";
              bytecode0 ← get_opt (contractData session) "bytecode";
              new_ContractFactory w abi0 bytecode0 wallet)
    | _ =>
        _ ←! send Compiling;
        call (sourceCode ← get_opt (contractData session) "sourceCode";
              compiledData ← compileSolidity w sourceCode;
              new_ContractFactory w (abi compiledData)
                (Some (JString (bytecode compiledData))) wallet)
    end;
  contract ←! call (match constructorParams session with
                    | Some params => factory_deploy w contractFactory params
                    | None => inl TypeError
                    end);
  _ ←! send (TransactionSent (snd contract));
  deployedContract ←! call (waitForDeployment w (fst contract));
  contractAddress ←! call (getAddress w deployedContract);
  let txHash := snd contract in
  let registryConfigured := negb (str_eqb (CONTRACT_REGISTRY_ADDRESS cfg) ZERO_ADDRESS) in
  registryTxHash ←!
    (if registryConfigured then
       _ ←! send RegisteringWithRegistry;
       call (registerContractWithRegistry cfg w wallet contractAddress
               (contractName session) (network session) txHash)
     else call (inr None));
  blockNumber ←! call (getBlockNumber w provider);
  let d := {| dep_contractAddress := contractAddress; dep_txHash := txHash;
              dep_blockNumber := blockNumber; dep_registryTxHash := registryTxHash |} in
  _ ←! send (DeployedSuccessfully d registryConfigured);
  call (inr d).

(** How a deployment ended. *)
Inductive DeployResult :=
| NotStarted
| Succeeded (d : Deployment)
| Failed (kind : FailureKind) (e : Exn).

(** [deployContract], run to its end with no other handler of the same chat
    in between: what it leaves and how it ended. *)
Definition deployContract (cfg : Config) (w : World) (chatId : Z)
    (store : gmap Z Session) : Outcome * DeployResult :=
  match store !! chatId with
  | None => (done store [], NotStarted)
  | Some session =>
      match NETWORKS_get (network session) with
      | None => (done (delete chatId store) [NetworkConfigurationError], NotStarted)
      | Some netInfo =>
          match deploy_steps cfg w session netInfo with
          | (out, inr d) => (done (delete chatId store) out, Succeeded d)
          | (out, inl e) =>
              (done (delete chatId store)
                 (out ++ [DeploymentFailed (classify (engine_message w) e) e]),
               Failed (classify (engine_message w) e) e)
          end
      end
  end.

(** ** The design document's reading of the inputs *)

(** The compiler's answer as the design document has it: diagnostics with a
    severity and a message, and compiled units in the order the compiler
    returns their names, each with its bytecode payload (empty when there is
    none) and its interface. *)
Record Diagnostic := mkDiagnostic {
  severity : jsstring;
  message : jsstring
}.

Record CompiledUnit := mkCompiledUnit {
  payload : jsstring;
  interface : option JSON
}.

Record CompilerOutput := mkCompilerOutput {
  diagnostics : list Diagnostic;
  units : list (jsstring * CompiledUnit)
}.

Definition is_error (d : Diagnostic) : bool := str_eqb (severity d) (lit "error").

(** How the standard-JSON output carries a diagnostic: an object with the
    strings [severity] and [message] (and whatever else). *)
Definition diagnostic_of (j : JSON) (d : Diagnostic) : Prop :=
  ∃ props, j = JObject props
    ∧ lookup_prop (lit "severity") props = Some (JString (severity d))
    ∧ lookup_prop (lit "message") props = Some (JString (message d)).

(** The payload of a unit is the string at [evm.bytecode.object]; a unit
    without one of the three levels has none. *)
Inductive payload_of (props : list (jsstring * JSON)) : jsstring → Prop :=
| payload_present evm bc code :
    lookup_prop (lit "evm") props = Some (JObject evm) →
    lookup_prop (lit "bytecode") evm = Some (JObject bc) →
    lookup_prop (lit "object") bc = Some (JString code) →
    payload_of props code
| payload_no_object evm bc :
    lookup_prop (lit "evm") props = Some (JObject evm) →
    lookup_prop (lit "bytecode") evm = Some (JObject bc) →
    lookup_prop (lit "object") bc = None →
    payload_of props []
| payload_no_bytecode evm :
    lookup_prop (lit "evm") props = Some (JObject evm) →
    lookup_prop (lit "bytecode") evm = None →
    payload_of props []
| payload_no_evm :
    lookup_prop (lit "evm") props = None →
    payload_of props [].

Definition unit_of (j : jsstring * JSON) (u : jsstring * CompiledUnit) : Prop :=
  j.1 = u.1 ∧ ∃ props, j.2 = JObject props
    ∧ payload_of props (payload u.2)
    ∧ interface u.2 = lookup_prop (lit "abi") props.

Definition diagnostics_of (props : list (jsstring * JSON)) (ds : list Diagnostic) : Prop :=
  (lookup_prop (lit "errors") props = None ∧ ds = [])
  ∨ ∃ items, lookup_prop (lit "errors") props = Some (JArray items)
      ∧ Forall2 diagnostic_of items ds.

(** The units are those listed for the source under [contracts]; an output
    without [contracts], or with nothing for the source under it, has
    none. *)
Definition units_of (props : list (jsstring * JSON))
    (us : list (jsstring * CompiledUnit)) : Prop :=
  (lookup_prop (lit "contracts") props = None ∧ us = [])
  ∨ ∃ files, lookup_prop (lit "contracts") props = Some (JObject files)
      ∧ ((lookup_prop (lit "contract.sol") files = None ∧ us = [])
         ∨ ∃ cs, lookup_prop (lit "contract.sol") files = Some (JObject cs)
             ∧ Forall2 unit_of cs us).

(** [output] is the parsed standard-JSON output that says [o].  When a
    diagnostic is an error the compiler need not have listed any unit. *)
Definition reads_as (output : JSON) (o : CompilerOutput) : Prop :=
  ∃ props, output = JObject props
    ∧ diagnostics_of props (diagnostics o)
    ∧ (List.filter is_error (diagnostics o) ≠ [] ∨ units_of props (units o)).

(** The post-compilation checks in the order of the design document, with
    the treatment of the [0x] prefix left open. *)
Definition post_compilation_checks (prefixed : jsstring → jsstring) (o : CompilerOutput)
    : Exn + Compiled :=
  match List.filter is_error (diagnostics o) with
  | (_ :: _) as errs => inl (Error (COMPILATION_ERRORS ++ join [10] (message <$> errs)))
  | [] =>
      match units o with
      | [] => inl (Error (lit "Solidity compilation failed: " ++ NO_CONTRACTS))
      | (_, u) :: _ =>
          if bool_decide (payload u = [])
          then inl (Error (lit "Solidity compilation failed: " ++ NO_BYTECODE))
          else inr {| bytecode := prefixed (payload u); abi := interface u |}
      end
  end.

(** As the design document words it: the prefix is added if not already
    present. *)
Definition resolve_documented : CompilerOutput → Exn + Compiled :=
  post_compilation_checks
    (fun code => if startsWith (lit "0x") code then code else lit "0x" ++ code).


Definition is_hex_digit (c : code_unit) : bool :=
  is_digit c || (97 <=? c) && (c <=? 102) || (65 <=? c) && (c <=? 70).

(** The key format of the design document: [0x] and 64 hexadecimal digits. *)
Definition key_format (text : jsstring) : bool :=
  startsWith (lit "0x") text && bool_decide (length text = 66%nat)
  && forallb is_hex_digit (drop 2 text).

(** The artifact the design document asks for: an object whose [bytecode] is
    a string starting with [0x] and whose [interface] ([abi]) is an array. *)
Definition artifact_format (v : JSON) : bool :=
  match v with
  | JObject props =>
      match lookup_prop (lit "bytecode") props, lookup_prop (lit "abi") props with
      | Some (JString code), Some (JArray _) => startsWith (lit "0x") code
      | _, _ => false
      end
  | _ => false
  end.

(** ** Sample data *)

(** A chat that has started a deployment and chosen to send bytecode and
    interface. *)
Definition chat : Z := 7.

Definition store_awaiting_artifact : gmap Z Session :=
  sessions (handleContractInputType chat bytecode_abi
              (sessions (startDeploymentProcess chat ∅))).

(** A text whose [abi] is an object, not an array. *)
Definition text_abi_object : jsstring := json_text "{'bytecode':'0x6080','abi':{}}".

(** A session that is waiting for the user's own key. *)
Definition session_awaiting_key : Session :=
  mkSession awaiting_private_key
    (Some (JObject [(lit "bytecode", JString (lit "0x6080")); (lit "abi", JArray [])]))
    (Some []) (Some (lit "mantle-testnet")) None (Some bytecode_abi)
    (Some (lit "Demo")) None.

Definition store_awaiting_key : gmap Z Session := {[ chat := session_awaiting_key ]}.

(** 66 characters, starting with [0x], none of the others a hex digit. *)
Definition text_not_hex : jsstring := lit "0x" ++ replicate 64 122.

Definition text_hex_key : jsstring := lit "0x" ++ replicate 64 49.

(** A session at the network selection. *)
Definition store_awaiting_network : gmap Z Session :=
  {[ chat := set_step awaiting_network_selection session_awaiting_key ]}.

(** A compiler that answers every source with one unit whose bytecode
    already carries the prefix; nothing else leaves the process. *)
Definition solc_output_prefixed : jsstring :=
  json_text ("{'contracts':{'contract.sol':{'C':{'abi':[],"
             ++ "'evm':{'bytecode':{'object':'0x6080'}}}}}}").

(** The wording of one engine: its [JSON.parse] names the token it
    stumbled on, its property reads the value they were tried on. *)
Definition sample_wording (e : Exn) : jsstring :=
  match e with
  | SyntaxError => lit "Unexpected token in JSON"
  | _ => lit "Cannot read properties of undefined"
  end.

Definition offline (compile : option JSON → Exn + jsstring) : World :=
  {| solc_compile := compile;
     new_JsonRpcProvider := λ _, inl TypeError;
     new_Wallet := λ _ _, inl TypeError;
     new_ContractFactory := λ _ _ _, inl TypeError;
     factory_deploy := λ _ _, inl TypeError;
     waitForDeployment := λ _, inl TypeError;
     getAddress := λ _, inl TypeError;
     getBlockNumber := λ _, inl TypeError;
     new_Contract := λ _ _, inl TypeError;
     registry_registerContract := λ _ _ _ _ _, inl TypeError;
     tx_wait := λ _, inl TypeError;
     engine_message := sample_wording |}.

Definition world_prefixed : World := offline (λ _, inr solc_output_prefixed).




Definition output_prefixed : CompilerOutput :=
  {| diagnostics := [];
     units := [(lit "C", {| payload := lit "0x6080"; interface := Some (JArray []) |})] |}.

(** A compiler that answers with a payload without prefix, and one that
    reports an error. *)
Definition solc_output_plain : jsstring :=
  json_text ("{'errors':[{'severity':'warning','message':'unused'}],"
             ++ "'contracts':{'contract.sol':{'C':{'abi':[],"
             ++ "'evm':{'bytecode':{'object':'6080'}}}}}}").


(** The registry the adapter talks to replaced by given answers. *)
Definition with_registry (w : World)
    (contract : jsstring → handle → Exn + handle)
    (register : handle → option jsstring → jsstring → option jsstring → jsstring
                → Exn + handle)
    (wait : handle → Exn + option jsstring) : World :=
  {| solc_compile := solc_compile w;
     new_JsonRpcProvider := new_JsonRpcProvider w;
     new_Wallet := new_Wallet w;
     new_ContractFactory := new_ContractFactory w;
     factory_deploy := factory_deploy w;
     waitForDeployment := waitForDeployment w;
     getAddress := getAddress w;
     getBlockNumber := getBlockNumber w;
     new_Contract := contract;
     registry_registerContract := register;
     tx_wait := wait;
     engine_message := engine_message w |}.

(** A chain on which every call of the deployment goes through, and a
    registry that rejects the registration. *)
Definition world_deploying : World :=
  {| solc_compile := λ _, inr solc_output_plain;
     new_JsonRpcProvider := λ _, inr 1;
     new_Wallet := λ _ _, inr 2;
     new_ContractFactory := λ _ _ _, inr 3;
     factory_deploy := λ _ _, inr (4, lit "0xabc");
     waitForDeployment := λ _, inr 5;
     getAddress := λ _, inr (lit "0xc0ffee");
     getBlockNumber := λ _, inr 100;
     new_Contract := λ _ _, inr 6;
     registry_registerContract := λ _ _ _ _ _,
       inl (Error (lit "execution reverted: Contract already registered"));
     tx_wait := λ _, inr (Some (lit "0xdef"));
     engine_message := sample_wording |}.

Definition config_with_registry : Config :=
  {| PRIVATE_KEY := None;
     CONTRACT_REGISTRY_ADDRESS := lit "0x1234567890123456789012345678901234567890" |}.

Definition store_deploying : gmap Z Session :=
  {[ chat := set_step deploying (set_privateKey text_hex_key session_awaiting_key) ]}.

End Bot.

(** * Parts I and II, continued *)

(** ** The registry as a ledger *)

Module Ledger.
Import Registry.

(** What a record keeps for good: every field but the name. *)
Definition entry (c : DeployedContract) : address * string * uint256 * bytes32 * address :=
  (contractAddress c, network c, timestamp c, txHash c, deployer c).

(** Is this log entry a [registerContract] sent by [user] that went through? *)
Definition registered_by (user : address) (e : Call * bool) : bool :=
  match e with
  | (CallRegister sender _ _ _ _ _, true) => sender =? user
  | _ => false
  end.

(** The two mappings tell the same story: a record sits in the list of its
    deployer, who is the owner of its address and not the zero address; no
    list holds an address twice; every owned address has its record. *)
Definition well_kept (s : State) : Prop :=
  (∀ u c, c ∈ contracts_of s u →
     deployer c = u ∧ owner_of s (contractAddress c) = u ∧ u ≠ 0)
  ∧ (∀ u, NoDup (contractAddress <$> contracts_of s u))
  ∧ (∀ a, owner_of s a ≠ 0 →
       ∃ c, c ∈ contracts_of s (owner_of s a) ∧ contractAddress c = a).

Definition carol : address := 0xCA401.

Definition carol_registers : Call :=
  CallRegister carol 1700000100 "Vault" 0xD00D "mantle-testnet" 0xF00D.

End Ledger.

(** ** The bot as a transition system *)

Module Workflow.
Import JS Bot.

(** What happens to the bot, one run of a listener each: the handler of the
    [/deploy] pattern, the handler of the [/mycontracts] pattern, the
    [callback_query] listener on a selection, the [message] listener on a
    message, and the end of a deployment that was started earlier (run
    against the world it met).  A text message that also matches a command
    pattern runs that handler as well, which is an event of its own here.
    So is the deployment a listener starts: it begins in the run of the
    listener and ends there or later, and what it does to the sessions is
    the event [DeploymentEnds] either way. *)
Inductive Event :=
| DeployCommand (chatId : Z)
| MyContractsCommand (chatId : Z)
| Selection (chatId : Z) (data : jsstring)
| Message (chatId : Z) (text : option jsstring)
| DeploymentEnds (chatId : Z) (w : World).

Definition react (cfg : Config) (ev : Event) (store : gmap Z Session) : Outcome :=
  match ev with
  | DeployCommand chatId => startDeploymentProcess chatId store
  | MyContractsCommand chatId => showMyContracts cfg chatId store
  | Selection chatId data => on_callback_query cfg chatId data store
  | Message chatId text => on_message chatId text store
  | DeploymentEnds chatId w => (deployContract cfg w chatId store).1
  end.

Definition event_chat (ev : Event) : Z :=
  match ev with
  | DeployCommand chatId | MyContractsCommand chatId | Selection chatId _
  | Message chatId _ | DeploymentEnds chatId _ => chatId
  end.

(** The session store after a sequence of events. *)
Fixpoint play (cfg : Config) (events : list Event) (store : gmap Z Session)
    : gmap Z Session :=
  match events with
  | [] => store
  | ev :: rest => play cfg rest (sessions (react cfg ev store))
  end.

(** The stores the bot can be in. *)
Inductive reachable (cfg : Config) : gmap Z Session → Prop :=
| reachable_start : reachable cfg ∅
| reachable_react ev store :
    reachable cfg store → reachable cfg (sessions (react cfg ev store)).

(** What holds of every session the handlers build. *)
Definition well_formed (session : Session) : Prop :=
  (∀ key, privateKey session = Some key →
     startsWith (lit "0x") key = true ∧ length key = 66%nat)
  ∧ (∀ name, contractName session = Some name →
       (1 ≤ length name ≤ 100)%nat ∧ trim name = name)
  ∧ (∀ net, network session = Some net → is_Some (NETWORKS_get (Some net)))
  ∧ (∀ data, contractData session = Some data → ∃ props, data = JObject props)
  ∧ (step session = deploying → is_Some (privateKey session))
  ∧ (step session = awaiting_address → action session = Some view_contracts)
  ∧ (step session = awaiting_contract_data → is_Some (contractInputType session)).

(** The messages and selections of a deployment from bytecode and interface,
    in the order the bot asks for them. *)
Definition deployment_dialogue (chatId : Z) (artifact params name net key : jsstring)
    : list Event :=
  [DeployCommand chatId;
   Selection chatId (lit "input_bytecode_abi");
   Message chatId (Some artifact);
   Message chatId (Some params);
   Message chatId (Some name);
   Selection chatId (lit "select_network_" ++ net);
   Selection chatId (lit "confirm_deploy");
   Selection chatId (lit "enter_own_key");
   Message chatId (Some key)].

Definition sample_artifact : jsstring :=
  json_text "{'bytecode':'0x6080','abi':[{'type':'constructor','inputs':[]}]}".

Definition sample_config : Config :=
  {| PRIVATE_KEY := Some text_hex_key; CONTRACT_REGISTRY_ADDRESS := ZERO_ADDRESS |}.

End Workflow.

(** ** Looking up the contracts of an address *)

Module Lookup.
Import JS Bot.

(** ** getBlockExplorerUrl *)

(** The table [explorers]: for each network the address link and the
    transaction link. *)
Definition explorers (contractAddress txHash : jsstring)
    : list (jsstring * (jsstring * jsstring)) :=
  [(lit "ethereum", (lit "https://etherscan.io/address/" ++ contractAddress,
                     lit "https://etherscan.io/tx/" ++ txHash));
   (lit "sepolia", (lit "https://sepolia.etherscan.io/address/" ++ contractAddress,
                    lit "https://sepolia.etherscan.io/tx/" ++ txHash));
   (lit "polygon", (lit "https://polygonscan.com/address/" ++ contractAddress,
                    lit "https://polygonscan.com/tx/" ++ txHash));
   (lit "mantle", (lit "https://explorer.mantle.xyz/address/" ++ contractAddress,
                   lit "https://explorer.mantle.xyz/tx/" ++ txHash));
   (lit "mantle-testnet",
    (lit "https://explorer.testnet.mantle.xyz/address/" ++ contractAddress,
     lit "https://explorer.testnet.mantle.xyz/tx/" ++ txHash))].

Definition NOT_AVAILABLE : jsstring := lit "Block explorer not available for this network".

(** The two lines of links; the pin and the link sign are the surrogate
    pairs of U+1F4CD and U+1F517. *)
Definition links (address tx : jsstring) : jsstring :=
  [0xD83D; 0xDCCD] ++ lit " [Contract](" ++ address ++ lit ")" ++ [10]
  ++ [0xD83D; 0xDD17] ++ lit " [Transaction](" ++ tx ++ lit ")".

(** [getBlockExplorerUrl(network, contractAddress, txHash)], with [network]
    as the property key it is used as. *)
Definition getBlockExplorerUrl (net contractAddress txHash : jsstring) : jsstring :=
  match snd <$> find (fun e => str_eqb (fst e) net) (explorers contractAddress txHash) with
  | Some (address, tx) => links address tx
  | None =>
      if inherited net then links (lit "undefined") (lit "undefined")
      else NOT_AVAILABLE
  end.

(** The key under which [deployContract] reads the table for a listed
    network: it passes the network object itself, which as a property key is
    its string form. *)
Definition NETWORK_OBJECT_KEY : jsstring := lit "[object Object]".

(** ** viewUserContracts *)

(** A record as the registry returns it. *)
Record RegistryRecord := mkRegistryRecord {
  rec_name : jsstring;
  rec_contractAddress : jsstring;
  rec_network : jsstring;
  rec_timestamp : N;
  rec_txHash : jsstring;
  rec_deployer : jsstring
}.

(** The calls of the lookup that leave the process.  The provider is made
    for an endpoint that may be [undefined]; [getUserContracts] answers with
    an array of records or with something that is not an array ([None]). *)
Record ReadWorld := mkReadWorld {
  read_JsonRpcProvider : option jsstring → Exn + handle;
  read_getBlockNumber : handle → Exn + N;
  read_Contract : jsstring → handle → Exn + handle;
  read_getCode : handle → jsstring → Exn + jsstring;
  read_getUserContracts : handle → jsstring → Exn + option (list RegistryRecord)
}.

(** The one message a lookup ends with.  Each record is shown with the label
    of its network; the time of day the source prints depends on the locale
    of the process and is left as the timestamp. *)
Inductive LookupReply :=
| NoContractsFound (userAddress : jsstring)
| ContractList (records : list (RegistryRecord * jsstring)) (explorer : option jsstring)
| ErrorRetrievingContracts (e : Exn).

(** [(NETWORKS[net] || { name: net }).name || net]: the display name of a
    network of the table; for an inherited name the name of the function
    found there. *)
Definition network_label (net : jsstring) : jsstring :=
  let name := match NETWORKS_get (Some net) with
              | Some info => net_name info
              | None => Some net
              end in
  match name with
  | Some n => if bool_decide (n = []) then net else n
  | None => net
  end.

(** The network the registry is read on: the provider and the name used in
    the messages. *)
Definition registry_provider (w : ReadWorld) (CONTRACT_REGISTRY_NETWORK : option jsstring)
    : Exn + (handle * jsstring) :=
  let configuredNetwork :=
    match CONTRACT_REGISTRY_NETWORK with
    | Some n => if bool_decide (n = []) then lit "mantle-testnet" else n
    | None => lit "mantle-testnet"
    end in
  match NETWORKS_get (Some configuredNetwork) with
  | Some info =>
      provider ← read_JsonRpcProvider w (rpcUrl info);
      inr (provider, configuredNetwork)
  | None => inl TypeError
  end.

Definition viewUserContracts (cfg : Config) (CONTRACT_REGISTRY_NETWORK : option jsstring)
    (w : ReadWorld) (userAddress : jsstring) : LookupReply :=
  match
    '(provider, registryNetwork) ← registry_provider w CONTRACT_REGISTRY_NETWORK;
    _ ← try_catch (read_getBlockNumber w provider)
          (fun networkError =>
             inl (Error (lit "Cannot connect to " ++ registryNetwork
                         ++ lit " network. Please check your configuration.")));
    contractRegistry ← read_Contract w (CONTRACT_REGISTRY_ADDRESS cfg) provider;
    _ ← try_catch
          (code ← read_getCode w provider (CONTRACT_REGISTRY_ADDRESS cfg);
           if str_eqb code (lit "0x")
           then inl (Error (lit "No contract found at address "
                            ++ CONTRACT_REGISTRY_ADDRESS cfg ++ lit " on "
                            ++ registryNetwork))
           else inr ())
          (fun contractError =>
             inl (Error (lit "Contract not found at " ++ CONTRACT_REGISTRY_ADDRESS cfg
                         ++ lit " on " ++ registryNetwork)));
    contracts ← read_getUserContracts w contractRegistry userAddress;
    match contracts with
    | None => inl (Error (lit "Unexpected response format from contract"))
    | Some [] => inr (NoContractsFound userAddress)
    | Some (firstContract :: more) =>
        let explorerUrl :=
          getBlockExplorerUrl (rec_network firstContract)
            (rec_contractAddress firstContract) (rec_txHash firstContract) in
        inr (ContractList
               ((fun c => (c, network_label (rec_network c))) <$> firstContract :: more)
               (if str_eqb explorerUrl NOT_AVAILABLE then None else Some explorerUrl))
    end
  with
  | inr reply => reply
  | inl error => ErrorRetrievingContracts error
  end.

(** A chain that answers, with code at the registry and one record. *)
Definition sample_record : RegistryRecord :=
  {| rec_name := lit "Demo"; rec_contractAddress := lit "0xc0ffee";
     rec_network := lit "mantle-testnet"; rec_timestamp := 1700000000;
     rec_txHash := lit "0xabc"; rec_deployer := lit "0xa11ce" |}.

Definition read_world (code : jsstring) (records : list RegistryRecord) : ReadWorld :=
  {| read_JsonRpcProvider := λ _, inr 1;
     read_getBlockNumber := λ _, inr 100;
     read_Contract := λ _ _, inr 2;
     read_getCode := λ _ _, inr code;
     read_getUserContracts := λ _ _, inr (Some records) |}.

End Lookup.

(** * Part III.  Properties of the parser *)

Module JSFacts.
Import JS.

Lemma skip_ws_length s : (length (skip_ws s) ≤ length s)%nat.
Proof.
  induction s as [|c s IH]; simpl; [lia|].
  destruct (is_json_ws c); simpl; lia.
Qed.

Lemma span_digits_length s : (length (span_digits s).2 ≤ length s)%nat.
Proof.
  induction s as [|c s IH]; simpl; [lia|].
  destruct (is_digit c); [|simpl; lia].
  destruct (span_digits s) as [ds rest]. simpl in *. lia.
Qed.

Lemma parse_chars_length_upto n : ∀ s str rest,
  (length s ≤ n)%nat → parse_chars s = Some (str, rest) →
  (length rest < length s)%nat.
Proof.
  induction n as [|n IH]; intros s str rest Hn H.
  - destruct s; [discriminate | simpl in Hn; lia].
  - destruct s as [|c r]; [discriminate|]. cbn [parse_chars] in H.
    destruct (c =? 34); [injection H as _ <-; simpl; lia|].
    destruct (c =? 92).
    + destruct r as [|e r1]; [discriminate|].
      destruct (e =? 117).
      * destruct r1 as [|h1 [|h2 [|h3 [|h4 r2]]]]; try discriminate.
        destruct (hex_val h1), (hex_val h2), (hex_val h3), (hex_val h4);
          try discriminate.
        destruct (parse_chars r2) as [[str' rest']|] eqn:Hr; [|discriminate].
        injection H as _ <-.
        assert ((length rest' < length r2)%nat)
          by (apply (IH r2 str' rest'); [simpl in Hn; lia | exact Hr]).
        simpl. lia.
      * destruct (unescape e); [|discriminate].
        destruct (parse_chars r1) as [[str' rest']|] eqn:Hr; [|discriminate].
        injection H as _ <-.
        assert ((length rest' < length r1)%nat)
          by (apply (IH r1 str' rest'); [simpl in Hn; lia | exact Hr]).
        simpl. lia.
    + destruct (c <? 32); [discriminate|].
      destruct (parse_chars r) as [[str' rest']|] eqn:Hr; [|discriminate].
      injection H as _ <-.
      assert ((length rest' < length r)%nat)
        by (apply (IH r str' rest'); [simpl in Hn; lia | exact Hr]).
      simpl. lia.
Qed.

Lemma parse_chars_length s str rest :
  parse_chars s = Some (str, rest) → (length rest < length s)%nat.
Proof. apply (parse_chars_length_upto (length s)). lia. Qed.

Lemma parse_int_length s ds rest :
  parse_int s = Some (ds, rest) → (length rest < length s)%nat.
Proof.
  unfold parse_int. destruct s as [|c r]; [discriminate|].
  destruct (c =? 48); [intros H; injection H as _ <-; simpl; lia|].
  destruct (is_digit c) eqn:Hc; [|discriminate].
  cbn [span_digits]. rewrite Hc.
  pose proof (span_digits_length r) as Hr.
  destruct (span_digits r) as [ds' rest']. intros H. injection H as _ <-.
  simpl in *. lia.
Qed.

Lemma parse_frac_length s ds rest :
  parse_frac s = Some (ds, rest) → (length rest ≤ length s)%nat.
Proof.
  unfold parse_frac. destruct s as [|c r]; [intros H; injection H as _ <-; simpl; lia|].
  destruct (c =? 46); [|intros H; injection H as _ <-; lia].
  pose proof (span_digits_length r) as Hr.
  destruct (span_digits r) as [[|d ds'] rest']; [discriminate|].
  intros H. injection H as _ <-. simpl in *. lia.
Qed.

Lemma parse_exp_length s e rest :
  parse_exp s = Some (e, rest) → (length rest ≤ length s)%nat.
Proof.
  unfold parse_exp. destruct s as [|c r]; [intros H; injection H as _ <-; simpl; lia|].
  destruct ((c =? 101) || (c =? 69)); [|intros H; injection H as _ <-; lia].
  set (signed := match r with
                 | [] => (false, r)
                 | sg :: r0 =>
                     if sg =? 45 then (true, r0)
                     else if sg =? 43 then (false, r0) else (false, r)
                 end).
  assert (Hs : (length signed.2 ≤ length r)%nat).
  { subst signed. destruct r as [|sg r0]; [simpl; lia|].
    destruct (sg =? 45); [simpl; lia|]. destruct (sg =? 43); simpl; lia. }
  destruct signed as [minus r']. cbn [snd] in Hs.
  pose proof (span_digits_length r') as Hr.
  destruct (span_digits r') as [[|d ds'] rest']; [discriminate|].
  intros H. injection H as _ <-. simpl in *. lia.
Qed.

Lemma parse_number_length s d rest :
  parse_number s = Some (d, rest) → (length rest < length s)%nat.
Proof.
  unfold parse_number.
  set (signed := match s with
                 | [] => (false, s)
                 | c :: r => if c =? 45 then (true, r) else (false, s)
                 end).
  assert (Hs : (length signed.2 ≤ length s)%nat).
  { subst signed. destruct s as [|c r]; [simpl; lia|].
    destruct (c =? 45); simpl; lia. }
  destruct signed as [neg s1]. cbn [snd] in Hs.
  destruct (parse_int s1) as [[ip s2]|] eqn:Hi; [|discriminate].
  destruct (parse_frac s2) as [[fp s3]|] eqn:Hf; [|discriminate].
  destruct (parse_exp s3) as [[e s4]|] eqn:He; [|discriminate].
  intros H. injection H as _ <-.
  apply parse_int_length in Hi. apply parse_frac_length in Hf.
  apply parse_exp_length in He. lia.
Qed.

(** With the budget of [parse_fuel] the three parsing functions consume
    text and never run out of fuel. *)
Lemma parse_within_fuel fuel :
  (∀ s, (∀ v rest, parse_value fuel s = Parsed v rest → (length rest < length s)%nat)
        ∧ ((2 * length s + 1 ≤ fuel)%nat → parse_value fuel s ≠ OutOfFuel))
  ∧ (∀ acc s, (∀ v rest, parse_elements fuel acc s = Parsed v rest →
                  (length rest < length s)%nat)
              ∧ ((2 * length s + 2 ≤ fuel)%nat → parse_elements fuel acc s ≠ OutOfFuel))
  ∧ (∀ acc s, (∀ v rest, parse_members fuel acc s = Parsed v rest →
                  (length rest < length s)%nat)
              ∧ ((2 * length s + 2 ≤ fuel)%nat → parse_members fuel acc s ≠ OutOfFuel)).
Proof.
  induction fuel as [|fuel (IHv & IHe & IHm)].
  - repeat split; try discriminate; simpl; lia.
  - split; [|split].
    + (* parse_value *)
      intros s. cbn [parse_value].
      pose proof (skip_ws_length s) as Hws.
      destruct (skip_ws s) as [|c r]; [split; [discriminate | discriminate]|].
      simpl in Hws.
      destruct (c =? 123).
      { pose proof (skip_ws_length r) as Hr.
        destruct (skip_ws r) as [|c' r']; [split; discriminate|]. simpl in Hr.
        destruct (c' =? 125).
        - split; [intros v rest H; injection H as _ <-; lia | discriminate].
        - destruct (IHm [] (c' :: r')) as [Hlen Hfuel]. split.
          + intros v rest H. apply Hlen in H. simpl in H. lia.
          + intros Hf. apply Hfuel. simpl. lia. }
      destruct (c =? 91).
      { pose proof (skip_ws_length r) as Hr.
        destruct (skip_ws r) as [|c' r']; [split; discriminate|]. simpl in Hr.
        destruct (c' =? 93).
        - split; [intros v rest H; injection H as _ <-; lia | discriminate].
        - destruct (IHe [] (c' :: r')) as [Hlen Hfuel]. split.
          + intros v rest H. apply Hlen in H. simpl in H. lia.
          + intros Hf. apply Hfuel. simpl. lia. }
      destruct (c =? 34).
      { destruct (parse_chars r) as [[str rest']|] eqn:Hc; [|split; discriminate].
        apply parse_chars_length in Hc.
        split; [intros v rest H; injection H as _ <-; lia | discriminate]. }
      destruct (startsWith (lit "null") (c :: r)).
      { split; [|discriminate]. intros v rest H. injection H as _ <-.
        rewrite length_drop. simpl. lia. }
      destruct (startsWith (lit "true") (c :: r)).
      { split; [|discriminate]. intros v rest H. injection H as _ <-.
        rewrite length_drop. simpl. lia. }
      destruct (startsWith (lit "false") (c :: r)).
      { split; [|discriminate]. intros v rest H. injection H as _ <-.
        rewrite length_drop. simpl. lia. }
      destruct (parse_number (c :: r)) as [[d rest']|] eqn:Hn; [|split; discriminate].
      apply parse_number_length in Hn. simpl in Hn.
      split; [intros v rest H; injection H as _ <-; lia | discriminate].
    + (* parse_elements *)
      intros acc s. cbn [parse_elements].
      destruct (IHv s) as [Hlen Hfuel].
      destruct (parse_value fuel s) as [v rest| |] eqn:Hv.
      * specialize (Hlen v rest eq_refl).
        pose proof (skip_ws_length rest) as Hws.
        destruct (skip_ws rest) as [|c r]; [split; discriminate|]. simpl in Hws.
        destruct (c =? 44).
        { destruct (IHe (acc ++ [v]) r) as [Hlen' Hfuel']. split.
          - intros v' rest' H. apply Hlen' in H. lia.
          - intros Hf. apply Hfuel'. lia. }
        destruct (c =? 93); [|split; discriminate].
        split; [intros v' rest' H; injection H as _ <-; lia | discriminate].
      * split; discriminate.
      * split; [discriminate|]. intros Hf _. apply Hfuel; [lia | reflexivity].
    + (* parse_members *)
      intros acc s. cbn [parse_members].
      pose proof (skip_ws_length s) as Hws.
      destruct (skip_ws s) as [|c r]; [split; discriminate|]. simpl in Hws.
      destruct (c =? 34); [|split; discriminate].
      destruct (parse_chars r) as [[key rest]|] eqn:Hc; [|split; discriminate].
      apply parse_chars_length in Hc.
      pose proof (skip_ws_length rest) as Hws2.
      destruct (skip_ws rest) as [|c2 r2]; [split; discriminate|]. simpl in Hws2.
      destruct (c2 =? 58); [|split; discriminate].
      destruct (IHv r2) as [Hlen Hfuel].
      destruct (parse_value fuel r2) as [v rest2| |] eqn:Hv.
      * specialize (Hlen v rest2 eq_refl).
        pose proof (skip_ws_length rest2) as Hws3.
        destruct (skip_ws rest2) as [|c3 r3]; [split; discriminate|]. simpl in Hws3.
        destruct (c3 =? 44).
        { destruct (IHm (define_prop key v acc) r3) as [Hlen' Hfuel']. split.
          - intros v' rest' H. apply Hlen' in H. lia.
          - intros Hf. apply Hfuel'. lia. }
        destruct (c3 =? 125); [|split; discriminate].
        split; [intros v' rest' H; injection H as _ <-; lia | discriminate].
      * split; discriminate.
      * split; [discriminate|]. intros Hf _. apply Hfuel; [lia | reflexivity].
Qed.

(** [JSON_parse] always gives its own answer: the parse of a text never
    stops for lack of fuel. *)
Lemma JSON_parse_fuel text : parse_value (parse_fuel text) text ≠ OutOfFuel.
Proof.
  apply (proj1 (parse_within_fuel (parse_fuel text))). unfold parse_fuel. lia.
Qed.

End JSFacts.

(** * Part IV.  Properties of the registry *)

Module RegistryFacts.
Import Registry.

(** ** Reading the storage after a write *)

Lemma contracts_of_insert s o u l u' :
  contracts_of (mkState (<[u := l]> (userContracts s)) o) u'
  = if decide (u = u') then l else contracts_of s u'.
Proof.
  unfold contracts_of; simpl. rewrite lookup_insert.
  destruct (decide (u = u')); reflexivity.
Qed.

Lemma owner_of_insert s m a x a' :
  owner_of (mkState m (<[a := x]> (contractToOwner s))) a'
  = if decide (a = a') then x else owner_of s a'.
Proof.
  unfold owner_of; simpl. rewrite lookup_insert.
  destruct (decide (a = a')); reflexivity.
Qed.

Lemma nonempty_true s : nonempty s = true ↔ s ≠ EmptyString.
Proof.
  unfold nonempty. destruct s; simpl; split; intros H; congruence.
Qed.

Lemma nonempty_false s : nonempty s = false ↔ s = EmptyString.
Proof.
  unfold nonempty. destruct s; simpl; split; intros H; congruence.
Qed.

(** ** registerContract, case by case *)

Lemma registerContract_cases sender now name0 a network0 txHash0 s :
  (registerContract sender now name0 a network0 txHash0 s
     = Ok (registered sender now name0 a network0 txHash0 s)
   ∧ name0 ≠ EmptyString ∧ a ≠ 0 ∧ network0 ≠ EmptyString ∧ txHash0 ≠ 0
   ∧ owner_of s a = 0)
  ∨ ((∃ r, registerContract sender now name0 a network0 txHash0 s = Reverted r)
     ∧ (name0 = EmptyString ∨ a = 0 ∨ network0 = EmptyString ∨ txHash0 = 0
        ∨ owner_of s a ≠ 0)).
Proof.
  unfold registerContract, registered, require, bind.
  destruct (nonempty name0) eqn:Hn; simpl;
    [apply nonempty_true in Hn | apply nonempty_false in Hn; right; eauto].
  destruct (N.eqb_spec a 0) as [Ha|Ha]; simpl; [right; eauto 10|].
  destruct (nonempty network0) eqn:Hw; simpl;
    [apply nonempty_true in Hw | apply nonempty_false in Hw; right; eauto 10].
  destruct (N.eqb_spec txHash0 0) as [Ht|Ht]; simpl; [right; eauto 10|].
  destruct (N.eqb_spec (owner_of s a) 0) as [Ho|Ho]; simpl; [|right; eauto 10].
  left. repeat split; assumption.
Qed.

Lemma registerContract_owned sender now name0 a network0 txHash0 s :
  owner_of s a ≠ 0 →
  ∃ r, registerContract sender now name0 a network0 txHash0 s = Reverted r.
Proof.
  intros Ho.
  destruct (registerContract_cases sender now name0 a network0 txHash0 s)
    as [(_ & _ & _ & _ & _ & H0) | [Hr _]]; [contradiction | exact Hr].
Qed.

(** ** updateContractName, case by case *)

Lemma rename_first_length a newName l l' :
  rename_first a newName l = Some l' → length l' = length l.
Proof.
  revert l'. induction l as [|c rest IH]; intros l' H; simpl in H; [discriminate|].
  destruct (contractAddress c =? a).
  - injection H as <-. reflexivity.
  - destruct (rename_first a newName rest) as [r|]; simpl in H; [|discriminate].
    injection H as <-. simpl. f_equal. apply IH. reflexivity.
Qed.

(** A successful scan rewrites one position, the first with the address. *)
Lemma rename_first_Some a newName l l' :
  rename_first a newName l = Some l' →
  ∃ i c, l !! i = Some c ∧ contractAddress c = a
    ∧ l' = <[i := set_name newName c]> l
    ∧ ∀ j d, (j < i)%nat → l !! j = Some d → contractAddress d ≠ a.
Proof.
  revert l'. induction l as [|c rest IH]; intros l' H; simpl in H; [discriminate|].
  destruct (N.eqb_spec (contractAddress c) a) as [Hc|Hc].
  - injection H as <-. exists 0%nat, c. repeat split; [assumption|]. intros j d Hj. lia.
  - destruct (rename_first a newName rest) as [r|]; simpl in H; [|discriminate].
    injection H as <-.
    destruct (IH r eq_refl) as (i & d & Hi & Hd & -> & Hbefore).
    exists (S i), d. repeat split; [assumption..|].
    intros [|j] e Hj He; simpl in He.
    + injection He as <-. assumption.
    + apply (Hbefore j e); [lia | assumption].
Qed.

Lemma rename_first_None a newName l :
  rename_first a newName l = None ↔ ∀ c, c ∈ l → contractAddress c ≠ a.
Proof.
  induction l as [|c rest IH]; simpl.
  - split; [intros _ c Hc; inversion Hc | reflexivity].
  - destruct (N.eqb_spec (contractAddress c) a) as [Hc|Hc].
    + split; [discriminate|]. intros H. exfalso. apply (H c); [left | assumption].
    + destruct (rename_first a newName rest) as [r|]; simpl.
      * split; [discriminate|]. intros H.
        assert (Hall : ∀ c0, c0 ∈ rest → contractAddress c0 ≠ a)
          by (intros c0 Hc0; apply H; right; assumption).
        apply IH in Hall. discriminate.
      * split; [|reflexivity]. intros _ c0 Hc0.
        apply elem_of_cons in Hc0 as [->|Hc0]; [assumption|].
        apply IH; [reflexivity | assumption].
Qed.

Lemma find_contract_app_new a l c :
  (∀ d, d ∈ l → contractAddress d ≠ a) → contractAddress c = a →
  find_contract a (l ++ [c]) = Some c.
Proof.
  intros Hl Hc. induction l as [|d rest IH]; simpl.
  - rewrite Hc, N.eqb_refl. reflexivity.
  - destruct (N.eqb_spec (contractAddress d) a) as [Hd|Hd].
    + exfalso. apply (Hl d); [left | assumption].
    + apply IH. intros e He. apply Hl. right. assumption.
Qed.

(** What [updateContractName] does once its three checks have passed. *)
Lemma updateContractName_checks sender a newName s :
  (owner_of s a = 0 → updateContractName sender a newName s = Reverted NotRegistered)
  ∧ (owner_of s a ≠ 0 → owner_of s a ≠ sender →
     updateContractName sender a newName s = Reverted NotOwner)
  ∧ (owner_of s a ≠ 0 → owner_of s a = sender → newName = EmptyString →
     updateContractName sender a newName s = Reverted NameEmpty)
  ∧ (owner_of s a ≠ 0 → owner_of s a = sender → newName ≠ EmptyString →
     updateContractName sender a newName s
     = match rename_first a newName (contracts_of s sender) with
       | Some contracts' =>
           Ok ({| userContracts := <[sender := contracts']> (userContracts s);
                  contractToOwner := contractToOwner s |},
               [ContractUpdated sender a newName])
       | None => Ok (s, [])
       end).
Proof.
  unfold updateContractName, contractExists, onlyContractOwner, require, bind.
  repeat split.
  - intros ->. reflexivity.
  - intros H0 Hs. destruct (N.eqb_spec (owner_of s a) 0); [contradiction|]. simpl.
    destruct (N.eqb_spec (owner_of s a) sender); [contradiction | reflexivity].
  - intros H0 Hs ->. destruct (N.eqb_spec (owner_of s a) 0); [contradiction|]. simpl.
    destruct (N.eqb_spec (owner_of s a) sender); [reflexivity | contradiction].
  - intros H0 Hs Hn. destruct (N.eqb_spec (owner_of s a) 0); [contradiction|]. simpl.
    destruct (N.eqb_spec (owner_of s a) sender); [|contradiction]. simpl.
    apply nonempty_true in Hn. rewrite Hn. reflexivity.
Qed.

(** ** What every reachable storage satisfies *)

Lemma consistent_init : consistent init.
Proof.
  split.
  - intros u c Hc. unfold contracts_of, init in Hc; simpl in Hc.
    rewrite lookup_empty in Hc. inversion Hc.
  - intros a Ha. unfold owner_of, init in Ha; simpl in Ha.
    rewrite lookup_empty in Ha. contradiction.
Qed.

Lemma consistent_register sender now name0 a network0 txHash0 s :
  sender ≠ 0 → owner_of s a = 0 → consistent s →
  consistent (registered sender now name0 a network0 txHash0 s).1.
Proof.
  intros Hs Ha [H1 H2]. unfold registered; simpl. split.
  - intros u c. rewrite contracts_of_insert, owner_of_insert. intros Hc.
    case_decide as Hu.
    + subst u. apply elem_of_app in Hc as [Hc|Hc].
      * destruct (H1 _ _ Hc) as [Ho _]. case_decide; split; assumption || reflexivity.
      * apply list_elem_of_singleton in Hc as ->. simpl.
        case_decide; [split; [reflexivity | assumption] | contradiction].
    + destruct (H1 _ _ Hc) as [Ho Hu0]. case_decide as Hac; [|split; assumption].
      subst a. rewrite Ha in Ho. congruence.
  - intros a'. rewrite owner_of_insert. case_decide as Ha'.
    + subst a'. intros _. exists (mkDeployedContract name0 a network0 now txHash0 sender).
      rewrite contracts_of_insert. case_decide; [|contradiction].
      split; [apply elem_of_app; right; apply list_elem_of_singleton; reflexivity
             | reflexivity].
    + intros Ho. destruct (H2 _ Ho) as (c & Hc & Hca). exists c.
      rewrite contracts_of_insert. case_decide as Heq; [|split; assumption].
      rewrite <- Heq in Hc. split; [apply elem_of_app; left; assumption | assumption].
Qed.

Lemma elem_of_insert_set_name (l : list DeployedContract) i c newName d :
  l !! i = Some c → d ∈ <[i := set_name newName c]> l →
  ∃ d0, d0 ∈ l ∧ contractAddress d = contractAddress d0.
Proof.
  intros Hi Hd. apply list_elem_of_lookup in Hd as [j Hj].
  destruct (decide (i = j)) as [<-|Hij].
  - rewrite list_lookup_insert_eq in Hj by (eapply lookup_lt_Some; eassumption).
    injection Hj as <-. exists c. split; [eapply list_elem_of_lookup_2; eassumption
                                          | reflexivity].
  - rewrite list_lookup_insert_ne in Hj by assumption.
    exists d. split; [eapply list_elem_of_lookup_2; eassumption | reflexivity].
Qed.

Lemma consistent_rename sender newName s i c :
  contracts_of s sender !! i = Some c → consistent s →
  consistent {| userContracts :=
                  <[sender := <[i := set_name newName c]> (contracts_of s sender)]>
                    (userContracts s);
                contractToOwner := contractToOwner s |}.
Proof.
  intros Hi [H1 H2].
  assert (Howner : ∀ x, owner_of {| userContracts :=
                  <[sender := <[i := set_name newName c]> (contracts_of s sender)]>
                    (userContracts s);
                contractToOwner := contractToOwner s |} x = owner_of s x)
    by reflexivity.
  split.
  - intros u d. rewrite contracts_of_insert, Howner. case_decide as Hu; [|apply H1].
    subst u. intros Hd.
    destruct (elem_of_insert_set_name _ _ _ _ _ Hi Hd) as (d0 & Hd0 & ->).
    apply H1. assumption.
  - intros a'. rewrite Howner. intros Ho. destruct (H2 _ Ho) as (d & Hd & Hda).
    rewrite contracts_of_insert. case_decide as Heq; [|exists d; split; assumption].
    rewrite <- Heq in Hd. apply list_elem_of_lookup in Hd as [j Hj].
    destruct (decide (i = j)) as [Hij|Hij].
    + subst j. exists (set_name newName c). split.
      * eapply list_elem_of_lookup_2. apply list_lookup_insert_eq.
        eapply lookup_lt_Some; eassumption.
      * simpl. congruence.
    + exists d. split; [|assumption].
      apply (list_elem_of_lookup_2 _ j). rewrite list_lookup_insert_ne by assumption.
      assumption.
Qed.

Lemma consistent_after c s : signed c → consistent s → consistent (after c s).
Proof.
  intros Hc Hs. unfold after, exec. destruct c as [sender now name0 a network0 txHash0
                                                  | sender a newName].
  - destruct (registerContract_cases sender now name0 a network0 txHash0 s)
      as [(-> & _ & _ & _ & _ & Ho) | [[r ->] _]]; [|assumption].
    apply (consistent_register sender now name0 a network0 txHash0 s); assumption.
  - destruct (updateContractName_checks sender a newName s) as (E1 & E2 & E3 & E4).
    destruct (decide (owner_of s a = 0)) as [H0|H0]; [rewrite (E1 H0); assumption|].
    destruct (decide (owner_of s a = sender)) as [Ho|Ho];
      [|rewrite (E2 H0 Ho); assumption].
    destruct (decide (newName = EmptyString)) as [Hn|Hn];
      [rewrite (E3 H0 Ho Hn); assumption|].
    rewrite (E4 H0 Ho Hn).
    destruct (rename_first a newName (contracts_of s sender)) as [l'|] eqn:Hr;
      [|assumption].
    destruct (rename_first_Some _ _ _ _ Hr) as (i & d & Hi & _ & -> & _).
    apply consistent_rename; assumption.
Qed.

Lemma reachable_consistent s : reachable s → consistent s.
Proof.
  induction 1 as [|c s _ IH Hc]; [apply consistent_init | apply consistent_after; assumption].
Qed.

(** ** Owners are never reset *)

Lemma owner_kept c s a : owner_of s a ≠ 0 → owner_of (after c s) a = owner_of s a.
Proof.
  intros Ha. unfold after, exec.
  destruct c as [sender now name0 a' network0 txHash0 | sender a' newName].
  - destruct (registerContract_cases sender now name0 a' network0 txHash0 s)
      as [(-> & _ & _ & _ & _ & Ho) | [[r ->] _]]; [|reflexivity].
    unfold registered; simpl. rewrite owner_of_insert.
    case_decide as Heq; [subst a'; contradiction | reflexivity].
  - unfold updateContractName, bind.
    destruct (contractExists s a'); [reflexivity|].
    destruct (onlyContractOwner s sender a'); [reflexivity|].
    destruct (require (nonempty newName) NameEmpty); [reflexivity|].
    destruct (rename_first a' newName (contracts_of s sender)); reflexivity.
Qed.

(** From a storage in which [a] is owned, no later registration of [a] goes
    through; from any storage, at most one does. *)
Lemma registrations_bounded a calls : ∀ s,
  Forall signed calls →
  (owner_of s a ≠ 0 → List.filter (registered_ok a) (run calls s).2 = [])
  ∧ (length (List.filter (registered_ok a) (run calls s).2) ≤ 1)%nat.
Proof.
  induction calls as [|c rest IH]; intros s Hsigned.
  - simpl. split; [reflexivity | lia].
  - inversion Hsigned as [|? ? Hc Hrest]; subst.
    destruct (IH (after c s) Hrest) as [IH0 IH1].
    cbn [run]. destruct (run rest (after c s)) as [s' log].
    cbn [snd List.filter] in *.
    destruct (registered_ok a (c, succeeded c s)) eqn:Hok.
    + (* [c] registers [a] and goes through *)
      destruct c as [sender now name0 a' network0 txHash0 | ]; [|discriminate].
      unfold succeeded, after, exec in *.
      destruct (registerContract_cases sender now name0 a' network0 txHash0 s)
        as [(E & _ & _ & _ & _ & Ho) | [[r E] _]]; rewrite E in *; [|discriminate].
      cbn [registered_ok] in Hok. apply N.eqb_eq in Hok as ->.
      assert (Hnew : owner_of (registered sender now name0 a network0 txHash0 s).1 a ≠ 0).
      { unfold registered; simpl. rewrite owner_of_insert.
        case_decide; [exact Hc | contradiction]. }
      split; [intros H0; contradiction |].
      rewrite (IH0 Hnew). simpl. lia.
    + split; [|exact IH1].
      intros Ha. apply IH0. rewrite owner_kept; assumption.
Qed.

(** ** The claims about the registry *)

(** C1.  At most one registration of an address ever goes through: in any
    sequence of signed transactions, run on a fresh registry or on any other
    storage, at most one [registerContract] for a given address succeeds, and
    none does if the address already has an owner; and once an address has an
    owner, a [registerContract] for it reverts and the storage, with the
    record of the first registration, is as it was. *)
Theorem C1_registered_at_most_once :
  (∀ s calls a, Forall signed calls →
     (length (List.filter (registered_ok a) (run calls s).2) ≤ 1)%nat
     ∧ (owner_of s a ≠ 0 → List.filter (registered_ok a) (run calls s).2 = []))
  ∧ (∀ s sender now name0 a network0 txHash0,
       owner_of s a ≠ 0 →
       (∃ r, registerContract sender now name0 a network0 txHash0 s = Reverted r)
       ∧ after (CallRegister sender now name0 a network0 txHash0) s = s).
Proof.
  split.
  - intros s calls a Hsigned.
    destruct (registrations_bounded a calls s Hsigned) as [Hnone Hone].
    split; assumption.
  - intros s sender now name0 a network0 txHash0 Ho.
    destruct (registerContract_owned sender now name0 a network0 txHash0 s Ho) as [r Hr].
    split; [exists r; exact Hr|]. unfold after, exec. rewrite Hr. reflexivity.
Qed.

Lemma C1_witness :
  Forall signed [alice_registers; bob_registers; alice_registers]
  ∧ (length (List.filter (registered_ok token)
               (run [alice_registers; bob_registers; alice_registers] init).2) ≤ 1)%nat
  ∧ owner_of registered_once token ≠ 0
  ∧ List.filter (registered_ok token) (run [bob_registers; alice_registers]
                                          registered_once).2 = []
  ∧ after bob_registers registered_once = registered_once.
Proof.
  destruct C1_registered_at_most_once as [Hcount Hsecond].
  assert (Hs : Forall signed [alice_registers; bob_registers; alice_registers])
    by (repeat constructor; discriminate).
  assert (Hs' : Forall signed [bob_registers; alice_registers])
    by (repeat constructor; discriminate).
  assert (Ho : owner_of registered_once token ≠ 0) by discriminate.
  split; [exact Hs|]. split; [exact (proj1 (Hcount init _ token Hs))|].
  split; [exact Ho|]. split; [exact (proj2 (Hcount registered_once _ token Hs') Ho)|].
  exact (proj2 (Hsecond registered_once bob 1700000050 "Mine"%string token
                  "mantle-testnet"%string 0xBEEF Ho)).
Defined.

(** C2.  [registerContract] reverts exactly when the name is empty, the
    address is zero, the network is empty, the transaction hash is zero, or
    the address already has an owner.  When it goes through, the caller's
    list is the old one with one record appended, whose deployer is the
    caller; the owner of the address is the caller; nothing else in the
    storage changes; and one [ContractRegistered] event is emitted with the
    caller, the four arguments and the block time. *)
Theorem C2_register_fails_exactly_when :
  ∀ sender now name0 a network0 txHash0 s,
    ((∃ r, registerContract sender now name0 a network0 txHash0 s = Reverted r)
     ↔ (name0 = EmptyString ∨ a = 0 ∨ network0 = EmptyString ∨ txHash0 = 0
        ∨ owner_of s a ≠ 0))
    ∧ (∀ s' events,
         registerContract sender now name0 a network0 txHash0 s = Ok (s', events) →
         contracts_of s' sender
         = contracts_of s sender
           ++ [{| name := name0; contractAddress := a; network := network0;
                  timestamp := now; txHash := txHash0; deployer := sender |}]
         ∧ (∀ u, u ≠ sender → contracts_of s' u = contracts_of s u)
         ∧ owner_of s' a = sender
         ∧ (∀ a', a' ≠ a → owner_of s' a' = owner_of s a')
         ∧ events = [ContractRegistered sender a name0 network0 txHash0 now]).
Proof.
  intros sender now name0 a network0 txHash0 s.
  destruct (registerContract_cases sender now name0 a network0 txHash0 s)
    as [(E & Hn & Ha & Hw & Ht & Ho) | [[r E] Hbad]].
  - split.
    + split.
      * intros [r Hr]. rewrite E in Hr. discriminate.
      * intros [H|[H|[H|[H|H]]]]; contradiction.
    + intros s' events Hok. rewrite E in Hok. injection Hok as <- <-.
      unfold registered; simpl. rewrite contracts_of_insert, owner_of_insert.
      repeat case_decide; try contradiction.
      split; [reflexivity|]. split.
      { intros u Hu. rewrite contracts_of_insert. case_decide; congruence. }
      split; [reflexivity|]. split; [|reflexivity].
      intros a' Ha'. rewrite owner_of_insert. case_decide; congruence.
  - split.
    + split; [intros _; exact Hbad | intros _; exists r; exact E].
    + intros s' events Hok. rewrite E in Hok. discriminate.
Qed.

Lemma C2_witness :
  contracts_of registered_once alice
  = [{| name := "Token"; contractAddress := token; network := "mantle-testnet";
        timestamp := 1700000000; txHash := 0xFEED; deployer := alice |}]
  ∧ owner_of registered_once token = alice
  ∧ ∃ r, registerContract bob 1700000050 "Mine" token "mantle-testnet" 0xBEEF
           registered_once = Reverted r.
Proof.
  destruct (C2_register_fails_exactly_when alice 1700000000 "Token"%string token
              "mantle-testnet"%string 0xFEED init) as [_ Hok].
  destruct (Hok registered_once
              [ContractRegistered alice token "Token" "mantle-testnet" 0xFEED 1700000000]
              eq_refl) as (Hlist & _ & Howner & _ & _).
  split; [exact Hlist|]. split; [exact Howner|].
  apply (C2_register_fails_exactly_when bob 1700000050 "Mine"%string token
           "mantle-testnet"%string 0xBEEF registered_once).
  right; right; right; right. discriminate.
Defined.

(** C3.  [updateContractName] reverts with "Contract not registered" when
    the address has no owner, with "Not the contract owner" when the caller
    is not the owner, and with "Name cannot be empty" when the owner passes
    an empty name.  When the owner of a registered address renames it with a
    non-empty name, in a reachable storage, one record of the owner's list,
    the one with that address, gets the new name and keeps its address,
    network, timestamp, transaction hash and deployer; every other position
    of the list, its length, the other lists and the owners stay as they
    were. *)
Theorem C3_rename_changes_only_the_name :
  ∀ sender a newName s,
    (owner_of s a = 0 → updateContractName sender a newName s = Reverted NotRegistered)
    ∧ (owner_of s a ≠ 0 → owner_of s a ≠ sender →
       updateContractName sender a newName s = Reverted NotOwner)
    ∧ (owner_of s a ≠ 0 → owner_of s a = sender → newName = EmptyString →
       updateContractName sender a newName s = Reverted NameEmpty)
    ∧ (reachable s → owner_of s a ≠ 0 → owner_of s a = sender → newName ≠ EmptyString →
       ∃ s' i c c',
         updateContractName sender a newName s
         = Ok (s', [ContractUpdated sender a newName])
         ∧ contracts_of s sender !! i = Some c ∧ contractAddress c = a
         ∧ contracts_of s' sender !! i = Some c'
         ∧ name c' = newName
         ∧ contractAddress c' = contractAddress c ∧ network c' = network c
         ∧ timestamp c' = timestamp c ∧ txHash c' = txHash c
         ∧ deployer c' = deployer c
         ∧ length (contracts_of s' sender) = length (contracts_of s sender)
         ∧ (∀ j, j ≠ i → contracts_of s' sender !! j = contracts_of s sender !! j)
         ∧ (∀ u, u ≠ sender → contracts_of s' u = contracts_of s u)
         ∧ (∀ x, owner_of s' x = owner_of s x)).
Proof.
  intros sender a newName s.
  destruct (updateContractName_checks sender a newName s) as (E1 & E2 & E3 & E4).
  split; [exact E1|]. split; [exact E2|]. split; [exact E3|].
  intros Hreach H0 Ho Hn. rewrite (E4 H0 Ho Hn).
  destruct (reachable_consistent s Hreach) as [_ Hhas].
  destruct (Hhas a H0) as (c0 & Hc0 & Hc0a). rewrite Ho in Hc0.
  destruct (rename_first a newName (contracts_of s sender)) as [l'|] eqn:Hr.
  - destruct (rename_first_Some _ _ _ _ Hr) as (i & c & Hi & Hc & -> & _).
    assert (Hlt : (i < length (contracts_of s sender))%nat)
      by (eapply lookup_lt_Some; eassumption).
    eexists _, i, c, (set_name newName c).
    split; [reflexivity|]. split; [exact Hi|]. split; [exact Hc|].
    rewrite contracts_of_insert. case_decide; [|contradiction].
    split; [apply list_lookup_insert_eq; exact Hlt|].
    do 6 (split; [reflexivity|]).
    split; [apply length_insert|].
    split; [intros j Hj; apply list_lookup_insert_ne; congruence|].
    split; [|reflexivity].
    intros u Hu. rewrite contracts_of_insert. case_decide; congruence.
  - exfalso. apply (proj1 (rename_first_None a newName _) Hr c0); assumption.
Qed.

Lemma C3_witness :
  reachable registered_once
  ∧ updateContractName bob token "Stolen" registered_once = Reverted NotOwner
  ∧ ∃ s' i c c',
      updateContractName alice token "Token v2" registered_once
      = Ok (s', [ContractUpdated alice token "Token v2"])
      ∧ contracts_of registered_once alice !! i = Some c
      ∧ contracts_of s' alice !! i = Some c'
      ∧ name c' = "Token v2"%string ∧ txHash c' = txHash c.
Proof.
  assert (Hreach : reachable registered_once)
    by (apply reachable_step; [apply reachable_init | discriminate]).
  assert (H0 : owner_of registered_once token ≠ 0) by discriminate.
  split; [exact Hreach|]. split.
  - apply (C3_rename_changes_only_the_name bob token "Stolen"%string registered_once);
      [exact H0 | discriminate].
  - destruct (C3_rename_changes_only_the_name alice token "Token v2"%string
                registered_once) as (_ & _ & _ & Hrename).
    destruct (Hrename Hreach H0 eq_refl ltac:(discriminate))
      as (s' & i & c & c' & E & Hi & _ & Hi' & Hname & _ & _ & _ & Htx & _).
    exists s', i, c, c'. repeat split; assumption.
Defined.

(** C4.  After a [registerContract] that went through in a reachable
    storage, [getContract] for the address returns the record with the
    registered name, address, network and transaction hash, the caller as
    deployer, and the block time as timestamp. *)
Theorem C4_register_then_read :
  ∀ s sender now name0 a network0 txHash0 s' events,
    reachable s → sender ≠ 0 →
    registerContract sender now name0 a network0 txHash0 s = Ok (s', events) →
    getContract s' a
    = Ok {| name := name0; contractAddress := a; network := network0;
            timestamp := now; txHash := txHash0; deployer := sender |}.
Proof.
  intros s sender now name0 a network0 txHash0 s' events Hreach Hs Hok.
  destruct (registerContract_cases sender now name0 a network0 txHash0 s)
    as [(E & _ & _ & _ & _ & Ho) | [[r E] _]]; rewrite E in Hok; [|discriminate].
  injection Hok as <- <-.
  destruct (reachable_consistent s Hreach) as [Hin _].
  unfold getContract, contractExists, require, bind, registered; simpl.
  rewrite owner_of_insert. case_decide; [|contradiction].
  destruct (N.eqb_spec sender 0) as [|_]; [contradiction|]. simpl.
  rewrite contracts_of_insert. case_decide; [|contradiction].
  rewrite find_contract_app_new; [reflexivity | | reflexivity].
  intros d Hd Hda. destruct (Hin _ _ Hd) as [Hown _].
  rewrite Hda, Ho in Hown. congruence.
Qed.

Lemma C4_witness :
  reachable registered_once ∧ bob ≠ 0
  ∧ getContract (after (CallRegister bob 1700000050 "Mine" 0xD00D "mantle-testnet" 0xBEEF)
                   registered_once) 0xD00D
    = Ok {| name := "Mine"; contractAddress := 0xD00D; network := "mantle-testnet";
            timestamp := 1700000050; txHash := 0xBEEF; deployer := bob |}.
Proof.
  assert (Hreach : reachable registered_once)
    by (apply reachable_step; [apply reachable_init | discriminate]).
  assert (Hbob : bob ≠ 0) by discriminate.
  split; [exact Hreach|]. split; [exact Hbob|].
  exact (C4_register_then_read registered_once bob 1700000050 "Mine"%string 0xD00D
           "mantle-testnet"%string 0xBEEF _ _ Hreach Hbob eq_refl).
Defined.

(** C9.  For every storage and every user, [getUserContractCount] is the
    length of the list [getUserContracts] returns. *)
Theorem C9_count_is_length_of_list :
  ∀ s user, getUserContractCount s user = N.of_nat (length (getUserContracts s user)).
Proof.
  intros s user. unfold getUserContractCount, getUserContracts. reflexivity.
Qed.

End RegistryFacts.

(** * Part V.  Properties of the bot *)

Module BotFacts.
Import JS Bot.

(** ** Strings *)

Lemma startsWith_app p s : startsWith p (p ++ s) = true.
Proof.
  induction p as [|c p IH]; simpl; [reflexivity|].
  rewrite N.eqb_refl, IH. reflexivity.
Qed.

Lemma includes_prefix p s : includes p (p ++ s) = true.
Proof.
  destruct (p ++ s) eqn:E; simpl; rewrite <- E, startsWith_app; reflexivity.
Qed.

Lemma str_eqb_refl s : str_eqb s s = true.
Proof. unfold str_eqb. apply bool_decide_eq_true. reflexivity. Qed.

(** ** The free-text steps, case by case *)

(** A text that [handleContractData] rejects leaves the store untouched; a
    text it takes is stored and the step advanced, whatever
    [getConstructorInfo] then makes of it. *)
Lemma handleContractData_sessions chatId text store session :
  store !! chatId = Some session →
  sessions (handleContractData chatId text store)
  = match read_contract_data (contractInputType session) text with
    | inl _ => store
    | inr contractData =>
        <[chatId := set_step awaiting_constructor_params
                      (set_contractData contractData session)]> store
    end.
Proof.
  intros Hs. unfold handleContractData. rewrite Hs.
  destruct (read_contract_data (contractInputType session) text) as [e|v];
    [reflexivity|].
  cbn zeta. destruct (getConstructorInfo _ _); reflexivity.
Qed.

(** What the checks of [handleContractData] ask of a text sent as bytecode
    and interface: it parses to an object whose [bytecode] is a string
    starting with [0x] and whose [abi] is anything truthy. *)
Lemma read_contract_data_accepts text v :
  read_contract_data (Some bytecode_abi) text = inr v
  ↔ JSON_parse_arg text = inr v
    ∧ ∃ props code abi0,
        v = JObject props
        ∧ lookup_prop (lit "bytecode") props = Some (JString code)
        ∧ startsWith (lit "0x") code = true
        ∧ lookup_prop (lit "abi") props = Some abi0
        ∧ truthy abi0 = true.
Proof.
  unfold read_contract_data. destruct (JSON_parse_arg text) as [e|parsed];
    cbn -[startsWith lit].
  - split; [discriminate | intros [H _]; discriminate].
  - split.
    + intros H.
      destruct parsed as [| | | | |props]; cbn -[startsWith lit] in H; try discriminate.
      destruct (lookup_prop (lit "bytecode") props) as [bc|] eqn:Hbc;
        cbn -[startsWith lit] in H; [|discriminate].
      destruct (truthy bc) eqn:Tbc; cbn -[startsWith lit] in H; [|discriminate].
      destruct (lookup_prop (lit "abi") props) as [ab|] eqn:Hab;
        cbn -[startsWith lit] in H; [|discriminate].
      destruct (truthy ab) eqn:Tab; cbn -[startsWith lit] in H; [|discriminate].
      destruct bc as [| | |code| |]; try discriminate.
      destruct (startsWith (lit "0x") code) eqn:Hsw; [|discriminate].
      injection H as <-. split; [reflexivity|].
      exists props, code, ab. repeat split; assumption.
    + intros [Hp (props & code & ab & -> & Hbc & Hsw & Hab & Tab)].
      injection Hp as ->. cbn -[startsWith lit]. rewrite Hbc. cbn -[startsWith lit].
      assert (Tbc : negb (bool_decide (code = [])) = true).
      { destruct code; [discriminate | reflexivity]. }
      rewrite Tbc. cbn -[startsWith lit]. rewrite Hab. cbn -[startsWith lit].
      rewrite Tab. cbn -[startsWith lit]. rewrite Hsw. reflexivity.
Qed.

(** Every artifact of the documented format passes the checks. *)
Lemma artifact_format_accepted text v :
  JSON_parse_arg text = inr v → artifact_format v = true →
  read_contract_data (Some bytecode_abi) text = inr v.
Proof.
  intros Hp Hf. apply read_contract_data_accepts. split; [exact Hp|].
  destruct v as [| | | | |props]; try discriminate. simpl in Hf.
  destruct (lookup_prop (lit "bytecode") props) as [[| | |code| |]|] eqn:Hbc;
    try discriminate.
  destruct (lookup_prop (lit "abi") props) as [[| | | |items|]|] eqn:Hab;
    try discriminate.
  exists props, code, (JArray items). repeat split; assumption.
Qed.

(** ** The claims about the conversation *)

(** C5.  The code at the input on which it departs from the claim: the chat
    is in the step [awaiting_contract_data] with input kind [bytecode_abi]
    and sends a JSON text whose [abi] is an object instead of an array.  The
    text is not an artifact of the documented format, and the bot answers
    with the error re-prompt; yet the session has taken the data and moved on
    to [awaiting_constructor_params]. *)
Theorem C5_object_abi_moves_the_session_on :
  (step <$> store_awaiting_artifact !! chat) = Some awaiting_contract_data
  ∧ (contractInputType <$> store_awaiting_artifact !! chat) = Some (Some bytecode_abi)
  ∧ JSON_parse text_abi_object
    = inr (JObject [(lit "bytecode", JString (lit "0x6080")); (lit "abi", JObject [])])
  ∧ artifact_format
      (JObject [(lit "bytecode", JString (lit "0x6080")); (lit "abi", JObject [])])
    = false
  ∧ sent (on_message chat (Some text_abi_object) store_awaiting_artifact)
    = [ErrorParsingContractData TypeError (Some bytecode_abi)]
  ∧ (step <$> sessions (on_message chat (Some text_abi_object) store_awaiting_artifact)
               !! chat)
    = Some awaiting_constructor_params
  ∧ (contractData <$> sessions (on_message chat (Some text_abi_object)
                                  store_awaiting_artifact) !! chat)
    = Some (Some (JObject [(lit "bytecode", JString (lit "0x6080"));
                           (lit "abi", JObject [])])).
Proof. vm_compute. repeat split; reflexivity. Qed.

(** C6, as the claim states it, fails: the text [0x] followed by 64 letters
    [z] is not of the key format, and the session that was waiting for the
    key goes to [deploying] with the deployment started. *)
Lemma C6_counterexample :
  key_format text_not_hex = false
  ∧ (step <$> store_awaiting_key !! chat) = Some awaiting_private_key
  ∧ (step <$> sessions (on_message chat (Some text_not_hex) store_awaiting_key) !! chat)
    = Some deploying
  ∧ started (on_message chat (Some text_not_hex) store_awaiting_key)
    = Some (DeployContract chat).
Proof. vm_compute. repeat split; reflexivity. Qed.

(** C6, amended.  A text received in the step [awaiting_private_key] is
    taken as the key, and the session goes to [deploying] with the deployment
    started, exactly when the text starts with [0x] and has 66 characters;
    every text of the key format is such a text.  Any other text leaves the
    session store as it was and starts nothing. *)
Theorem C6_key_taken_by_prefix_and_length :
  ∀ chatId text store session,
    store !! chatId = Some session → step session = awaiting_private_key →
    (key_format text = true → startsWith (lit "0x") text = true ∧ length text = 66%nat)
    ∧ (startsWith (lit "0x") text = true ∧ length text = 66%nat →
       on_message chatId (Some text) store
       = mkOutcome (<[chatId := set_step deploying (set_privateKey text session)]> store)
           [PrivateKeyReceived (mask text)] (Some (DeployContract chatId)) None)
    ∧ (¬ (startsWith (lit "0x") text = true ∧ length text = 66%nat) →
       sessions (on_message chatId (Some text) store) = store
       ∧ started (on_message chatId (Some text) store) = None).
Proof.
  intros chatId text store session Hs Hstep. split; [|split].
  - unfold key_format. intros H.
    apply andb_prop in H as [H _]. apply andb_prop in H as [H1 H2].
    apply bool_decide_eq_true in H2. split; assumption.
  - intros [Hsw Hlen]. unfold on_message.
    assert (Hslash : startsWith (lit "/") text = false).
    { destruct text as [|c text]; [reflexivity|].
      change (lit "0x") with [48; 120] in Hsw. change (lit "/") with [47].
      cbn [startsWith] in Hsw |- *.
      apply andb_prop in Hsw as [Hc _]. apply N.eqb_eq in Hc as <-. reflexivity. }
    rewrite Hslash, andb_false_r, Hs, Hstep.
    unfold handlePrivateKey. rewrite Hs, Hsw. simpl.
    rewrite bool_decide_eq_true_2 by assumption. reflexivity.
  - intros Hno. unfold on_message.
    destruct (negb (bool_decide (text = [])) && startsWith (lit "/") text);
      [split; reflexivity|].
    rewrite Hs, Hstep. unfold handlePrivateKey. rewrite Hs.
    destruct (startsWith (lit "0x") text) eqn:Hsw; simpl; [|split; reflexivity].
    destruct (bool_decide (length text = 66%nat)) eqn:Hlen; simpl;
      [|split; reflexivity].
    exfalso. apply Hno. apply bool_decide_eq_true in Hlen. split; [reflexivity | assumption].
Qed.

Lemma C6_witness :
  store_awaiting_key !! chat = Some session_awaiting_key
  ∧ step session_awaiting_key = awaiting_private_key
  ∧ key_format text_hex_key = true
  ∧ on_message chat (Some text_hex_key) store_awaiting_key
    = mkOutcome (<[chat := set_step deploying
                             (set_privateKey text_hex_key session_awaiting_key)]>
                   store_awaiting_key)
        [PrivateKeyReceived (mask text_hex_key)] (Some (DeployContract chat)) None
  ∧ sessions (on_message chat (Some (lit "0x12")) store_awaiting_key) = store_awaiting_key.
Proof.
  assert (Hs : store_awaiting_key !! chat = Some session_awaiting_key) by reflexivity.
  assert (Hstep : step session_awaiting_key = awaiting_private_key) by reflexivity.
  assert (Hk : key_format text_hex_key = true) by reflexivity.
  split; [exact Hs|]. split; [exact Hstep|]. split; [exact Hk|]. split.
  - destruct (C6_key_taken_by_prefix_and_length chat text_hex_key _ _ Hs Hstep)
      as (Hfmt & Htaken & _).
    exact (Htaken (Hfmt Hk)).
  - destruct (C6_key_taken_by_prefix_and_length chat (lit "0x12") _ _ Hs Hstep)
      as (_ & _ & Hrejected).
    apply Hrejected. intros [_ Hlen]. discriminate Hlen.
Defined.

(** C10.  While the step of the chat's session is [contract_input],
    [awaiting_network_selection], [deployment_confirmation] or
    [awaiting_private_key_choice], a message, whatever its text, leaves the
    session store as it is; nothing is sent, started or thrown. *)
Theorem C10_selection_steps_ignore_text :
  ∀ chatId text store session,
    store !! chatId = Some session →
    step session = contract_input ∨ step session = awaiting_network_selection
    ∨ step session = deployment_confirmation
    ∨ step session = awaiting_private_key_choice →
    on_message chatId text store = done store [].
Proof.
  intros chatId text store session Hs Hstep. unfold on_message.
  destruct (match text with
            | Some t => negb (bool_decide (t = [])) && startsWith (lit "/") t
            | None => false
            end); [reflexivity|].
  rewrite Hs. destruct Hstep as [->|[->|[->| ->]]]; reflexivity.
Qed.

Lemma C10_witness :
  store_awaiting_network !! chat
  = Some (set_step awaiting_network_selection session_awaiting_key)
  ∧ on_message chat (Some (lit "mantle-testnet")) store_awaiting_network
    = done store_awaiting_network [].
Proof.
  assert (Hs : store_awaiting_network !! chat
               = Some (set_step awaiting_network_selection session_awaiting_key))
    by reflexivity.
  split; [exact Hs|].
  apply (C10_selection_steps_ignore_text chat _ _ _ Hs). right; left. reflexivity.
Defined.

(** ** The registry adapter *)

Lemma registerContractWithRegistry_returns cfg w wallet addr name0 net tx :
  ∃ r, registerContractWithRegistry cfg w wallet addr name0 net tx = inr r.
Proof.
  unfold registerContractWithRegistry, try_catch.
  destruct (if str_eqb (CONTRACT_REGISTRY_ADDRESS cfg) ZERO_ADDRESS then _ else _);
    eauto.
Qed.

Lemma compileSolidity_with_registry w c r t src :
  compileSolidity (with_registry w c r t) src = compileSolidity w src.
Proof. reflexivity. Qed.

(** The steps of a deployment up to the registration, and those after it,
    do not ask the registry: with another registry the deployment ends the
    same way, but for the registry transaction it reports. *)
Lemma deploy_steps_with_registry cfg w c r t session netInfo d :
  (deploy_steps cfg w session netInfo).2 = inr d →
  ∃ reg, (deploy_steps cfg (with_registry w c r t) session netInfo).2
         = inr {| dep_contractAddress := dep_contractAddress d;
                  dep_txHash := dep_txHash d;
                  dep_blockNumber := dep_blockNumber d;
                  dep_registryTxHash := reg |}.
Proof.
  unfold deploy_steps, try_bind, call, send.
  unfold compileSolidity. cbn [with_registry solc_compile new_JsonRpcProvider
    new_Wallet new_ContractFactory factory_deploy waitForDeployment getAddress
    getBlockNumber].
  destruct (new_JsonRpcProvider w (rpcUrl netInfo)) as [e|provider];
    [discriminate|].
  destruct (new_Wallet w (privateKey session) provider) as [e|wallet];
    [discriminate|].
  set (factory := match contractInputType session with
                  | Some bytecode_abi => _
                  | _ => _
                  end).
  destruct factory as [out [e|contractFactory]]; [discriminate|].
  destruct (match constructorParams session with
            | Some params => factory_deploy w contractFactory params
            | None => inl TypeError
            end) as [e|[contract txHash]]; [discriminate|].
  cbn [fst snd].
  destruct (waitForDeployment w contract) as [e|deployed]; [discriminate|].
  destruct (getAddress w deployed) as [e|address]; [discriminate|].
  destruct (negb (str_eqb (CONTRACT_REGISTRY_ADDRESS cfg) ZERO_ADDRESS)).
  - destruct (registerContractWithRegistry_returns cfg w wallet address
                (contractName session) (network session) txHash) as [r1 ->].
    destruct (registerContractWithRegistry_returns cfg (with_registry w c r t) wallet
                address (contractName session) (network session) txHash) as [r2 ->].
    destruct (getBlockNumber w provider) as [e|blockNumber]; [discriminate|].
    cbn. intros H. injection H as <-. exists r2. reflexivity.
  - destruct (getBlockNumber w provider) as [e|blockNumber]; [discriminate|].
    cbn. intros H. injection H as <-. exists None. reflexivity.
Qed.

(** C8.  [registerContractWithRegistry] never throws: it returns the hash of
    the receipt when the three calls to the registry went through, and [null]
    when the registry contract could not be reached, when the registration
    was rejected (as it is for an address already registered) and when
    waiting for the receipt failed.  And a deployment that succeeds with one
    registry succeeds with any other, whatever that one answers, with the
    same address, transaction and block. *)
Theorem C8_registration_failure_is_null_not_thrown :
  (∀ cfg w wallet addr name0 net tx,
     (∃ r, registerContractWithRegistry cfg w wallet addr name0 net tx = inr r)
     ∧ (∀ e, new_Contract w (CONTRACT_REGISTRY_ADDRESS cfg) wallet = inl e →
          registerContractWithRegistry cfg w wallet addr name0 net tx = inr None)
     ∧ (∀ registry e,
          new_Contract w (CONTRACT_REGISTRY_ADDRESS cfg) wallet = inr registry →
          registry_registerContract w registry name0 addr net tx = inl e →
          registerContractWithRegistry cfg w wallet addr name0 net tx = inr None)
     ∧ (∀ registry pending e,
          new_Contract w (CONTRACT_REGISTRY_ADDRESS cfg) wallet = inr registry →
          registry_registerContract w registry name0 addr net tx = inr pending →
          tx_wait w pending = inl e →
          registerContractWithRegistry cfg w wallet addr name0 net tx = inr None))
  ∧ (∀ cfg w contract register wait chatId store d,
       (deployContract cfg w chatId store).2 = Succeeded d →
       ∃ reg,
         (deployContract cfg (with_registry w contract register wait) chatId store).2
         = Succeeded {| dep_contractAddress := dep_contractAddress d;
                        dep_txHash := dep_txHash d;
                        dep_blockNumber := dep_blockNumber d;
                        dep_registryTxHash := reg |}).
Proof.
  split.
  - intros cfg w wallet addr name0 net tx.
    split; [apply registerContractWithRegistry_returns|].
    unfold registerContractWithRegistry, try_catch.
    destruct (str_eqb (CONTRACT_REGISTRY_ADDRESS cfg) ZERO_ADDRESS).
    + repeat split; reflexivity.
    + split; [|split].
      * intros e ->. reflexivity.
      * intros registry e H1 H2. rewrite H1. cbn. rewrite H2. reflexivity.
      * intros registry pending e H1 H2 H3.
        rewrite H1. cbn. rewrite H2. cbn. rewrite H3. reflexivity.
  - intros cfg w contract register wait chatId store d. unfold deployContract.
    destruct (store !! chatId) as [session|]; [|discriminate].
    destruct (NETWORKS_get (network session)) as [netInfo|]; [|discriminate].
    destruct (deploy_steps cfg w session netInfo) as [out [e|d0]] eqn:Hw;
      [discriminate|].
    cbn [snd]. intros H. injection H as ->.
    destruct (deploy_steps_with_registry cfg w contract register wait session netInfo d)
      as [reg Hreg]; [rewrite Hw; reflexivity|].
    exists reg.
    destruct (deploy_steps cfg (with_registry w contract register wait) session netInfo)
      as [out' r'].
    cbn [snd] in Hreg. subst r'. reflexivity.
Qed.

Lemma C8_witness :
  registerContractWithRegistry config_with_registry world_deploying 2 (lit "0xc0ffee")
    (Some (lit "Demo")) (Some (lit "mantle-testnet")) (lit "0xabc") = inr None
  ∧ ∃ d reg,
      (deployContract config_with_registry world_deploying chat store_deploying).2
      = Succeeded d
      ∧ (deployContract config_with_registry
           (with_registry world_deploying (λ _ _, inl TypeError)
              (λ _ _ _ _ _, inl TypeError) (λ _, inl TypeError))
           chat store_deploying).2
        = Succeeded {| dep_contractAddress := dep_contractAddress d;
                       dep_txHash := dep_txHash d;
                       dep_blockNumber := dep_blockNumber d;
                       dep_registryTxHash := reg |}.
Proof.
  destruct C8_registration_failure_is_null_not_thrown as [Hadapter Hdeploy].
  split.
  - destruct (Hadapter config_with_registry world_deploying 2 (lit "0xc0ffee")
                (Some (lit "Demo")) (Some (lit "mantle-testnet")) (lit "0xabc"))
      as (_ & _ & Hrejected & _).
    exact (Hrejected 6 (Error (lit "execution reverted: Contract already registered"))
             eq_refl eq_refl).
  - eexists. 
    destruct (Hdeploy config_with_registry world_deploying (λ _ _, inl TypeError)
                (λ _ _ _ _ _, inl TypeError) (λ _, inl TypeError) chat store_deploying
                _ eq_refl) as [reg Hreg].
    exists reg. split; [reflexivity | exact Hreg].
Defined.

(** ** compileSolidity *)





(** The other departure from the design document: a payload that already
    starts with [0x] is returned with a second prefix. *)
Lemma prefix_added_to_a_prefixed_payload :
  (∃ output, JSON_parse solc_output_prefixed = inr output
     ∧ reads_as output output_prefixed)
  ∧ resolve_documented output_prefixed
    = inr {| bytecode := lit "0x6080"; abi := Some (JArray []) |}
  ∧ compileSolidity world_prefixed (Some (JString (lit "contract C {}")))
    = inr {| bytecode := lit "0x0x6080"; abi := Some (JArray []) |}.
Proof.
  split; [|split; vm_compute; reflexivity].
  eexists. split; [vm_compute; reflexivity|].
  eexists. split; [reflexivity|]. split; [left; split; reflexivity|].
  right. right. eexists. split; [reflexivity|]. right. eexists. split; [reflexivity|].
  constructor; [|constructor]. split; [reflexivity|].
  eexists. split; [reflexivity|]. split; [|reflexivity].
  eapply payload_present; reflexivity.
Qed.




End BotFacts.

(** * Part VI.  Further properties of the registry *)

Module LedgerFacts.
Import Registry Ledger RegistryFacts.

(** ** What a transaction changes *)

(** A transaction touches no list but the sender's. *)
Lemma contracts_of_other c s u :
  u ≠ call_sender c → contracts_of (after c s) u = contracts_of s u.
Proof.
  intros Hu. unfold after, exec.
  destruct c as [sender now name0 a network0 txHash0 | sender a newName];
    cbn [call_sender] in Hu.
  - destruct (registerContract_cases sender now name0 a network0 txHash0 s)
      as [(-> & _) | [[r ->] _]]; [|reflexivity].
    unfold registered; cbn [fst]. rewrite contracts_of_insert.
    case_decide; congruence.
  - unfold updateContractName, bind.
    destruct (contractExists s a); [reflexivity|].
    destruct (onlyContractOwner s sender a); [reflexivity|].
    destruct (require (nonempty newName) NameEmpty); [reflexivity|].
    destruct (rename_first a newName (contracts_of s sender)); [|reflexivity].
    rewrite contracts_of_insert. case_decide; congruence.
Qed.

Lemma entry_set_name newName c : entry (set_name newName c) = entry c.
Proof. reflexivity. Qed.

Lemma rename_first_entries a newName l l' :
  rename_first a newName l = Some l' → entry <$> l' = entry <$> l.
Proof.
  revert l'. induction l as [|c rest IH]; intros l' H; simpl in H; [discriminate|].
  destruct (contractAddress c =? a).
  - injection H as <-. reflexivity.
  - destruct (rename_first a newName rest) as [r|]; simpl in H; [|discriminate].
    injection H as <-. cbn [fmap list_fmap]. f_equal. apply IH. reflexivity.
Qed.

(** One transaction: the entries of a list stay, and a registration that
    goes through adds one at the end of the sender's. *)
Lemma entries_after c s u :
  entry <$> contracts_of (after c s) u
  = (entry <$> contracts_of s u)
    ++ match c with
       | CallRegister sender now _ a network0 txHash0 =>
           if succeeded c s && (sender =? u)
           then [(a, network0, now, txHash0, sender)] else []
       | CallRename _ _ _ => []
       end.
Proof.
  unfold after, succeeded, exec.
  destruct c as [sender now name0 a network0 txHash0 | sender a newName].
  - destruct (registerContract_cases sender now name0 a network0 txHash0 s)
      as [(-> & _) | [[r ->] _]]; [|cbn; rewrite app_nil_r; reflexivity].
    unfold registered; cbn [fst andb]. rewrite contracts_of_insert.
    destruct (N.eqb_spec sender u) as [->|Hu]; case_decide; try congruence.
    + rewrite fmap_app. reflexivity.
    + rewrite app_nil_r. reflexivity.
  - rewrite app_nil_r. unfold updateContractName, bind.
    destruct (contractExists s a); [reflexivity|].
    destruct (onlyContractOwner s sender a); [reflexivity|].
    destruct (require (nonempty newName) NameEmpty); [reflexivity|].
    destruct (rename_first a newName (contracts_of s sender)) as [l'|] eqn:Hr;
      [|reflexivity].
    rewrite contracts_of_insert. case_decide as Hu; [|reflexivity].
    subst u. apply (rename_first_entries _ _ _ _ Hr).
Qed.

(** ** What every reachable storage satisfies, in full *)

Lemma well_kept_init : well_kept init.
Proof.
  split; [|split].
  - intros u c Hc. unfold contracts_of, init in Hc; simpl in Hc.
    rewrite lookup_empty in Hc. inversion Hc.
  - intros u. unfold contracts_of, init; simpl. rewrite lookup_empty. constructor.
  - intros a Ha. unfold owner_of, init in Ha; simpl in Ha.
    rewrite lookup_empty in Ha. contradiction.
Qed.

Lemma well_kept_register sender now name0 a network0 txHash0 s :
  sender ≠ 0 → owner_of s a = 0 → well_kept s →
  well_kept (registered sender now name0 a network0 txHash0 s).1.
Proof.
  intros Hs Ha (H1 & H2 & H3). unfold registered; cbn [fst]. split; [|split].
  - intros u c. rewrite contracts_of_insert, owner_of_insert. intros Hc.
    case_decide as Hu.
    + subst u. apply elem_of_app in Hc as [Hc|Hc].
      * destruct (H1 _ _ Hc) as (Hd & Ho & _).
        case_decide; repeat split; assumption || reflexivity.
      * apply list_elem_of_singleton in Hc as ->. cbn.
        case_decide; [repeat split; assumption || reflexivity | contradiction].
    + destruct (H1 _ _ Hc) as (Hd & Ho & Hu0). case_decide as Hac;
        [|repeat split; assumption].
      subst a. rewrite Ha in Ho. congruence.
  - intros u. rewrite contracts_of_insert. case_decide as Hu; [|apply H2].
    subst u. rewrite fmap_app. apply NoDup_app. split; [apply H2|]. split.
    + intros x Hx Hx'. apply list_elem_of_singleton in Hx'. cbn in Hx'. subst x.
      apply list_elem_of_fmap in Hx as (c & Hca & Hc).
      destruct (H1 _ _ Hc) as (_ & Ho & _). rewrite <- Hca, Ha in Ho. congruence.
    + apply NoDup_singleton.
  - intros a'. rewrite owner_of_insert. case_decide as Ha'.
    + subst a'. intros _. exists (mkDeployedContract name0 a network0 now txHash0 sender).
      rewrite contracts_of_insert. case_decide; [|contradiction].
      split; [apply elem_of_app; right; apply list_elem_of_singleton; reflexivity
             | reflexivity].
    + intros Ho. destruct (H3 _ Ho) as (c & Hc & Hca). exists c.
      rewrite contracts_of_insert. case_decide as Heq; [|split; assumption].
      rewrite <- Heq in Hc. split; [apply elem_of_app; left; assumption | assumption].
Qed.

Lemma fmap_insert_set_name (l : list DeployedContract) i c newName :
  l !! i = Some c →
  contractAddress <$> <[i := set_name newName c]> l = contractAddress <$> l.
Proof.
  intros Hi. rewrite list_fmap_insert. cbn [set_name contractAddress].
  apply list_insert_id. rewrite list_lookup_fmap, Hi. reflexivity.
Qed.

Lemma well_kept_rename sender newName s i c :
  contracts_of s sender !! i = Some c → well_kept s →
  well_kept {| userContracts :=
                 <[sender := <[i := set_name newName c]> (contracts_of s sender)]>
                   (userContracts s);
               contractToOwner := contractToOwner s |}.
Proof.
  intros Hi (H1 & H2 & H3).
  assert (Howner : ∀ x, owner_of {| userContracts :=
                  <[sender := <[i := set_name newName c]> (contracts_of s sender)]>
                    (userContracts s);
                contractToOwner := contractToOwner s |} x = owner_of s x)
    by reflexivity.
  split; [|split].
  - intros u d. rewrite contracts_of_insert, Howner. case_decide as Hu; [|apply H1].
    subst u. intros Hd. apply list_elem_of_lookup in Hd as [j Hj].
    destruct (decide (i = j)) as [Hij|Hij].
    + subst j. rewrite list_lookup_insert_eq in Hj
        by (eapply lookup_lt_Some; eassumption).
      injection Hj as <-. cbn [set_name deployer contractAddress].
      apply H1. eapply list_elem_of_lookup_2; eassumption.
    + rewrite list_lookup_insert_ne in Hj by assumption.
      apply H1. eapply list_elem_of_lookup_2; eassumption.
  - intros u. rewrite contracts_of_insert. case_decide as Hu; [|apply H2].
    subst u. rewrite (fmap_insert_set_name _ _ _ _ Hi). apply H2.
  - intros a'. rewrite Howner. intros Ho. destruct (H3 _ Ho) as (d & Hd & Hda).
    rewrite contracts_of_insert. case_decide as Heq; [|exists d; split; assumption].
    rewrite <- Heq in Hd. apply list_elem_of_lookup in Hd as [j Hj].
    destruct (decide (i = j)) as [Hij|Hij].
    + subst j. exists (set_name newName c). split.
      * eapply list_elem_of_lookup_2. apply list_lookup_insert_eq.
        eapply lookup_lt_Some; eassumption.
      * cbn. congruence.
    + exists d. split; [|assumption].
      apply (list_elem_of_lookup_2 _ j). rewrite list_lookup_insert_ne by assumption.
      assumption.
Qed.

Lemma well_kept_after c s : signed c → well_kept s → well_kept (after c s).
Proof.
  intros Hc Hs. unfold after, exec.
  destruct c as [sender now name0 a network0 txHash0 | sender a newName].
  - destruct (registerContract_cases sender now name0 a network0 txHash0 s)
      as [(-> & _ & _ & _ & _ & Ho) | [[r ->] _]]; [|assumption].
    apply (well_kept_register sender now name0 a network0 txHash0 s); assumption.
  - destruct (updateContractName_checks sender a newName s) as (E1 & E2 & E3 & E4).
    destruct (decide (owner_of s a = 0)) as [H0|H0]; [rewrite (E1 H0); assumption|].
    destruct (decide (owner_of s a = sender)) as [Ho|Ho];
      [|rewrite (E2 H0 Ho); assumption].
    destruct (decide (newName = EmptyString)) as [Hn|Hn];
      [rewrite (E3 H0 Ho Hn); assumption|].
    rewrite (E4 H0 Ho Hn).
    destruct (rename_first a newName (contracts_of s sender)) as [l'|] eqn:Hr;
      [|assumption].
    destruct (rename_first_Some _ _ _ _ Hr) as (i & d & Hi & _ & -> & _).
    apply well_kept_rename; assumption.
Qed.

Lemma reachable_well_kept s : reachable s → well_kept s.
Proof.
  induction 1 as [|c s _ IH Hc]; [apply well_kept_init | apply well_kept_after; assumption].
Qed.

Lemma find_contract_elem a l c :
  c ∈ l → contractAddress c = a →
  ∃ d, find_contract a l = Some d ∧ d ∈ l ∧ contractAddress d = a.
Proof.
  intros Hc Ha. induction l as [|e rest IH]; [inversion Hc|]. simpl.
  destruct (N.eqb_spec (contractAddress e) a) as [He|He].
  - exists e. split; [reflexivity|]. split; [left | assumption].
  - apply elem_of_cons in Hc as [->|Hc]; [contradiction|].
    destruct (IH Hc) as (d & Hd & Hin & Hda). exists d.
    split; [assumption|]. split; [right; assumption | assumption].
Qed.

Lemma reachable_registered_once : reachable registered_once.
Proof. apply reachable_step; [apply reachable_init | discriminate]. Qed.

(** ** Reading what was registered *)

(** X1.  In a reachable storage a registered address can always be read:
    [getContract] returns a record of that address, never "Contract not
    found"; the record is in the list of its deployer, and its deployer is
    the owner [getContractOwner] returns. *)
Theorem registered_address_is_readable :
  ∀ s a, reachable s → isContractRegistered s a = true →
    ∃ c, getContract s a = Ok c ∧ contractAddress c = a
      ∧ getContractOwner s a = Ok (deployer c)
      ∧ c ∈ getUserContracts s (deployer c).
Proof.
  intros s a Hreach Hreg. destruct (reachable_well_kept s Hreach) as (H1 & _ & H3).
  unfold isContractRegistered in Hreg. apply negb_true_iff in Hreg.
  assert (Ho : owner_of s a ≠ 0) by (apply N.eqb_neq; exact Hreg).
  destruct (H3 a Ho) as (c0 & Hc0 & Hc0a).
  destruct (find_contract_elem a _ c0 Hc0 Hc0a) as (c & Hfind & Hc & Hca).
  destruct (H1 _ _ Hc) as (Hd & _ & _).
  exists c. unfold getContract, getContractOwner, getUserContracts, contractExists,
    require, bind. rewrite Hreg. cbn [negb]. rewrite Hfind, Hd.
  repeat split; assumption || reflexivity.
Qed.

Lemma registered_address_is_readable_witness :
  reachable registered_once ∧ isContractRegistered registered_once token = true
  ∧ ∃ c, getContract registered_once token = Ok c ∧ deployer c = alice.
Proof.
  split; [exact reachable_registered_once|]. split; [reflexivity|].
  destruct (registered_address_is_readable registered_once token
              reachable_registered_once eq_refl) as (c & Hget & _ & Hown & _).
  exists c. split; [exact Hget|].
  assert (Ha : getContractOwner registered_once token = Ok alice) by reflexivity.
  rewrite Ha in Hown. injection Hown as <-. reflexivity.
Defined.

(** X2.  In a reachable storage an address is registered exactly when some
    user's list holds a record of it. *)
Theorem registered_iff_listed :
  ∀ s a, reachable s →
    (isContractRegistered s a = true
     ↔ ∃ u c, c ∈ getUserContracts s u ∧ contractAddress c = a).
Proof.
  intros s a Hreach. destruct (reachable_well_kept s Hreach) as (H1 & _ & H3).
  unfold isContractRegistered, getUserContracts. rewrite negb_true_iff, N.eqb_neq.
  split.
  - intros Ho. destruct (H3 a Ho) as (c & Hc & Hca). eauto.
  - intros (u & c & Hc & <-). destruct (H1 _ _ Hc) as (_ & -> & Hu). exact Hu.
Qed.

Lemma registered_iff_listed_witness :
  reachable registered_once
  ∧ ∃ u c, c ∈ getUserContracts registered_once u ∧ contractAddress c = token.
Proof.
  split; [exact reachable_registered_once|].
  apply (registered_iff_listed registered_once token reachable_registered_once).
  reflexivity.
Defined.

(** X3.  In a reachable storage no address is recorded twice: two records
    with the same address are the same position of the same user's list. *)
Theorem address_recorded_once :
  ∀ s u1 u2 i j c1 c2, reachable s →
    getUserContracts s u1 !! i = Some c1 → getUserContracts s u2 !! j = Some c2 →
    contractAddress c1 = contractAddress c2 →
    u1 = u2 ∧ i = j.
Proof.
  intros s u1 u2 i j c1 c2 Hreach Hi Hj Heq. unfold getUserContracts in *.
  destruct (reachable_well_kept s Hreach) as (H1 & H2 & _).
  destruct (H1 u1 c1) as (_ & Ho1 & _); [eapply list_elem_of_lookup_2; eassumption|].
  destruct (H1 u2 c2) as (_ & Ho2 & _); [eapply list_elem_of_lookup_2; eassumption|].
  assert (Hu : u1 = u2) by congruence. clear Ho1 Ho2. subst u2. split; [reflexivity|].
  apply (NoDup_lookup _ i j (contractAddress c1) (H2 u1)).
  - rewrite list_lookup_fmap, Hi. reflexivity.
  - rewrite list_lookup_fmap, Hj, Heq. reflexivity.
Qed.

Lemma address_recorded_once_witness :
  reachable (after carol_registers registered_once)
  ∧ ∀ u j c, getUserContracts (after carol_registers registered_once) u !! j = Some c →
      contractAddress c = token → u = alice ∧ 0%nat = j.
Proof.
  assert (Hreach : reachable (after carol_registers registered_once))
    by (apply reachable_step; [exact reachable_registered_once | discriminate]).
  split; [exact Hreach|]. intros u j c Hj Hc.
  destruct (address_recorded_once _ alice u 0%nat j _ c Hreach eq_refl Hj
              (eq_sym Hc)) as [-> ->].
  split; reflexivity.
Defined.

(** ** What transactions never do *)

Lemma entries_run calls : ∀ s u,
  entry <$> contracts_of s u `prefix_of` entry <$> contracts_of (run calls s).1 u.
Proof.
  induction calls as [|c rest IH]; intros s u; [reflexivity|].
  cbn [run]. specialize (IH (after c s) u).
  destruct (run rest (after c s)) as [s' log]. cbn [fst] in *.
  etransitivity; [|exact IH]. rewrite entries_after. apply prefix_app_r. reflexivity.
Qed.

(** X4.  Records are never removed, reordered or altered but in their name:
    whatever transactions are run, what a user's list held before is still
    there afterwards, at the same positions, with the same address, network,
    timestamp, transaction hash and deployer. *)
Theorem records_are_append_only :
  ∀ calls s u,
    entry <$> getUserContracts s u
    `prefix_of` entry <$> getUserContracts (run calls s).1 u.
Proof. intros calls s u. apply entries_run. Qed.

(** X5.  The count of a user grows with that user's registrations and with
    nothing else: after any transactions it is the count before plus the
    number of [registerContract] calls of that user that went through. *)
Theorem count_is_number_of_registrations :
  ∀ calls s u,
    getUserContractCount (run calls s).1 u
    = getUserContractCount s u
      + N.of_nat (length (List.filter (registered_by u) (run calls s).2)).
Proof.
  unfold getUserContractCount.
  induction calls as [|c rest IH]; intros s u; [cbn; lia|].
  cbn [run]. specialize (IH (after c s) u).
  destruct (run rest (after c s)) as [s' log]. cbn [fst snd List.filter] in *.
  rewrite IH. clear IH.
  assert (Hlen : length (contracts_of (after c s) u)
                 = (length (contracts_of s u)
                    + if registered_by u (c, succeeded c s) then 1 else 0)%nat).
  { rewrite <- (length_fmap entry (contracts_of (after c s) u)), entries_after,
      length_app, length_fmap.
    f_equal. destruct c as [sender now name0 a network0 txHash0 | ]; [|reflexivity].
    cbn [registered_by]. destruct (succeeded _ s), (sender =? u); reflexivity. }
  rewrite Hlen. destruct (registered_by u (c, succeeded c s)); cbn [length]; lia.
Qed.

(** ** Renaming *)

Lemma rename_first_find a newName l l' :
  rename_first a newName l = Some l' →
  find_contract a l' = set_name newName <$> find_contract a l.
Proof.
  revert l'. induction l as [|c rest IH]; intros l' H; simpl in H; [discriminate|].
  cbn [find_contract]. destruct (contractAddress c =? a) eqn:Hc.
  - injection H as <-. cbn. rewrite Hc. reflexivity.
  - destruct (rename_first a newName rest) as [r|]; simpl in H; [|discriminate].
    injection H as <-. cbn. rewrite Hc. apply IH. reflexivity.
Qed.

Lemma rename_first_None_find a newName l :
  rename_first a newName l = None → find_contract a l = None.
Proof.
  induction l as [|c rest IH]; [reflexivity|]. cbn [rename_first find_contract].
  destruct (contractAddress c =? a); [discriminate|].
  destruct (rename_first a newName rest); [discriminate | auto].
Qed.

(** X6.  Renaming and reading back: when the owner of an address renames it
    with a non-empty name, [getContract] afterwards returns what it returned
    before with the new name in place of the old one (and fails as before if
    it failed before). *)
Theorem rename_then_read :
  ∀ s sender a newName,
    owner_of s a = sender → newName ≠ EmptyString →
    getContract (after (CallRename sender a newName) s) a
    = match getContract s a with
      | Ok c => Ok (set_name newName c)
      | Reverted r => Reverted r
      end.
Proof.
  intros s sender a newName Ho Hn.
  destruct (updateContractName_checks sender a newName s) as (E1 & _ & _ & E4).
  unfold after, exec.
  destruct (decide (owner_of s a = 0)) as [H0|H0].
  - rewrite (E1 H0). unfold getContract, contractExists, require, bind.
    rewrite H0. reflexivity.
  - rewrite (E4 H0 Ho Hn).
    destruct (rename_first a newName (contracts_of s sender)) as [l'|] eqn:Hr.
    + unfold getContract, contractExists, require, bind.
      change (owner_of {| userContracts := <[sender:=l']> (userContracts s);
                          contractToOwner := contractToOwner s |} a)
        with (owner_of s a).
      destruct (N.eqb_spec (owner_of s a) 0) as [|_]; [contradiction|]. cbn [negb].
      rewrite Ho, contracts_of_insert. case_decide; [|contradiction].
      rewrite (rename_first_find _ _ _ _ Hr).
      destruct (find_contract a (contracts_of s sender)); reflexivity.
    + unfold getContract, contractExists, require, bind.
      destruct (N.eqb_spec (owner_of s a) 0) as [|_]; [contradiction|]. cbn [negb].
      rewrite Ho, (rename_first_None_find _ _ _ Hr). reflexivity.
Qed.

Lemma rename_then_read_witness :
  owner_of registered_once token = alice
  ∧ getContract (after alice_renames registered_once) token
    = Ok {| name := "Token v2"; contractAddress := token; network := "mantle-testnet";
            timestamp := 1700000000; txHash := 0xFEED; deployer := alice |}.
Proof.
  assert (Ho : owner_of registered_once token = alice) by reflexivity.
  split; [exact Ho|].
  exact (rename_then_read registered_once alice token "Token v2"%string Ho
           ltac:(discriminate)).
Defined.

Lemma rename_first_twice a n1 n2 l l1 :
  rename_first a n1 l = Some l1 → rename_first a n2 l1 = rename_first a n2 l.
Proof.
  revert l1. induction l as [|c rest IH]; intros l1 H; simpl in H; [discriminate|].
  destruct (contractAddress c =? a) eqn:Hc.
  - injection H as <-. cbn. rewrite Hc. reflexivity.
  - destruct (rename_first a n1 rest) as [r|]; simpl in H; [|discriminate].
    injection H as <-. cbn. rewrite Hc. rewrite (IH r eq_refl). reflexivity.
Qed.

(** X7.  Only the last name counts: renaming an address and then renaming
    it again, with a non-empty name, leaves the storage that the second
    renaming alone would have left. *)
Theorem rename_twice_is_rename_last :
  ∀ s sender a name1 name2,
    name2 ≠ EmptyString →
    after (CallRename sender a name2) (after (CallRename sender a name1) s)
    = after (CallRename sender a name2) s.
Proof.
  intros s sender a name1 name2 Hn2.
  destruct (updateContractName_checks sender a name1 s) as (E1 & E2 & E3 & E4).
  unfold after at 2. unfold exec.
  destruct (decide (owner_of s a = 0)) as [H0|H0]; [rewrite (E1 H0); reflexivity|].
  destruct (decide (owner_of s a = sender)) as [Ho|Ho];
    [|rewrite (E2 H0 Ho); reflexivity].
  destruct (decide (name1 = EmptyString)) as [Hn1|Hn1];
    [rewrite (E3 H0 Ho Hn1); reflexivity|].
  rewrite (E4 H0 Ho Hn1).
  destruct (rename_first a name1 (contracts_of s sender)) as [l1|] eqn:Hr;
    [|reflexivity].
  unfold after, exec.
  destruct (updateContractName_checks sender a name2 s) as (_ & _ & _ & F4).
  rewrite (F4 H0 Ho Hn2).
  destruct (updateContractName_checks sender a name2
              {| userContracts := <[sender:=l1]> (userContracts s);
                 contractToOwner := contractToOwner s |}) as (_ & _ & _ & G4).
  rewrite (G4 H0 Ho Hn2). rewrite contracts_of_insert. case_decide; [|contradiction].
  rewrite (rename_first_twice _ _ _ _ _ Hr).
  destruct (rename_first a name2 (contracts_of s sender)) as [l2|] eqn:Hr2.
  - cbn [userContracts contractToOwner]. rewrite insert_insert_eq. reflexivity.
  - exfalso. destruct (rename_first_Some _ _ _ _ Hr) as (i & c & Hi & Hc & _).
    apply (proj1 (rename_first_None a name2 _) Hr2 c);
      [eapply list_elem_of_lookup_2; eassumption | assumption].
Qed.

Lemma rename_twice_is_rename_last_witness :
  after alice_renames (after (CallRename alice token "Draft") registered_once)
  = after alice_renames registered_once.
Proof.
  exact (rename_twice_is_rename_last registered_once alice token "Draft"%string
           "Token v2"%string ltac:(discriminate)).
Defined.

(** X8.  Nobody but the owner changes a record: a transaction sent by any
    other account leaves what [getContract] returns for a registered address
    as it was. *)
Theorem others_cannot_change_a_record :
  ∀ c s a,
    owner_of s a ≠ 0 → call_sender c ≠ owner_of s a →
    getContract (after c s) a = getContract s a.
Proof.
  intros c s a H0 Hc. unfold getContract, contractExists, require, bind.
  rewrite (owner_kept c s a H0).
  rewrite (contracts_of_other c s (owner_of s a)) by congruence.
  reflexivity.
Qed.

Lemma others_cannot_change_a_record_witness :
  owner_of registered_once token ≠ 0
  ∧ getContract (after (CallRename bob token "Stolen") registered_once) token
    = getContract registered_once token
  ∧ getContract (after carol_registers registered_once) token
    = getContract registered_once token.
Proof.
  assert (H0 : owner_of registered_once token ≠ 0) by discriminate.
  split; [exact H0|]. split.
  - apply (others_cannot_change_a_record (CallRename bob token "Stolen")
             registered_once token H0). discriminate.
  - apply (others_cannot_change_a_record carol_registers registered_once token H0).
    discriminate.
Defined.

End LedgerFacts.

(** * Part VII.  Further properties of the bot *)

Module WorkflowFacts.
Import JS Bot Workflow BotFacts.

(** ** Texts *)

(** A text that parses as JSON does not start with a slash: the message
    listener does not take it for a command. *)
Lemma JSON_parse_not_command text v :
  JSON_parse text = inr v → startsWith (lit "/") text = false.
Proof.
  intros H. destruct text as [|c r]; [reflexivity|].
  change (lit "/") with [47]. cbn [startsWith].
  destruct (N.eqb_spec 47 c) as [<-|]; [|reflexivity]. exfalso.
  unfold JSON_parse, parse_fuel in H. cbn [length] in H.
  replace (2 * S (length r) + 2)%nat with (S (2 * length r + 3)) in H by lia.
  cbn in H. discriminate.
Qed.

Lemma trimStart_head s :
  trimStart s = [] ∨ ∃ h r, trimStart s = h :: r ∧ is_trim_space h = false.
Proof.
  induction s as [|c s IH]; [left; reflexivity|]. cbn [trimStart].
  destruct (is_trim_space c) eqn:Hc; [exact IH|]. right. eauto.
Qed.

Lemma trimStart_clean h r : is_trim_space h = false → trimStart (h :: r) = h :: r.
Proof. intros H. cbn [trimStart]. rewrite H. reflexivity. Qed.

Lemma trimStart_idemp s : trimStart (trimStart s) = trimStart s.
Proof.
  destruct (trimStart_head s) as [->|(h & r & -> & Hh)]; [reflexivity|].
  apply trimStart_clean. exact Hh.
Qed.

Lemma trimStart_snoc l h :
  is_trim_space h = false → ∃ l', trimStart (l ++ [h]) = l' ++ [h].
Proof.
  intros Hh. induction l as [|c l IH].
  - exists []. apply trimStart_clean. exact Hh.
  - cbn [app trimStart]. destruct (is_trim_space c); [exact IH|].
    exists (c :: l). reflexivity.
Qed.

(** A trimmed text has no white space left at either end: trimming it again
    changes nothing. *)
Lemma trim_idemp s : trim (trim s) = trim s.
Proof.
  assert (Hend : trimStart (reverse (trim s)) = reverse (trim s)).
  { unfold trim. rewrite reverse_involutive. apply trimStart_idemp. }
  assert (Hstart : trimStart (trim s) = trim s).
  { unfold trim. destruct (trimStart_head s) as [->|(h & r & -> & Hh)]; [reflexivity|].
    rewrite reverse_cons. destruct (trimStart_snoc (reverse r) h Hh) as [l' ->].
    rewrite reverse_app. cbn. rewrite Hh. reflexivity. }
  unfold trim at 1. rewrite Hstart, Hend. apply reverse_involutive.
Qed.

(** ** One chat at a time *)

Ltac other_chat :=
  repeat match goal with
         | |- context [match ?x with _ => _ end] => destruct x
         end;
  cbn [sessions done];
  rewrite ?lookup_insert_ne, ?lookup_delete_ne by congruence;
  reflexivity.

Lemma on_message_other chatId text store other :
  other ≠ chatId → sessions (on_message chatId text store) !! other = store !! other.
Proof.
  intros Hne. unfold on_message, handleContractData, handleConstructorParams,
    handleContractName, handleAddressForContracts, handlePrivateKey.
  other_chat.
Qed.

Lemma on_callback_query_other cfg chatId data store other :
  other ≠ chatId →
  sessions (on_callback_query cfg chatId data store) !! other = store !! other.
Proof.
  intros Hne. unfold on_callback_query, startDeploymentProcess, handleContractInputType,
    selectNetworkForDeployment, requestPrivateKey, cancelDeployment, useDemoKey,
    requestCustomPrivateKey.
  other_chat.
Qed.

Lemma deployContract_other cfg w chatId store other :
  other ≠ chatId →
  sessions (deployContract cfg w chatId store).1 !! other = store !! other.
Proof.
  intros Hne. unfold deployContract.
  destruct (store !! chatId); [|reflexivity].
  destruct (NETWORKS_get (network s));
    [destruct (deploy_steps cfg w s n) as [out [e|d]]|];
    cbn [fst sessions done]; rewrite lookup_delete_ne by congruence; reflexivity.
Qed.

Lemma react_other cfg ev store other :
  other ≠ event_chat ev → sessions (react cfg ev store) !! other = store !! other.
Proof.
  intros Hne.
  destruct ev as [chatId|chatId|chatId data|chatId text|chatId w];
    cbn [event_chat react] in *.
  - unfold startDeploymentProcess. cbn [sessions done].
    rewrite lookup_insert_ne, lookup_delete_ne by congruence. reflexivity.
  - unfold showMyContracts. destruct (str_eqb _ _); cbn [sessions done];
      [reflexivity|].
    rewrite lookup_insert_ne, lookup_delete_ne by congruence. reflexivity.
  - apply on_callback_query_other. exact Hne.
  - apply on_message_other. exact Hne.
  - apply deployContract_other. exact Hne.
Qed.

(** X9.  What happens to one chat never touches the session of another:
    after a command, a selection, a message or the end of a deployment of one
    chat, every other chat has the session it had, and so it is after any
    sequence of events of other chats. *)
Theorem other_chats_are_untouched :
  ∀ cfg events store other,
    Forall (λ ev, other ≠ event_chat ev) events →
    play cfg events store !! other = store !! other.
Proof.
  intros cfg events. induction events as [|ev rest IH]; intros store other Hall.
  - reflexivity.
  - apply Forall_cons in Hall as [Hne Hrest]. cbn [play].
    rewrite (IH _ _ Hrest). apply react_other. exact Hne.
Qed.

Lemma other_chats_are_untouched_witness :
  play sample_config [Message 8 (Some text_hex_key); DeployCommand 9] store_awaiting_key
    !! chat
  = store_awaiting_key !! chat.
Proof.
  apply (other_chats_are_untouched sample_config
           [Message 8 (Some text_hex_key); DeployCommand 9]).
  repeat constructor; discriminate.
Defined.

(** ** Starting over, and doing nothing *)

(** X10.  Starting a workflow discards whatever session the chat had:
    [/deploy] leaves the fresh session and [/mycontracts] the fresh lookup
    session, and nothing of the outcome depends on the old one.  Only when
    no registry is configured does [/mycontracts] leave the store, and with
    it the old session, as it is. *)
Theorem new_workflow_discards_the_session :
  ∀ cfg chatId store old,
    startDeploymentProcess chatId (<[chatId := old]> store)
    = startDeploymentProcess chatId store
    ∧ sessions (startDeploymentProcess chatId store) !! chatId = Some new_session
    ∧ (CONTRACT_REGISTRY_ADDRESS cfg ≠ ZERO_ADDRESS →
       showMyContracts cfg chatId (<[chatId := old]> store)
       = showMyContracts cfg chatId store
       ∧ sessions (showMyContracts cfg chatId store) !! chatId
         = Some (mkSession awaiting_address None None None None None None
                   (Some view_contracts)))
    ∧ (CONTRACT_REGISTRY_ADDRESS cfg = ZERO_ADDRESS →
       showMyContracts cfg chatId (<[chatId := old]> store)
       = done (<[chatId := old]> store) [RegistryNotConfigured]).
Proof.
  intros cfg chatId store old. unfold startDeploymentProcess, showMyContracts.
  split; [rewrite delete_insert_eq; reflexivity|].
  split; [cbn [sessions done]; apply lookup_insert_eq|].
  unfold str_eqb. split.
  - intros Hne. rewrite bool_decide_eq_false_2 by exact Hne.
    rewrite delete_insert_eq. split; [reflexivity|].
    cbn [sessions done]. apply lookup_insert_eq.
  - intros Heq. rewrite bool_decide_eq_true_2 by exact Heq. reflexivity.
Qed.

Lemma new_workflow_discards_the_session_witness :
  CONTRACT_REGISTRY_ADDRESS config_with_registry ≠ ZERO_ADDRESS
  ∧ sessions (showMyContracts config_with_registry chat store_awaiting_key) !! chat
    = Some (mkSession awaiting_address None None None None None None
              (Some view_contracts))
  ∧ CONTRACT_REGISTRY_ADDRESS sample_config = ZERO_ADDRESS
  ∧ sessions (showMyContracts sample_config chat store_awaiting_key) !! chat
    = Some session_awaiting_key.
Proof.
  assert (Hne : CONTRACT_REGISTRY_ADDRESS config_with_registry ≠ ZERO_ADDRESS)
    by discriminate.
  assert (Heq : CONTRACT_REGISTRY_ADDRESS sample_config = ZERO_ADDRESS) by reflexivity.
  destruct (new_workflow_discards_the_session config_with_registry chat ∅
              session_awaiting_key) as (_ & _ & Hon & _).
  destruct (new_workflow_discards_the_session sample_config chat ∅
              session_awaiting_key) as (_ & _ & _ & Hoff).
  split; [exact Hne|]. split.
  - destruct (Hon Hne) as [Hsame _].
    change store_awaiting_key with (<[chat := session_awaiting_key]> (∅ : gmap Z Session)).
    rewrite Hsame. reflexivity.
  - split; [exact Heq|].
    change store_awaiting_key with (<[chat := session_awaiting_key]> (∅ : gmap Z Session)).
    rewrite (Hoff Heq). reflexivity.
Defined.

(** X11.  A chat without a session: a message does nothing at all, whatever
    its text; the end of a deployment does nothing; and no selection but
    "start_deploy" gives the chat a session. *)
Theorem without_a_session_nothing_happens :
  ∀ cfg w chatId store,
    store !! chatId = None →
    (∀ text, on_message chatId text store = done store [])
    ∧ deployContract cfg w chatId store = (done store [], NotStarted)
    ∧ (∀ data, data ≠ lit "start_deploy" →
         sessions (on_callback_query cfg chatId data store) !! chatId = None).
Proof.
  intros cfg w chatId store Hnone. split; [|split].
  - intros text. unfold on_message. rewrite Hnone.
    destruct (match text with Some _ => _ | None => _ end); reflexivity.
  - unfold deployContract. rewrite Hnone. reflexivity.
  - intros data Hdata. unfold on_callback_query, handleContractInputType,
      selectNetworkForDeployment, requestPrivateKey, cancelDeployment, useDemoKey,
      requestCustomPrivateKey.
    unfold str_eqb at 1. rewrite bool_decide_eq_false_2 by exact Hdata.
    rewrite Hnone.
    repeat match goal with
           | |- context [if ?b then _ else _] => destruct b
           end;
      cbn [sessions done]; rewrite ?lookup_delete_eq; assumption || reflexivity.
Qed.

Lemma without_a_session_nothing_happens_witness :
  on_message chat (Some text_hex_key) ∅ = done ∅ []
  ∧ sessions (on_callback_query sample_config chat (lit "use_demo_key") ∅) !! chat = None.
Proof.
  destruct (without_a_session_nothing_happens sample_config world_deploying chat ∅
              (lookup_empty chat)) as (Hmsg & _ & Hsel).
  split; [apply Hmsg | apply Hsel; discriminate].
Defined.

(** ** The free-text steps that no claim covers *)

(** X12.  In the step [awaiting_constructor_params] a text is taken exactly
    when it parses as a JSON array: the array becomes the constructor
    parameters and the step [awaiting_contract_name].  Any other text, and a
    message without text, leaves the store as it is. *)
Theorem constructor_params_must_be_an_array :
  ∀ chatId text store session,
    store !! chatId = Some session → step session = awaiting_constructor_params →
    (∀ params, JSON_parse_arg text = inr (JArray params) →
       on_message chatId text store
       = done (<[chatId := set_step awaiting_contract_name
                              (set_constructorParams params session)]> store)
              [ConstructorParamsSet])
    ∧ ((∀ params, JSON_parse_arg text ≠ inr (JArray params)) →
       sessions (on_message chatId text store) = store).
Proof.
  intros chatId text store session Hs Hstep. split.
  - intros params Hp. unfold on_message.
    assert (Hcmd : match text with
                   | Some t => negb (bool_decide (t = [])) && startsWith (lit "/") t
                   | None => false
                   end = false).
    { destruct text as [t|]; [|reflexivity].
      rewrite (JSON_parse_not_command t _ Hp). apply andb_false_r. }
    rewrite Hcmd, Hs, Hstep. unfold handleConstructorParams. rewrite Hs, Hp.
    reflexivity.
  - intros Hno. unfold on_message.
    destruct (match text with Some _ => _ | None => _ end); [reflexivity|].
    rewrite Hs, Hstep. unfold handleConstructorParams. rewrite Hs.
    destruct (JSON_parse_arg text) as [e|[| | | |params|]] eqn:Hp; try reflexivity.
    exfalso. apply (Hno params). reflexivity.
Qed.

Lemma constructor_params_must_be_an_array_witness :
  let store := {[ chat := set_step awaiting_constructor_params session_awaiting_key ]} in
  (constructorParams <$> sessions (on_message chat (Some (json_text "[123,'hello']"))
                                      store) !! chat)
  = Some (Some [JNumber (mkDecimalValue false 123 0); JString (lit "hello")])
  ∧ sessions (on_message chat (Some (lit "123")) store) = store
  ∧ sessions (on_message chat (Some (lit "{}")) store) = store.
Proof.
  intros store.
  assert (Hs : store !! chat
               = Some (set_step awaiting_constructor_params session_awaiting_key))
    by reflexivity.
  split; [|split].
  - destruct (constructor_params_must_be_an_array chat
                (Some (json_text "[123,'hello']")) store _ Hs eq_refl) as [Htaken _].
    rewrite (Htaken [JNumber (mkDecimalValue false 123 0); JString (lit "hello")]
               eq_refl).
    reflexivity.
  - apply (constructor_params_must_be_an_array chat (Some (lit "123")) store _ Hs eq_refl).
    intros params. discriminate.
  - apply (constructor_params_must_be_an_array chat (Some (lit "{}")) store _ Hs eq_refl).
    intros params. discriminate.
Defined.

(** X13.  In the step [awaiting_contract_name] a text is taken exactly when
    it does not start with a slash and, trimmed, has between 1 and 100
    characters: the trimmed text becomes the contract name and the step
    [awaiting_network_selection].  Any other text leaves the store as it
    is; in particular no contract name can start with a slash. *)
Theorem contract_name_is_trimmed_and_bounded :
  ∀ chatId name store session,
    store !! chatId = Some session → step session = awaiting_contract_name →
    (startsWith (lit "/") name = false ∧ (1 ≤ length (trim name) ≤ 100)%nat →
       on_message chatId (Some name) store
       = done (<[chatId := set_step awaiting_network_selection
                              (set_contractName (trim name) session)]> store)
              [ContractNameSet (trim name)])
    ∧ (¬ (startsWith (lit "/") name = false ∧ (1 ≤ length (trim name) ≤ 100)%nat) →
       sessions (on_message chatId (Some name) store) = store).
Proof.
  intros chatId name store session Hs Hstep. unfold on_message. split.
  - intros [Hcmd Hlen]. rewrite Hcmd, andb_false_r, Hs, Hstep.
    unfold handleContractName. rewrite Hs.
    rewrite bool_decide_eq_false_2 by lia. rewrite bool_decide_eq_false_2 by lia.
    reflexivity.
  - intros Hno. destruct (startsWith (lit "/") name) eqn:Hcmd.
    + destruct name; [discriminate Hcmd | reflexivity].
    + rewrite andb_false_r, Hs, Hstep. unfold handleContractName. rewrite Hs.
      destruct (bool_decide (length (trim name) = 0%nat)) eqn:H0; [reflexivity|].
      destruct (bool_decide (100 < length (trim name))%nat) eqn:H100; [reflexivity|].
      exfalso. apply Hno. split; [reflexivity|].
      apply bool_decide_eq_false in H0, H100. lia.
Qed.

Lemma contract_name_is_trimmed_and_bounded_witness :
  let store := {[ chat := set_step awaiting_contract_name session_awaiting_key ]} in
  (contractName <$> sessions (on_message chat (Some (lit "  My Token ")) store) !! chat)
  = Some (Some (lit "My Token"))
  ∧ sessions (on_message chat (Some (lit "   ")) store) = store
  ∧ sessions (on_message chat (Some (lit "/token")) store) = store.
Proof.
  intros store.
  assert (Hs : store !! chat = Some (set_step awaiting_contract_name session_awaiting_key))
    by reflexivity.
  split; [|split].
  - destruct (contract_name_is_trimmed_and_bounded chat (lit "  My Token ") store _
                Hs eq_refl) as [Htaken _].
    rewrite Htaken; [reflexivity|]. split; [reflexivity|]. vm_compute. lia.
  - apply (contract_name_is_trimmed_and_bounded chat (lit "   ") store _ Hs eq_refl).
    intros [_ Hlen]. vm_compute in Hlen. lia.
  - apply (contract_name_is_trimmed_and_bounded chat (lit "/token") store _ Hs eq_refl).
    intros [Hcmd _]. discriminate Hcmd.
Defined.

(** X14.  In the step [awaiting_address] of a lookup session a text is taken
    exactly when it starts with [0x] and has 42 characters: the session is
    removed and the lookup started for that address.  Any other text leaves
    the store as it is and starts nothing. *)
Theorem lookup_address_by_prefix_and_length :
  ∀ chatId address store session,
    store !! chatId = Some session → step session = awaiting_address →
    action session = Some view_contracts →
    (startsWith (lit "0x") address = true ∧ length address = 42%nat →
       on_message chatId (Some address) store
       = mkOutcome (delete chatId store) [] (Some (ViewUserContracts chatId address)) None)
    ∧ (¬ (startsWith (lit "0x") address = true ∧ length address = 42%nat) →
       sessions (on_message chatId (Some address) store) = store
       ∧ started (on_message chatId (Some address) store) = None).
Proof.
  intros chatId address store session Hs Hstep Haction. unfold on_message. split.
  - intros [Hsw Hlen].
    assert (Hslash : startsWith (lit "/") address = false).
    { destruct address as [|c address]; [reflexivity|].
      change (lit "0x") with [48; 120] in Hsw. change (lit "/") with [47].
      cbn [startsWith] in Hsw |- *.
      apply andb_prop in Hsw as [Hc _]. apply N.eqb_eq in Hc as <-. reflexivity. }
    rewrite Hslash, andb_false_r, Hs, Hstep.
    unfold handleAddressForContracts. rewrite Hs, Haction, Hsw.
    rewrite bool_decide_eq_true_2 by assumption. reflexivity.
  - intros Hno.
    destruct (negb (bool_decide (address = [])) && startsWith (lit "/") address);
      [split; reflexivity|].
    rewrite Hs, Hstep. unfold handleAddressForContracts. rewrite Hs, Haction.
    destruct (startsWith (lit "0x") address) eqn:Hsw; cbn [negb orb];
      [|split; reflexivity].
    destruct (bool_decide (length address = 42%nat)) eqn:Hlen; cbn [negb];
      [|split; reflexivity].
    exfalso. apply Hno. apply bool_decide_eq_true in Hlen. split; [reflexivity | assumption].
Qed.

Lemma lookup_address_by_prefix_and_length_witness :
  let store := sessions (showMyContracts config_with_registry chat ∅) in
  on_message chat (Some (lit "0x1234567890abcdef1234567890abcdef12345678")) store
  = mkOutcome (delete chat store) []
      (Some (ViewUserContracts chat (lit "0x1234567890abcdef1234567890abcdef12345678")))
      None
  ∧ sessions (on_message chat (Some (lit "not-an-address")) store) = store.
Proof.
  intros store.
  assert (Hs : store !! chat = Some (mkSession awaiting_address None None None None None
                                       None (Some view_contracts))) by reflexivity.
  destruct (lookup_address_by_prefix_and_length chat
              (lit "0x1234567890abcdef1234567890abcdef12345678") store _ Hs
              eq_refl eq_refl) as [Htaken _].
  destruct (lookup_address_by_prefix_and_length chat (lit "not-an-address") store _ Hs
              eq_refl eq_refl) as [_ Hrejected].
  split.
  - apply Htaken. split; reflexivity.
  - apply Hrejected. intros [Hsw _]. discriminate Hsw.
Defined.

(** ** What every session satisfies *)

Lemma well_formed_new_session : well_formed new_session.
Proof. repeat split; intros; discriminate. Qed.

Lemma well_formed_lookup_session :
  well_formed (mkSession awaiting_address None None None None None None
                 (Some view_contracts)).
Proof. repeat split; intros; discriminate || reflexivity. Qed.

Lemma well_formed_set_step st s :
  well_formed s →
  (st = deploying → is_Some (privateKey s)) →
  (st = awaiting_address → action s = Some view_contracts) →
  (st = awaiting_contract_data → is_Some (contractInputType s)) →
  well_formed (set_step st s).
Proof.
  intros (H1 & H2 & H3 & H4 & _) Hd Ha Hc.
  split; [exact H1|]. split; [exact H2|]. split; [exact H3|]. split; [exact H4|].
  split; [exact Hd|]. split; [exact Ha | exact Hc].
Qed.

Lemma well_formed_set_contractData v s :
  (∃ props, v = JObject props) → well_formed s → well_formed (set_contractData v s).
Proof.
  intros Hv (H1 & H2 & H3 & H4 & H5 & H6 & H7).
  split; [exact H1|]. split; [exact H2|]. split; [exact H3|].
  split; [|split; [exact H5|split; [exact H6|exact H7]]].
  cbn. intros data Hd. injection Hd as <-. exact Hv.
Qed.

Lemma well_formed_set_constructorParams v s :
  well_formed s → well_formed (set_constructorParams v s).
Proof. intros H. exact H. Qed.

Lemma well_formed_set_contractInputType v s :
  well_formed s → well_formed (set_contractInputType v s).
Proof.
  intros (H1 & H2 & H3 & H4 & H5 & H6 & H7).
  split; [exact H1|]. split; [exact H2|]. split; [exact H3|]. split; [exact H4|].
  split; [exact H5|]. split; [exact H6|]. cbn. eauto.
Qed.

Lemma well_formed_set_network v s :
  is_Some (NETWORKS_get (Some v)) → well_formed s → well_formed (set_network v s).
Proof.
  intros Hv (H1 & H2 & H3 & H4 & H5 & H6 & H7).
  split; [exact H1|]. split; [exact H2|].
  split; [|split; [exact H4|split; [exact H5|split; [exact H6|exact H7]]]].
  cbn. intros net Hn. injection Hn as <-. exact Hv.
Qed.

Lemma well_formed_set_privateKey v s :
  startsWith (lit "0x") v = true → length v = 66%nat →
  well_formed s → well_formed (set_privateKey v s).
Proof.
  intros Hsw Hlen (H1 & H2 & H3 & H4 & H5 & H6 & H7).
  split; [|split; [exact H2|split; [exact H3|split; [exact H4|
    split; [|split; [exact H6|exact H7]]]]]].
  - cbn. intros key Hk. injection Hk as <-. split; assumption.
  - cbn. eauto.
Qed.

Lemma well_formed_set_contractName v s :
  (1 ≤ length v ≤ 100)%nat → trim v = v →
  well_formed s → well_formed (set_contractName v s).
Proof.
  intros Hlen Htrim (H1 & H2 & H3 & H4 & H5 & H6 & H7).
  split; [exact H1|].
  split; [|split; [exact H3|split; [exact H4|split; [exact H5|split; [exact H6|exact H7]]]]].
  cbn. intros name Hn. injection Hn as <-. split; assumption.
Qed.

Lemma read_contract_data_object inputType text v :
  read_contract_data inputType text = inr v → ∃ props, v = JObject props.
Proof.
  destruct inputType as [[|]|].
  - intros H. apply read_contract_data_accepts in H as (_ & props & _ & _ & -> & _).
    eauto.
  - cbn. intros H. injection H as <-. eauto.
  - cbn. intros H. injection H as <-. eauto.
Qed.

Lemma demo_key_format cfg key :
  demo_key cfg = Some key → startsWith (lit "0x") key = true ∧ length key = 66%nat.
Proof.
  unfold demo_key. destruct (PRIVATE_KEY cfg) as [k|]; [|discriminate].
  destruct (negb (bool_decide (k = []))); [|discriminate]. cbn [andb].
  destruct (startsWith (lit "0x") k) eqn:Hsw; [|discriminate]. cbn [andb].
  destruct (bool_decide (length k = 66%nat)) eqn:Hlen; [|discriminate].
  intros H. injection H as <-. apply bool_decide_eq_true in Hlen. split; assumption.
Qed.

Ltac same_chat Hs :=
  cbn [sessions done]; rewrite ?lookup_insert_eq, ?lookup_delete_eq, ?Hs;
  intros session' Hnew; try discriminate Hnew;
  injection Hnew as <-.

(** The listener of messages keeps the sessions well-formed. *)
Lemma on_message_well_formed chatId text store old session' :
  store !! chatId = Some old → well_formed old →
  sessions (on_message chatId text store) !! chatId = Some session' →
  well_formed session'.
Proof.
  intros Hs Hold. revert session'. unfold on_message.
  destruct (match text with Some _ => _ | None => _ end);
    [same_chat Hs; exact Hold|].
  rewrite Hs. destruct (step old) eqn:Hstep; try (same_chat Hs; exact Hold).
  - (* handleContractData *)
    intros session'. rewrite (handleContractData_sessions _ _ _ _ Hs).
    destruct (read_contract_data (contractInputType old) text) as [e|v] eqn:Hr;
      [rewrite Hs; intros H; injection H as <-; exact Hold|].
    rewrite lookup_insert_eq. intros H. injection H as <-.
    apply well_formed_set_step; try discriminate.
    apply well_formed_set_contractData; [|exact Hold].
    apply (read_contract_data_object _ _ _ Hr).
  - (* handleConstructorParams *)
    unfold handleConstructorParams. rewrite Hs.
    destruct (JSON_parse_arg text) as [e|[| | | |params|]];
      same_chat Hs; try exact Hold.
    apply well_formed_set_step; try discriminate. exact Hold.
  - (* handleContractName *)
    unfold handleContractName. rewrite Hs. destruct text as [name|];
      [|same_chat Hs; exact Hold].
    destruct (bool_decide (length (trim name) = 0%nat)) eqn:H0;
      [same_chat Hs; exact Hold|].
    destruct (bool_decide (100 < length (trim name))%nat) eqn:H100;
      [same_chat Hs; exact Hold|].
    same_chat Hs. apply bool_decide_eq_false in H0, H100.
    apply well_formed_set_step; try discriminate.
    apply well_formed_set_contractName; [lia | apply trim_idemp | exact Hold].
  - (* handlePrivateKey *)
    unfold handlePrivateKey. rewrite Hs. destruct text as [key|];
      [|same_chat Hs; exact Hold].
    destruct (startsWith (lit "0x") key) eqn:Hsw; cbn [negb orb];
      [|same_chat Hs; exact Hold].
    destruct (bool_decide (length key = 66%nat)) eqn:Hlen; cbn [negb];
      [|same_chat Hs; exact Hold].
    same_chat Hs. apply bool_decide_eq_true in Hlen.
    apply well_formed_set_step; try discriminate; [|cbn; eauto].
    apply well_formed_set_privateKey; assumption.
  - (* handleAddressForContracts *)
    unfold handleAddressForContracts. rewrite Hs.
    destruct (action old) as [[]|]; [|same_chat Hs; exact Hold].
    destruct text as [a|]; [|same_chat Hs; exact Hold].
    destruct (negb (startsWith (lit "0x") a) || negb (bool_decide (length a = 42%nat)));
      same_chat Hs; exact Hold.
Qed.

(** So does the listener of selections. *)
Lemma on_callback_query_well_formed cfg chatId data store session' :
  (∀ old, store !! chatId = Some old → well_formed old) →
  sessions (on_callback_query cfg chatId data store) !! chatId = Some session' →
  well_formed session'.
Proof.
  intros Hold. revert session'. unfold on_callback_query.
  destruct (str_eqb data (lit "start_deploy")).
  { unfold startDeploymentProcess. cbn [sessions done]. rewrite lookup_insert_eq.
    intros session' H. injection H as <-. apply well_formed_new_session. }
  destruct (str_eqb data (lit "show_networks") || str_eqb data (lit "show_help"));
    [cbn [sessions done]; intros session' H; exact (Hold _ H)|].
  destruct (str_eqb data (lit "input_bytecode_abi")).
  { unfold handleContractInputType. destruct (store !! chatId) as [old|] eqn:Hs;
      same_chat Hs.
    apply well_formed_set_step; try discriminate; [|cbn; eauto].
    apply well_formed_set_contractInputType. apply Hold. reflexivity. }
  destruct (str_eqb data (lit "input_solidity")).
  { unfold handleContractInputType. destruct (store !! chatId) as [old|] eqn:Hs;
      same_chat Hs.
    apply well_formed_set_step; try discriminate; [|cbn; eauto].
    apply well_formed_set_contractInputType. apply Hold. reflexivity. }
  destruct (startsWith (lit "network_") data);
    [cbn [sessions done]; intros session' H; exact (Hold _ H)|].
  destruct (startsWith (lit "select_network_") data).
  { unfold selectNetworkForDeployment. destruct (store !! chatId) as [old|] eqn:Hs;
      [|same_chat Hs].
    destruct (NETWORKS_get _) as [info|] eqn:Hnet;
      same_chat Hs; [|apply Hold; reflexivity].
    apply well_formed_set_step; try discriminate.
    apply well_formed_set_network; [rewrite Hnet; eauto | apply Hold; reflexivity]. }
  destruct (str_eqb data (lit "confirm_deploy")).
  { unfold requestPrivateKey. destruct (store !! chatId) as [old|] eqn:Hs;
      same_chat Hs.
    apply well_formed_set_step; try discriminate. apply Hold. reflexivity. }
  destruct (str_eqb data (lit "cancel_deploy")).
  { unfold cancelDeployment. same_chat Hs. }
  destruct (str_eqb data (lit "use_demo_key")).
  { unfold useDemoKey. destruct (store !! chatId) as [old|] eqn:Hs; [|same_chat Hs].
    destruct (demo_key cfg) as [key|] eqn:Hkey; same_chat Hs;
      [|apply Hold; reflexivity].
    destruct (demo_key_format _ _ Hkey) as [Hsw Hlen].
    apply well_formed_set_step; try discriminate; [|cbn; eauto].
    apply well_formed_set_privateKey; [assumption..|apply Hold; reflexivity]. }
  destruct (str_eqb data (lit "enter_own_key")).
  { unfold requestCustomPrivateKey. destruct (store !! chatId) as [old|] eqn:Hs;
      same_chat Hs.
    apply well_formed_set_step; try discriminate. apply Hold. reflexivity. }
  cbn [sessions done]. intros session' H. exact (Hold _ H).
Qed.

Lemma react_well_formed cfg ev store :
  (∀ chatId session, store !! chatId = Some session → well_formed session) →
  ∀ chatId session,
    sessions (react cfg ev store) !! chatId = Some session → well_formed session.
Proof.
  intros Hall chatId session.
  destruct (decide (chatId = event_chat ev)) as [->|Hne];
    [|rewrite (react_other cfg ev store chatId Hne); apply Hall].
  destruct ev as [c|c|c data|c text|c w]; cbn [event_chat react].
  - unfold startDeploymentProcess. cbn [sessions done]. rewrite lookup_insert_eq.
    intros H. injection H as <-. apply well_formed_new_session.
  - unfold showMyContracts. destruct (str_eqb _ _); cbn [sessions done];
      [apply Hall|].
    rewrite lookup_insert_eq. intros H. injection H as <-.
    apply well_formed_lookup_session.
  - apply on_callback_query_well_formed. intros old. apply Hall.
  - destruct (store !! c) as [old|] eqn:Hs.
    + apply (on_message_well_formed c text store old session Hs (Hall _ _ Hs)).
    + unfold on_message. rewrite Hs.
      destruct (match text with Some _ => _ | None => _ end);
        cbn [sessions done]; rewrite Hs; discriminate.
  - unfold deployContract. destruct (store !! c) as [old|] eqn:Hs;
      [|cbn [fst sessions done]; rewrite Hs; discriminate].
    destruct (NETWORKS_get (network old));
      [destruct (deploy_steps cfg w old n) as [out [e|d]]|];
      cbn [fst sessions done]; rewrite lookup_delete_eq; discriminate.
Qed.

(** X15.  Every session of a reachable store is well-formed: a signing key,
    once set, starts with [0x] and has 66 characters; a contract name is
    trimmed and has between 1 and 100 characters; a network is a name the
    table of networks has something under, an entry of its own or a member
    it inherits; the contract data is an object; the step [deploying]
    has a signing key; the step [awaiting_address] belongs to a lookup
    session; and the step [awaiting_contract_data] has an input kind. *)
Theorem sessions_are_well_formed :
  ∀ cfg store chatId session,
    reachable cfg store → store !! chatId = Some session → well_formed session.
Proof.
  intros cfg store chatId session Hreach. revert chatId session.
  induction Hreach as [|ev store _ IH].
  - intros chatId session H. rewrite lookup_empty in H. discriminate.
  - apply react_well_formed. exact IH.
Qed.

Lemma sessions_are_well_formed_witness :
  reachable sample_config
    (play sample_config
       [DeployCommand chat; Selection chat (lit "confirm_deploy");
        Selection chat (lit "use_demo_key")] ∅)
  ∧ ∃ session,
      play sample_config
        [DeployCommand chat; Selection chat (lit "confirm_deploy");
         Selection chat (lit "use_demo_key")] ∅ !! chat = Some session
      ∧ step session = deploying ∧ well_formed session.
Proof.
  assert (Hreach : reachable sample_config
            (play sample_config
               [DeployCommand chat; Selection chat (lit "confirm_deploy");
                Selection chat (lit "use_demo_key")] ∅)).
  { cbn [play]. do 3 apply reachable_react. apply reachable_start. }
  split; [exact Hreach|].
  eexists. split; [reflexivity|]. split; [reflexivity|].
  apply (sessions_are_well_formed sample_config _ chat _ Hreach). reflexivity.
Defined.

(** ** Deployments *)

Lemma try_bind_inr {A B} (m : Try A) (k : A → Try B) out b :
  try_bind m k = (out, inr b) →
  ∃ out1 a out2, m = (out1, inr a) ∧ k a = (out2, inr b) ∧ out = out1 ++ out2.
Proof.
  unfold try_bind. destruct m as [out1 [e|a]]; [discriminate|].
  destruct (k a) as [out2 r] eqn:Hk. intros H. injection H as <- ->.
  exists out1, a, out2. split; [reflexivity|]. split; [exact Hk | reflexivity].
Qed.

(** A deployment that succeeds says so last. *)
Lemma deploy_steps_last cfg w session netInfo out d :
  deploy_steps cfg w session netInfo = (out, inr d) →
  last out
  = Some (DeployedSuccessfully d
            (negb (str_eqb (CONTRACT_REGISTRY_ADDRESS cfg) ZERO_ADDRESS))).
Proof.
  unfold deploy_steps. intros H.
  repeat (let o1 := fresh "o" in let o2 := fresh "o" in let a := fresh "a" in
          let H1 := fresh "H" in
          apply try_bind_inr in H as (o1 & a & o2 & H1 & H & ->)).
  unfold call in H. injection H as <- <-.
  unfold send in *.
  match goal with
  | Hs : ([DeployedSuccessfully _ _], inr ()) = (?o, inr _) |- _ =>
      injection Hs as <-
  end.
  rewrite !app_assoc, app_nil_r. apply last_snoc.
Qed.

(** X16.  A deployment always ends the session: once [deployContract] has
    run for a chat that had a session, the chat has none, with every field of
    it, the signing key included, gone.  And it always tells the chat how it
    ended: the last message is the success message with the result, the
    failure message with the error and the kind its message gives it, or,
    when the table of networks has nothing under the network of the session
    (not even an inherited member), the configuration error alone. *)
Theorem deployment_ends_the_session :
  ∀ cfg w chatId store session,
    store !! chatId = Some session →
    sessions (deployContract cfg w chatId store).1 !! chatId = None
    ∧ match (deployContract cfg w chatId store).2 with
      | Succeeded d =>
          last (sent (deployContract cfg w chatId store).1)
          = Some (DeployedSuccessfully d
                    (negb (str_eqb (CONTRACT_REGISTRY_ADDRESS cfg) ZERO_ADDRESS)))
      | Failed kind e =>
          last (sent (deployContract cfg w chatId store).1)
          = Some (DeploymentFailed kind e) ∧ kind = classify (engine_message w) e
      | NotStarted =>
          sent (deployContract cfg w chatId store).1 = [NetworkConfigurationError]
          ∧ NETWORKS_get (network session) = None
      end.
Proof.
  intros cfg w chatId store session Hs. unfold deployContract. rewrite Hs.
  destruct (NETWORKS_get (network session)) as [netInfo|].
  - destruct (deploy_steps cfg w session netInfo) as [out [e|d]] eqn:Hd;
      cbn [fst snd sessions sent done].
    + split; [apply lookup_delete_eq|]. split; [apply last_snoc | reflexivity].
    + split; [apply lookup_delete_eq|]. apply (deploy_steps_last _ _ _ _ _ _ Hd).
  - cbn [fst snd sessions sent done]. split; [apply lookup_delete_eq|].
    split; reflexivity.
Qed.

Lemma deployment_ends_the_session_witness :
  store_deploying !! chat
  = Some (set_step deploying (set_privateKey text_hex_key session_awaiting_key))
  ∧ sessions (deployContract config_with_registry world_deploying chat store_deploying).1
      !! chat = None
  ∧ sessions (deployContract config_with_registry (offline (λ _, inl TypeError)) chat
                store_deploying).1 !! chat = None.
Proof.
  assert (Hs : store_deploying !! chat
               = Some (set_step deploying
                         (set_privateKey text_hex_key session_awaiting_key)))
    by reflexivity.
  split; [exact Hs|]. split.
  - exact (proj1 (deployment_ends_the_session config_with_registry world_deploying
                    chat store_deploying _ Hs)).
  - exact (proj1 (deployment_ends_the_session config_with_registry
                    (offline (λ _, inl TypeError)) chat store_deploying _ Hs)).
Defined.

(** The message of a wrapped error starts with the words it was wrapped
    in. *)
Lemma message_of_quoting wording prefix cause :
  message_of wording (quoting prefix cause) = lit prefix ++ message_of wording cause.
Proof. destruct cause; reflexivity. Qed.

Lemma wrapped_failure_says_so wording cause :
  message_includes wording "Solidity compilation failed:"
    (quoting "Solidity compilation failed: " cause) = true.
Proof.
  unfold message_includes. rewrite message_of_quoting.
  change (lit "Solidity compilation failed: ")
    with (lit "Solidity compilation failed:" ++ [32]).
  rewrite <- app_assoc. apply includes_prefix.
Qed.

(** X17.  Whatever [compileSolidity] throws, the [catch] block of
    [deployContract] reports it as a compilation error: the error is either
    the list of the compiler's errors or a failure wrapped as "Solidity
    compilation failed", never one of the chain errors. *)
Theorem compile_failures_are_reported_as_such :
  ∀ w sourceCode e,
    compileSolidity w sourceCode = inl e →
    classify (engine_message w) e = CompilationError
    ∨ classify (engine_message w) e = CompilationFailure.
Proof.
  intros w sourceCode e. unfold compileSolidity, try_catch.
  destruct (solc_compile w sourceCode ≫= _) as [e0|c]; [|discriminate].
  unfold compile_catch.
  destruct (message_includes (engine_message w) "Compilation errors:" e0) eqn:Hm.
  - intros H. injection H as <-. left. unfold classify. rewrite Hm. reflexivity.
  - intros H. injection H as <-. unfold classify.
    destruct (message_includes _ "Compilation errors:" (quoting _ e0));
      [left; reflexivity|].
    right. rewrite wrapped_failure_says_so. reflexivity.
Qed.

Lemma compile_failures_are_reported_as_such_witness :
  compileSolidity (offline (λ _, inr (lit "not json"))) (Some (JString (lit "x")))
  = inl (ErrorQuoting "Solidity compilation failed: " SyntaxError)
  ∧ classify (engine_message (offline (λ _, inr (lit "not json"))))
      (ErrorQuoting "Solidity compilation failed: " SyntaxError)
    = CompilationFailure.
Proof.
  assert (H : compileSolidity (offline (λ _, inr (lit "not json")))
                (Some (JString (lit "x")))
              = inl (ErrorQuoting "Solidity compilation failed: " SyntaxError))
    by (vm_compute; reflexivity).
  split; [exact H|].
  destruct (compile_failures_are_reported_as_such _ _ _ H) as [Hc|Hc];
    [vm_compute in Hc; discriminate Hc | exact Hc].
Defined.

(** X18.  Whatever the compiler answers, the bytecode [compileSolidity]
    returns starts with [0x]. *)
Theorem compiled_bytecode_has_the_prefix :
  ∀ w sourceCode c,
    compileSolidity w sourceCode = inr c → startsWith (lit "0x") (bytecode c) = true.
Proof.
  intros w sourceCode c. unfold compileSolidity, try_catch.
  destruct (solc_compile w sourceCode) as [e|text]; cbn [mbind exn_bind];
    [discriminate|].
  destruct (JSON_parse text) as [e|output]; cbn [mbind exn_bind]; [discriminate|].
  destruct (check_output output) as [e|c0] eqn:Hc; [discriminate|].
  intros H. injection H as <-. revert Hc. unfold check_output, mbind, exn_bind.
  repeat match goal with
         | |- context [match ?x with _ => _ end] => destruct x
         end;
    intros H; try discriminate H; injection H as <-; reflexivity.
Qed.

Lemma compiled_bytecode_has_the_prefix_witness :
  ∃ c, compileSolidity world_prefixed (Some (JString (lit "contract C {}"))) = inr c
    ∧ startsWith (lit "0x") (bytecode c) = true.
Proof.
  eexists. split; [vm_compute; reflexivity|].
  apply (compiled_bytecode_has_the_prefix world_prefixed
           (Some (JString (lit "contract C {}")))).
  vm_compute. reflexivity.
Defined.

Lemma try_bind_Forall {A B} (P : Reply → Prop) (m : Try A) (k : A → Try B) :
  Forall P m.1 → (∀ a, Forall P (k a).1) → Forall P (try_bind m k).1.
Proof.
  unfold try_bind. destruct m as [out [e|a]]; cbn [fst]; intros Hm Hk; [exact Hm|].
  specialize (Hk a). destruct (k a) as [out' r]. cbn [fst] in *.
  apply Forall_app. split; assumption.
Qed.

Ltac quiet_step :=
  first [ apply try_bind_Forall; [|intros ?]
        | (unfold call; cbn [fst]; solve [constructor])
        | (unfold send; cbn [fst]; constructor;
           [let H := fresh in intros H; discriminate H | constructor])
        | match goal with
          | |- context [contractInputType ?s] =>
              destruct (contractInputType s) as [[]|]
          end ].

(** With no registry configured, the steps of a deployment send no
    "registering" message, and their result has no registry transaction. *)
Lemma deploy_steps_without_registry cfg w session netInfo :
  CONTRACT_REGISTRY_ADDRESS cfg = ZERO_ADDRESS →
  Forall (λ r, r ≠ RegisteringWithRegistry) (deploy_steps cfg w session netInfo).1
  ∧ (∀ out d, deploy_steps cfg w session netInfo = (out, inr d) →
       dep_registryTxHash d = None).
Proof.
  intros Hzero.
  assert (Hoff : str_eqb (CONTRACT_REGISTRY_ADDRESS cfg) ZERO_ADDRESS = true)
    by (rewrite Hzero; apply str_eqb_refl).
  unfold deploy_steps. rewrite Hoff. cbn [negb]. split.
  - repeat quiet_step.
  - intros out d H.
    repeat (let o1 := fresh "o" in let o2 := fresh "o" in let a := fresh "a" in
            let H1 := fresh "H" in
            apply try_bind_inr in H as (o1 & a & o2 & H1 & H & ->)).
    unfold call in *. injection H as <- <-.
    match goal with
    | Hr : ([], inr None) = (_, inr ?a) |- _ => injection Hr as <- <-
    end.
    reflexivity.
Qed.

(** X19.  Without a configured registry a deployment does not go near one:
    it runs the same whatever the registry would answer, never sends the
    "registering" message, and reports no registry transaction. *)
Theorem no_registry_no_registration :
  ∀ cfg w contract register wait chatId store,
    CONTRACT_REGISTRY_ADDRESS cfg = ZERO_ADDRESS →
    deployContract cfg (with_registry w contract register wait) chatId store
    = deployContract cfg w chatId store
    ∧ (RegisteringWithRegistry ∉ sent (deployContract cfg w chatId store).1)
    ∧ (∀ d, (deployContract cfg w chatId store).2 = Succeeded d →
         dep_registryTxHash d = None).
Proof.
  intros cfg w contract register wait chatId store Hzero.
  assert (Hoff : str_eqb (CONTRACT_REGISTRY_ADDRESS cfg) ZERO_ADDRESS = true)
    by (rewrite Hzero; apply str_eqb_refl).
  split; [|split].
  - unfold deployContract, deploy_steps. rewrite Hoff. reflexivity.
  - unfold deployContract. destruct (store !! chatId) as [session|];
      [|apply not_elem_of_nil].
    destruct (NETWORKS_get (network session)) as [netInfo|];
      [|cbn [fst sent done]; intros Hin; apply list_elem_of_singleton in Hin;
        discriminate Hin].
    destruct (deploy_steps_without_registry cfg w session netInfo Hzero) as [Hall _].
    destruct (deploy_steps cfg w session netInfo) as [out [e|d]];
      cbn [fst sent done] in *; intros Hin.
    + apply elem_of_app in Hin as [Hin|Hin].
      * rewrite Forall_forall in Hall. exact (Hall _ Hin eq_refl).
      * apply list_elem_of_singleton in Hin. discriminate Hin.
    + rewrite Forall_forall in Hall. exact (Hall _ Hin eq_refl).
  - unfold deployContract. destruct (store !! chatId) as [session|];
      [|discriminate].
    destruct (NETWORKS_get (network session)) as [netInfo|]; [|discriminate].
    destruct (deploy_steps_without_registry cfg w session netInfo Hzero) as [_ Hnone].
    destruct (deploy_steps cfg w session netInfo) as [out [e|d]];
      cbn [snd]; intros d' H; [discriminate H|].
    injection H as <-. exact (Hnone out d eq_refl).
Qed.

Lemma no_registry_no_registration_witness :
  CONTRACT_REGISTRY_ADDRESS sample_config = ZERO_ADDRESS
  ∧ ∃ d, (deployContract sample_config world_deploying chat store_deploying).2
         = Succeeded d
       ∧ dep_registryTxHash d = None.
Proof.
  assert (Hzero : CONTRACT_REGISTRY_ADDRESS sample_config = ZERO_ADDRESS) by reflexivity.
  split; [exact Hzero|]. eexists. split; [reflexivity|].
  destruct (no_registry_no_registration sample_config world_deploying
              (new_Contract world_deploying) (registry_registerContract world_deploying)
              (tx_wait world_deploying) chat store_deploying Hzero) as (_ & _ & Hnone).
  apply Hnone. reflexivity.
Defined.

(** ** The signing key *)

(** X20.  The demo key is offered exactly when it can be used: for a chat
    with a session, the key prompt offers the demo key if and only if
    choosing it starts the deployment, and then the key of the session is the
    configured one.  A demo key that is unset, or does not start with [0x],
    or has not 66 characters, is neither offered nor used. *)
Theorem demo_key_offered_iff_usable :
  ∀ cfg chatId store session,
    store !! chatId = Some session →
    (sent (requestPrivateKey cfg chatId store) = [PrivateKeyRequired true]
     ↔ started (useDemoKey cfg chatId store) = Some (DeployContract chatId))
    ∧ (started (useDemoKey cfg chatId store) = Some (DeployContract chatId) →
       ∃ key, PRIVATE_KEY cfg = Some key
         ∧ startsWith (lit "0x") key = true ∧ length key = 66%nat
         ∧ sessions (useDemoKey cfg chatId store) !! chatId
           = Some (set_step deploying (set_privateKey key session)))
    ∧ (started (useDemoKey cfg chatId store) ≠ Some (DeployContract chatId) →
       useDemoKey cfg chatId store = done store [DemoKeyNotConfigured]).
Proof.
  intros cfg chatId store session Hs. unfold requestPrivateKey, useDemoKey.
  rewrite Hs. destruct (demo_key cfg) as [key|] eqn:Hkey; cbn [sent started done].
  - split; [split; reflexivity|]. split; [|intros H; contradiction].
    intros _. exists key. destruct (demo_key_format _ _ Hkey) as [Hsw Hlen].
    split; [|split; [exact Hsw|split; [exact Hlen|apply lookup_insert_eq]]].
    unfold demo_key in Hkey. destruct (PRIVATE_KEY cfg) as [k|]; [|discriminate].
    destruct (_ && _); [|discriminate]. congruence.
  - split; [split; discriminate|]. split; [discriminate | reflexivity].
Qed.

Lemma demo_key_offered_iff_usable_witness :
  store_awaiting_key !! chat = Some session_awaiting_key
  ∧ started (useDemoKey sample_config chat store_awaiting_key)
    = Some (DeployContract chat)
  ∧ useDemoKey config_with_registry chat store_awaiting_key
    = done store_awaiting_key [DemoKeyNotConfigured].
Proof.
  assert (Hs : store_awaiting_key !! chat = Some session_awaiting_key) by reflexivity.
  split; [exact Hs|]. split.
  - apply (demo_key_offered_iff_usable sample_config chat _ _ Hs). reflexivity.
  - apply (demo_key_offered_iff_usable config_with_registry chat _ _ Hs). discriminate.
Defined.

(** The acknowledgement shows six characters of a key at the front and
    four at the end and nothing in between. *)
Lemma mask_hides_the_middle front middle1 middle2 back :
  length front = 6%nat → length back = 4%nat →
  mask (front ++ middle1 ++ back) = mask (front ++ middle2 ++ back).
Proof.
  intros Hf Hb.
  assert (Ht : ∀ middle, take 6 (front ++ middle ++ back) = front).
  { intros middle. rewrite <- Hf. apply take_app_length. }
  assert (Hd : ∀ middle,
             drop (length (front ++ middle ++ back) - 4) (front ++ middle ++ back) = back).
  { intros middle. rewrite app_assoc.
    replace (length ((front ++ middle) ++ back) - 4)%nat with (length (front ++ middle))
      by (rewrite (length_app (_ ++ _) back), Hb; lia).
    apply drop_app_length. }
  unfold mask. rewrite !Ht, !Hd. reflexivity.
Qed.

(** What [handlePrivateKey] itself does with two keys that differ in the
    middle only: the same, but for the key it puts in the session. *)
Lemma keys_alike_to_the_handler chatId store session front middle1 middle2 back :
  store !! chatId = Some session → step session = awaiting_private_key →
  length front = 6%nat → length back = 4%nat → length middle1 = length middle2 →
  (on_message chatId (Some (front ++ middle1 ++ back)) store
   = on_message chatId (Some (front ++ middle2 ++ back)) store)
  ∨ (on_message chatId (Some (front ++ middle1 ++ back)) store
     = mkOutcome
         (<[chatId := set_step deploying
                        (set_privateKey (front ++ middle1 ++ back) session)]> store)
         [PrivateKeyReceived (mask (front ++ middle1 ++ back))]
         (Some (DeployContract chatId)) None
     ∧ on_message chatId (Some (front ++ middle2 ++ back)) store
       = mkOutcome
           (<[chatId := set_step deploying
                          (set_privateKey (front ++ middle2 ++ back) session)]> store)
           [PrivateKeyReceived (mask (front ++ middle1 ++ back))]
           (Some (DeployContract chatId)) None).
Proof.
  intros Hs Hstep Hf Hb Hm.
  pose proof (mask_hides_the_middle front middle1 middle2 back Hf Hb) as Hmask.
  destruct front as [|f1 [|f2 [|f3 [|f4 [|f5 [|f6 [|]]]]]]]; try discriminate Hf.
  assert (Hlen : length ([f1; f2; f3; f4; f5; f6] ++ middle1 ++ back)
                 = length ([f1; f2; f3; f4; f5; f6] ++ middle2 ++ back))
    by (rewrite !length_app; lia).
  assert (Hslash : startsWith (lit "/") ([f1; f2; f3; f4; f5; f6] ++ middle1 ++ back)
                   = startsWith (lit "/") ([f1; f2; f3; f4; f5; f6] ++ middle2 ++ back))
    by reflexivity.
  assert (H0x : startsWith (lit "0x") ([f1; f2; f3; f4; f5; f6] ++ middle1 ++ back)
                = startsWith (lit "0x") ([f1; f2; f3; f4; f5; f6] ++ middle2 ++ back))
    by reflexivity.
  assert (Hne1 : [f1; f2; f3; f4; f5; f6] ++ middle1 ++ back ≠ []) by discriminate.
  assert (Hne2 : [f1; f2; f3; f4; f5; f6] ++ middle2 ++ back ≠ []) by discriminate.
  remember ([f1; f2; f3; f4; f5; f6] ++ middle1 ++ back) as key1 eqn:E1.
  remember ([f1; f2; f3; f4; f5; f6] ++ middle2 ++ back) as key2 eqn:E2.
  clear E1 E2. unfold on_message. cbn beta iota.
  rewrite !bool_decide_eq_false_2 by assumption. rewrite Hslash.
  destruct (negb _ && _); [left; reflexivity|].
  rewrite Hs, Hstep. unfold handlePrivateKey. rewrite Hs, H0x, Hlen, Hmask.
  destruct (_ || _); [left; reflexivity|]. right. split; reflexivity.
Qed.

(** The key of the session reaches a deployment in one place, the making of
    the wallet. *)
Lemma deployContract_reads_the_key_for_the_wallet cfg w chatId store session key1 key2 :
  (∀ provider, new_Wallet w (Some key1) provider = new_Wallet w (Some key2) provider) →
  deployContract cfg w chatId (<[chatId := set_privateKey key1 session]> store)
  = deployContract cfg w chatId (<[chatId := set_privateKey key2 session]> store).
Proof.
  intros Hwallet. unfold deployContract. rewrite !lookup_insert_eq.
  cbn [network set_privateKey]. rewrite !delete_insert_eq.
  destruct (NETWORKS_get (network session)) as [netInfo|]; [|reflexivity].
  assert (Hsteps : deploy_steps cfg w (set_privateKey key1 session) netInfo
                   = deploy_steps cfg w (set_privateKey key2 session) netInfo).
  { unfold deploy_steps, try_bind, call.
    destruct (new_JsonRpcProvider w (rpcUrl netInfo)) as [e|provider]; [reflexivity|].
    cbn [privateKey set_privateKey]. rewrite (Hwallet provider). reflexivity. }
  rewrite Hsteps. reflexivity.
Qed.

(** X21.  The bot's own text shows six characters of a key at the front and
    four at the end and nothing in between.  Two keys of the same length that
    agree there get the same acknowledgement from [handlePrivateKey] and
    start the same task; and the key bears on the rest of the run, the
    deployment, only through what the library returns when the wallet is
    made: where that is the same for both keys, so is the whole deployment.
    What more of a key reaches the chat can only be what the library makes of
    it, as in the message of an error, which the failure message prints. *)
Theorem key_is_masked_in_the_reply :
  ∀ cfg w chatId store session front middle1 middle2 back,
    store !! chatId = Some session → step session = awaiting_private_key →
    length front = 6%nat → length back = 4%nat → length middle1 = length middle2 →
    let key1 := front ++ middle1 ++ back in
    let key2 := front ++ middle2 ++ back in
    sent (on_message chatId (Some key1) store) = sent (on_message chatId (Some key2) store)
    ∧ started (on_message chatId (Some key1) store)
      = started (on_message chatId (Some key2) store)
    ∧ ((∀ provider, new_Wallet w (Some key1) provider = new_Wallet w (Some key2) provider) →
       deployContract cfg w chatId (sessions (on_message chatId (Some key1) store))
       = deployContract cfg w chatId (sessions (on_message chatId (Some key2) store))).
Proof.
  intros cfg w chatId store session front middle1 middle2 back Hs Hstep Hf Hb Hm.
  cbn zeta.
  destruct (keys_alike_to_the_handler chatId store session front middle1 middle2 back
              Hs Hstep Hf Hb Hm) as [-> | [-> ->]].
  - split; [reflexivity|]. split; reflexivity.
  - split; [reflexivity|]. split; [reflexivity|].
    intros Hwallet. cbn [sessions].
    change (set_step deploying (set_privateKey ?k session))
      with (set_privateKey k (set_step deploying session)).
    apply deployContract_reads_the_key_for_the_wallet. exact Hwallet.
Qed.

Lemma key_is_masked_in_the_reply_witness :
  sent (on_message chat (Some (lit "0x1111" ++ replicate 56 49 ++ lit "1111"))
          store_awaiting_key)
  = sent (on_message chat (Some (lit "0x1111" ++ replicate 56 50 ++ lit "1111"))
            store_awaiting_key)
  ∧ deployContract sample_config world_deploying chat
      (sessions (on_message chat (Some (lit "0x1111" ++ replicate 56 49 ++ lit "1111"))
                   store_awaiting_key))
    = deployContract sample_config world_deploying chat
        (sessions (on_message chat (Some (lit "0x1111" ++ replicate 56 50 ++ lit "1111"))
                     store_awaiting_key)).
Proof.
  destruct (key_is_masked_in_the_reply sample_config world_deploying chat
              store_awaiting_key session_awaiting_key
              (lit "0x1111") (replicate 56 49) (replicate 56 50) (lit "1111")
              eq_refl eq_refl eq_refl eq_refl eq_refl) as (Hsent & _ & Hrun).
  split; [exact Hsent|]. apply Hrun. intros provider. reflexivity.
Defined.

(** ** A whole dialogue *)

Lemma select_network_dispatch cfg chatId net store :
  on_callback_query cfg chatId (lit "select_network_" ++ net) store
  = selectNetworkForDeployment chatId net store.
Proof. reflexivity. Qed.

Lemma on_message_step chatId text store session :
  startsWith (lit "/") text = false → store !! chatId = Some session →
  on_message chatId (Some text) store
  = match step session with
    | awaiting_contract_data => handleContractData chatId (Some text) store
    | awaiting_constructor_params => handleConstructorParams chatId (Some text) store
    | awaiting_contract_name => handleContractName chatId (Some text) store
    | awaiting_private_key => handlePrivateKey chatId (Some text) store
    | awaiting_address => handleAddressForContracts chatId (Some text) store
    | _ => done store []
    end.
Proof.
  intros Ht Hs. unfold on_message. rewrite Ht, andb_false_r, Hs. reflexivity.
Qed.

Lemma key_not_a_command key :
  startsWith (lit "0x") key = true → startsWith (lit "/") key = false.
Proof.
  destruct key as [|c r]; [discriminate|].
  change (lit "0x") with [48; 120]. change (lit "/") with [47]. cbn [startsWith].
  destruct (N.eqb_spec 48 c) as [<-|]; [reflexivity | discriminate].
Qed.

(** The dialogue up to the key. *)
Lemma dialogue_before_the_key cfg chatId store artifact data params ps name net netInfo
    key :
  read_contract_data (Some bytecode_abi) (Some artifact) = inr data →
  JSON_parse params = inr (JArray ps) →
  startsWith (lit "/") name = false →
  (1 ≤ length (trim name) ≤ 100)%nat →
  NETWORKS_get (Some net) = Some netInfo →
  play cfg (take 8 (deployment_dialogue chatId artifact params name net key)) store
  = <[chatId := mkSession awaiting_private_key (Some data) (Some ps) (Some net) None
                  (Some bytecode_abi) (Some (trim name)) None]> (delete chatId store).
Proof.
  intros Hdata Hparams Hname Hlen Hnet.
  assert (Hartifact : startsWith (lit "/") artifact = false).
  { unfold read_contract_data, JSON_parse_arg, mbind, exn_bind in Hdata.
    cbn [default id] in Hdata.
    destruct (JSON_parse artifact) as [e|v] eqn:Hp;
      [|exact (JSON_parse_not_command _ _ Hp)].
    discriminate Hdata. }
  pose proof (JSON_parse_not_command _ _ Hparams) as Hparams_text.
  unfold deployment_dialogue. cbn [take play react].
  unfold startDeploymentProcess. cbn [sessions done].
  change (on_callback_query cfg chatId (lit "input_bytecode_abi") ?s)
    with (handleContractInputType chatId bytecode_abi s).
  unfold handleContractInputType at 1. rewrite lookup_insert_eq.
  cbn [sessions done]. rewrite insert_insert_eq.
  rewrite (on_message_step _ _ _ _ Hartifact (lookup_insert_eq _ _ _)).
  cbn [step set_step].
  rewrite (handleContractData_sessions _ _ _ _ (lookup_insert_eq _ _ _)).
  cbn [contractInputType set_step set_contractInputType]. rewrite Hdata, insert_insert_eq.
  rewrite (on_message_step _ _ _ _ Hparams_text (lookup_insert_eq _ _ _)).
  cbn [step set_step]. unfold handleConstructorParams, JSON_parse_arg.
  rewrite lookup_insert_eq. cbn [default from_option id]. rewrite Hparams.
  cbn [sessions done]. rewrite insert_insert_eq.
  rewrite (on_message_step _ _ _ _ Hname (lookup_insert_eq _ _ _)).
  cbn [step set_step]. unfold handleContractName. rewrite lookup_insert_eq.
  rewrite (bool_decide_eq_false_2 (length (trim name) = 0%nat)) by lia.
  rewrite (bool_decide_eq_false_2 (100 < length (trim name))%nat) by lia.
  cbn [sessions done]. rewrite insert_insert_eq.
  rewrite select_network_dispatch. unfold selectNetworkForDeployment.
  rewrite lookup_insert_eq, Hnet. cbn [sessions done]. rewrite insert_insert_eq.
  change (on_callback_query cfg chatId (lit "confirm_deploy") ?s)
    with (requestPrivateKey cfg chatId s).
  unfold requestPrivateKey. rewrite lookup_insert_eq.
  cbn [sessions done]. rewrite insert_insert_eq.
  change (on_callback_query cfg chatId (lit "enter_own_key") ?s)
    with (requestCustomPrivateKey chatId s).
  unfold requestCustomPrivateKey. rewrite lookup_insert_eq.
  cbn [sessions done]. rewrite insert_insert_eq. reflexivity.
Qed.

(** The message listener on a key of the expected format. *)
Lemma key_message_outcome chatId key store session :
  store !! chatId = Some session → step session = awaiting_private_key →
  startsWith (lit "0x") key = true → length key = 66%nat →
  on_message chatId (Some key) store
  = mkOutcome (<[chatId := set_step deploying (set_privateKey key session)]> store)
      [PrivateKeyReceived (mask key)] (Some (DeployContract chatId)) None.
Proof.
  intros Hs Hstep Hkey Hkeylen.
  rewrite (on_message_step _ _ _ _ (key_not_a_command _ Hkey) Hs), Hstep.
  unfold handlePrivateKey. rewrite Hs, Hkey.
  rewrite (bool_decide_eq_true_2 (length key = 66%nat)) by exact Hkeylen.
  reflexivity.
Qed.

(** X22.  The dialogue of a deployment from bytecode and interface, as
    the listeners run on it (no text of it matching a command pattern),
    collects what the user sends, whatever session the chat had before.  An
    artifact the bot accepts, a parameter text that parses to an array, a
    name that is no command and has 1 to 100 characters once trimmed, a
    network the table has something under and a key of the expected format
    bring the chat to the call of [deployContract], in the run of the
    listener on the key, with exactly these in its session, the name
    trimmed.  The deployment works on this session and, however it ends,
    leaves the chat without a session and every other chat as it was before
    the dialogue. *)
Theorem dialogue_collects_the_deployment :
  ∀ cfg chatId store artifact data params ps name net netInfo key,
    read_contract_data (Some bytecode_abi) (Some artifact) = inr data →
    JSON_parse params = inr (JArray ps) →
    startsWith (lit "/") name = false →
    (1 ≤ length (trim name) ≤ 100)%nat →
    NETWORKS_get (Some net) = Some netInfo →
    startsWith (lit "0x") key = true → length key = 66%nat →
    let dialogue := deployment_dialogue chatId artifact params name net key in
    let collected :=
      mkSession deploying (Some data) (Some ps) (Some net) (Some key)
        (Some bytecode_abi) (Some (trim name)) None in
    play cfg dialogue store = <[chatId := collected]> (delete chatId store)
    ∧ started (react cfg (Message chatId (Some key)) (play cfg (take 8 dialogue) store))
      = Some (DeployContract chatId)
    ∧ ∀ w,
        deployContract cfg w chatId (play cfg dialogue store)
        = match deploy_steps cfg w collected netInfo with
          | (out, inr d) => (done (delete chatId store) out, Succeeded d)
          | (out, inl e) =>
              (done (delete chatId store)
                 (out ++ [DeploymentFailed (classify (engine_message w) e) e]),
               Failed (classify (engine_message w) e) e)
          end.
Proof.
  intros cfg chatId store artifact data params ps name net netInfo key
    Hdata Hparams Hname Hlen Hnet Hkey Hkeylen. cbn zeta.
  pose proof (dialogue_before_the_key cfg chatId store artifact data params ps name net
                netInfo key Hdata Hparams Hname Hlen Hnet) as Hbefore.
  assert (Hplay : play cfg (deployment_dialogue chatId artifact params name net key) store
                  = sessions (react cfg (Message chatId (Some key))
                                (play cfg (take 8 (deployment_dialogue chatId artifact
                                                     params name net key)) store)))
    by reflexivity.
  rewrite Hplay, Hbefore. cbn [react].
  rewrite (key_message_outcome chatId key
             (<[chatId := mkSession awaiting_private_key (Some data) (Some ps) (Some net)
                             None (Some bytecode_abi) (Some (trim name)) None]>
                (delete chatId store))
             (mkSession awaiting_private_key (Some data) (Some ps) (Some net) None
                (Some bytecode_abi) (Some (trim name)) None)
             (lookup_insert_eq _ _ _) eq_refl Hkey Hkeylen).
  cbn [sessions started set_step set_privateKey step contractData constructorParams
       network privateKey contractInputType contractName action].
  rewrite insert_insert_eq.
  split; [reflexivity|]. split; [reflexivity|].
  intros w. unfold deployContract. rewrite lookup_insert_eq.
  cbn [set_step set_privateKey step contractData constructorParams network privateKey
       contractInputType contractName action].
  rewrite Hnet.
  rewrite delete_insert_eq, delete_delete_eq.
  destruct (deploy_steps cfg w _ netInfo) as [out [e|d]]; reflexivity.
Qed.

Lemma dialogue_collects_the_deployment_witness :
  ∃ data,
    read_contract_data (Some bytecode_abi) (Some sample_artifact) = inr data
    ∧ play sample_config
        (deployment_dialogue chat sample_artifact (lit "[]") (lit " My Token ")
           (lit "mantle-testnet") text_hex_key) store_awaiting_key
      = <[chat := mkSession deploying (Some data) (Some []) (Some (lit "mantle-testnet"))
                    (Some text_hex_key) (Some bytecode_abi) (Some (lit "My Token")) None]>
          (delete chat store_awaiting_key)
    ∧ sessions
        (deployContract sample_config world_deploying chat
           (play sample_config
              (deployment_dialogue chat sample_artifact (lit "[]") (lit " My Token ")
                 (lit "mantle-testnet") text_hex_key) store_awaiting_key)).1
      = delete chat store_awaiting_key.
Proof.
  eexists. split; [vm_compute; reflexivity|].
  match goal with
  | |- _ = <[_ := mkSession _ (Some ?data) _ _ _ _ _ _]> _ ∧ _ =>
      destruct (dialogue_collects_the_deployment sample_config chat store_awaiting_key
                  sample_artifact data (lit "[]") [] (lit " My Token ")
                  (lit "mantle-testnet")
                  (default (inherited_member []) (NETWORKS_get (Some (lit "mantle-testnet"))))
                  text_hex_key)
        as (Hstore & _ & Hrun)
  end;
    [vm_compute; reflexivity | vm_compute; reflexivity | vm_compute; reflexivity
    | vm_compute; split; lia | vm_compute; reflexivity | vm_compute; reflexivity
    | vm_compute; reflexivity |].
  split; [exact Hstore|].
  rewrite (Hrun world_deploying).
  destruct (deploy_steps _ _ _ _) as [out [e|d]]; reflexivity.
Defined.

(** X23.  The buttons of a later step work without the earlier steps: after
    [/deploy], confirming and entering a key of the expected format put the
    chat in the step [deploying] with neither contract nor network, and the
    deployment that starts then ends with the configuration error, before
    any call leaves the process. *)
Theorem key_buttons_work_without_a_contract :
  ∀ cfg w chatId store key,
    startsWith (lit "0x") key = true → length key = 66%nat →
    let store' :=
      play cfg [DeployCommand chatId; Selection chatId (lit "confirm_deploy");
                Selection chatId (lit "enter_own_key"); Message chatId (Some key)] store in
    store' !! chatId = Some (mkSession deploying None None None (Some key) None None None)
    ∧ deployContract cfg w chatId store'
      = (done (delete chatId store) [NetworkConfigurationError], NotStarted).
Proof.
  intros cfg w chatId store key Hkey Hkeylen.
  pose proof (key_not_a_command _ Hkey) as Hkey_text.
  cbn [play react]. unfold startDeploymentProcess. cbn [sessions done].
  change (on_callback_query cfg chatId (lit "confirm_deploy") ?s)
    with (requestPrivateKey cfg chatId s).
  unfold requestPrivateKey. rewrite lookup_insert_eq.
  cbn [sessions done]. rewrite insert_insert_eq.
  change (on_callback_query cfg chatId (lit "enter_own_key") ?s)
    with (requestCustomPrivateKey chatId s).
  unfold requestCustomPrivateKey. rewrite lookup_insert_eq.
  cbn [sessions done]. rewrite insert_insert_eq.
  rewrite (on_message_step _ _ _ _ Hkey_text (lookup_insert_eq _ _ _)).
  cbn [step set_step]. unfold handlePrivateKey. rewrite lookup_insert_eq, Hkey.
  rewrite (bool_decide_eq_true_2 (length key = 66%nat)) by exact Hkeylen.
  cbn [negb orb sessions]. rewrite insert_insert_eq.
  cbn zeta. split; [apply lookup_insert_eq|].
  unfold deployContract. rewrite lookup_insert_eq.
  cbn [network set_step set_privateKey new_session NETWORKS_get mbind option_bind].
  rewrite delete_insert_eq, delete_delete_eq. reflexivity.
Qed.

Lemma key_buttons_work_without_a_contract_witness :
  deployContract sample_config world_deploying chat
    (play sample_config
       [DeployCommand chat; Selection chat (lit "confirm_deploy");
        Selection chat (lit "enter_own_key"); Message chat (Some text_hex_key)] ∅)
  = (done (delete chat ∅) [NetworkConfigurationError], NotStarted).
Proof.
  apply (key_buttons_work_without_a_contract sample_config world_deploying chat ∅
           text_hex_key); reflexivity.
Defined.

(** ** Names the table of networks only inherits *)

Lemma NETWORKS_get_inherited name :
  inherited name = true → NETWORKS_get (Some name) = Some (inherited_member name).
Proof.
  intros H. apply bool_decide_eq_true_1 in H.
  unfold OBJECT_PROTOTYPE_KEYS in H. cbn [fmap list_fmap] in H.
  repeat (apply elem_of_cons in H as [->|H]; [reflexivity|]).
  inversion H.
Qed.

(** X28.  A name the table of networks only inherits passes for a network.
    The selection [select_network_] followed by such a name (as [toString])
    is taken like that of a listed network: the name becomes the network of
    the session and the step [deployment_confirmation].  A deployment of a
    session with such a network does not end with the configuration error:
    it goes on to make a provider for an endpoint that is [undefined], and
    fails or succeeds by what the library does with that. *)
Theorem inherited_names_pass_for_networks :
  ∀ cfg w chatId store session name,
    store !! chatId = Some session → inherited name = true →
    on_callback_query cfg chatId (lit "select_network_" ++ name) store
    = done (<[chatId := set_step deployment_confirmation (set_network name session)]> store)
        [NetworkSelected (inherited_member name) (contractName session)
           (constructorParams session)]
    ∧ (network session = Some name →
       (deployContract cfg w chatId store).2 ≠ NotStarted
       ∧ ∀ e, new_JsonRpcProvider w None = inl e →
           deployContract cfg w chatId store
           = (done (delete chatId store)
                [DeploymentFailed (classify (engine_message w) e) e],
              Failed (classify (engine_message w) e) e)).
Proof.
  intros cfg w chatId store session name Hs Hin.
  pose proof (NETWORKS_get_inherited name Hin) as Hget. split.
  - rewrite select_network_dispatch. unfold selectNetworkForDeployment.
    rewrite Hs, Hget. reflexivity.
  - intros Hnet. unfold deployContract. rewrite Hs, Hnet, Hget. split.
    + destruct (deploy_steps cfg w session (inherited_member name)) as [out [e|d]];
        discriminate.
    + intros e He. unfold deploy_steps, try_bind, call.
      cbn [rpcUrl inherited_member]. rewrite He. reflexivity.
Qed.

Lemma inherited_names_pass_for_networks_witness :
  sessions (on_callback_query sample_config chat (lit "select_network_toString")
              store_awaiting_network) !! chat
  = Some (set_step deployment_confirmation
            (set_network (lit "toString")
               (set_step awaiting_network_selection session_awaiting_key))).
Proof.
  destruct (inherited_names_pass_for_networks sample_config world_deploying chat
              store_awaiting_network
              (set_step awaiting_network_selection session_awaiting_key)
              (lit "toString") eq_refl eq_refl) as [Hselect _].
  change (lit "select_network_toString") with (lit "select_network_" ++ lit "toString").
  rewrite Hselect. reflexivity.
Defined.

End WorkflowFacts.

(** * Part VIII.  Properties of the lookup *)

Module LookupFacts.
Import JS Bot Lookup BotFacts.

Lemma links_not_the_notice address tx : links address tx ≠ NOT_AVAILABLE.
Proof. discriminate. Qed.

Lemma inherited_not_in_table net contractAddress txHash :
  inherited net = true →
  find (fun e => str_eqb (fst e) net) (explorers contractAddress txHash) = None.
Proof.
  intros H. apply bool_decide_eq_true_1 in H.
  unfold OBJECT_PROTOTYPE_KEYS in H. cbn [fmap list_fmap] in H.
  repeat (apply elem_of_cons in H as [->|H]; [reflexivity|]).
  inversion H.
Qed.

Lemma NETWORKS_get_other net :
  net ≠ lit "mantle-testnet" → inherited net = false → NETWORKS_get (Some net) = None.
Proof.
  intros Hne Hin. unfold NETWORKS_get, NETWORKS. cbn [mbind option_bind find fst].
  unfold str_eqb. rewrite bool_decide_eq_false_2 by congruence. rewrite Hin.
  reflexivity.
Qed.

(** The records of the lines of a list, and their labels. *)
Lemma shown_records (records : list RegistryRecord) :
  fst <$> ((λ c, (c, network_label (rec_network c))) <$> records) = records.
Proof.
  induction records as [|c records IH]; [reflexivity|].
  cbn [fmap list_fmap fst]. f_equal. exact IH.
Qed.

Lemma shown_labels (records : list RegistryRecord) :
  Forall (λ line, line.2 = network_label (rec_network line.1))
    ((λ c, (c, network_label (rec_network c))) <$> records).
Proof. apply Forall_fmap, Forall_true. intros c. reflexivity. Qed.

(** ** getBlockExplorerUrl *)

(** X24.  [getBlockExplorerUrl] answers with the notice that no explorer is
    available exactly for the names that are neither one of the five of its
    table nor inherited by every object; for an inherited name it gives links
    to [undefined]; and for the key under which [deployContract] calls it,
    the string form of the network object, it gives the notice whatever the
    address and the transaction are. *)
Theorem explorer_links_exactly_for_known_names :
  ∀ net contractAddress txHash,
    (getBlockExplorerUrl net contractAddress txHash = NOT_AVAILABLE
     ↔ (net ∉ fst <$> explorers contractAddress txHash) ∧ inherited net = false)
    ∧ (inherited net = true →
       getBlockExplorerUrl net contractAddress txHash
       = links (lit "undefined") (lit "undefined"))
    ∧ getBlockExplorerUrl NETWORK_OBJECT_KEY contractAddress txHash = NOT_AVAILABLE.
Proof.
  intros net contractAddress txHash. split; [|split].
  - unfold getBlockExplorerUrl.
    destruct (find _ (explorers contractAddress txHash)) as [[key [address tx]]|] eqn:Hf;
      cbn [fmap option_fmap option_map snd].
    + apply find_some in Hf as [Hin Hkey]. cbn [fst] in Hkey.
      apply bool_decide_eq_true_1 in Hkey. subst key.
      split; [intros H; destruct (links_not_the_notice _ _ H)|].
      intros [Hout _]. exfalso. apply Hout.
      apply list_elem_of_fmap. exists (net, (address, tx)).
      split; [reflexivity | apply list_elem_of_In; exact Hin].
    + destruct (inherited net).
      * split; [intros H; destruct (links_not_the_notice _ _ H)|].
        intros [_ H]. discriminate H.
      * split; [|reflexivity]. intros _. split; [|reflexivity].
        intros Hin. apply list_elem_of_fmap in Hin as ([key v] & -> & Hin).
        apply list_elem_of_In in Hin.
        pose proof (find_none _ _ Hf _ Hin) as Hkey. cbn [fst] in Hkey.
        unfold str_eqb in Hkey. apply bool_decide_eq_false_1 in Hkey.
        apply Hkey. reflexivity.
  - intros H. unfold getBlockExplorerUrl.
    rewrite (inherited_not_in_table _ _ _ H). cbn [fmap option_fmap option_map].
    rewrite H. reflexivity.
  - reflexivity.
Qed.

Lemma explorer_links_exactly_for_known_names_witness :
  getBlockExplorerUrl (lit "toString") (lit "0xc0ffee") (lit "0xabc")
  = links (lit "undefined") (lit "undefined")
  ∧ getBlockExplorerUrl (lit "goerli") (lit "0xc0ffee") (lit "0xabc") = NOT_AVAILABLE.
Proof.
  split.
  - apply (proj1 (proj2 (explorer_links_exactly_for_known_names
                           (lit "toString") (lit "0xc0ffee") (lit "0xabc")))).
    reflexivity.
  - apply (proj1 (explorer_links_exactly_for_known_names
                    (lit "goerli") (lit "0xc0ffee") (lit "0xabc"))).
    split; [|reflexivity].
    unfold explorers. cbn [fmap list_fmap fst]. intros H.
    repeat (apply elem_of_cons in H as [H|H]; [discriminate H|]).
    inversion H.
Defined.

(** ** viewUserContracts *)

(** X25.  The two checks of a lookup hide their cause.  When the chain does
    not answer, the user is told that the network cannot be reached,
    whatever the error was; and when the registry address has no code, or
    asking for the code fails, the user is told in both cases that no
    contract was found there, in the same words: the more precise error the
    source throws for an empty code is caught by the check itself. *)
Theorem lookup_checks_hide_the_cause :
  ∀ cfg net w userAddress provider registryNetwork,
    registry_provider w net = inr (provider, registryNetwork) →
    (∀ e, read_getBlockNumber w provider = inl e →
       viewUserContracts cfg net w userAddress
       = ErrorRetrievingContracts
           (Error (lit "Cannot connect to " ++ registryNetwork
                   ++ lit " network. Please check your configuration.")))
    ∧ (∀ blockNumber contractRegistry,
         read_getBlockNumber w provider = inr blockNumber →
         read_Contract w (CONTRACT_REGISTRY_ADDRESS cfg) provider = inr contractRegistry →
         read_getCode w provider (CONTRACT_REGISTRY_ADDRESS cfg) = inr (lit "0x")
         ∨ (∃ e, read_getCode w provider (CONTRACT_REGISTRY_ADDRESS cfg) = inl e) →
         viewUserContracts cfg net w userAddress
         = ErrorRetrievingContracts
             (Error (lit "Contract not found at " ++ CONTRACT_REGISTRY_ADDRESS cfg
                     ++ lit " on " ++ registryNetwork))).
Proof.
  intros cfg net w userAddress provider registryNetwork Hp. split.
  - intros e He. unfold viewUserContracts. rewrite Hp.
    cbn [mbind exn_bind]. rewrite He. reflexivity.
  - intros blockNumber contractRegistry Hb Hc Hcode. unfold viewUserContracts.
    rewrite Hp. cbn [mbind exn_bind]. rewrite Hb. cbn [try_catch]. rewrite Hc.
    destruct Hcode as [Hcode|[e Hcode]]; rewrite Hcode; reflexivity.
Qed.

Lemma lookup_checks_hide_the_cause_witness :
  viewUserContracts config_with_registry None (read_world (lit "0x") [sample_record])
    (lit "0xa11ce")
  = ErrorRetrievingContracts
      (Error (lit "Contract not found at " ++ CONTRACT_REGISTRY_ADDRESS config_with_registry
              ++ lit " on " ++ lit "mantle-testnet")).
Proof.
  refine (proj2 (lookup_checks_hide_the_cause config_with_registry None
                   (read_world (lit "0x") [sample_record]) (lit "0xa11ce") 1
                   (lit "mantle-testnet") eq_refl) 100 2 eq_refl eq_refl _).
  left. reflexivity.
Defined.

(** X26.  A list of contracts is shown only after every check has passed,
    and it is the answer of the registry: the chain answered, the registry
    address has code, and the records shown are those [getUserContracts]
    returned for the address asked about, all of them and in their order,
    at least one, each with the label of its network. *)
Theorem listed_contracts_come_from_the_registry :
  ∀ cfg net w userAddress shown explorer,
    viewUserContracts cfg net w userAddress = ContractList shown explorer →
    ∃ provider registryNetwork blockNumber contractRegistry code,
      registry_provider w net = inr (provider, registryNetwork)
      ∧ read_getBlockNumber w provider = inr blockNumber
      ∧ read_Contract w (CONTRACT_REGISTRY_ADDRESS cfg) provider = inr contractRegistry
      ∧ read_getCode w provider (CONTRACT_REGISTRY_ADDRESS cfg) = inr code
      ∧ code ≠ lit "0x"
      ∧ read_getUserContracts w contractRegistry userAddress = inr (Some (fst <$> shown))
      ∧ shown ≠ []
      ∧ Forall (λ line, line.2 = network_label (rec_network line.1)) shown.
Proof.
  intros cfg net w userAddress shown explorer. unfold viewUserContracts.
  destruct (registry_provider w net) as [e|[provider registryNetwork]] eqn:Hp;
    [discriminate|].
  cbn [mbind exn_bind].
  destruct (read_getBlockNumber w provider) as [e|blockNumber] eqn:Hb; [discriminate|].
  cbn [try_catch].
  destruct (read_Contract w (CONTRACT_REGISTRY_ADDRESS cfg) provider)
    as [e|contractRegistry] eqn:Hc; [discriminate|].
  destruct (read_getCode w provider (CONTRACT_REGISTRY_ADDRESS cfg)) as [e|code] eqn:Hg;
    [discriminate|].
  cbn [mbind exn_bind].
  destruct (str_eqb code (lit "0x")) eqn:Hcode; [discriminate|].
  cbn [try_catch].
  apply bool_decide_eq_false_1 in Hcode.
  destruct (read_getUserContracts w contractRegistry userAddress)
    as [e|[[|firstContract more]|]] eqn:Hr; try discriminate.
  intros H. injection H as <- _.
  exists provider, registryNetwork, blockNumber, contractRegistry, code.
  split; [reflexivity|]. split; [exact Hb|]. split; [exact Hc|].
  split; [exact Hg|]. split; [exact Hcode|].
  split; [|split; [discriminate|]].
  - rewrite Hr. do 2 f_equal. symmetry. exact (shown_records (firstContract :: more)).
  - exact (shown_labels (firstContract :: more)).
Qed.

Lemma listed_contracts_come_from_the_registry_witness :
  ∃ shown explorer,
    viewUserContracts config_with_registry None
      (read_world (lit "0x6080") [sample_record]) (lit "0xa11ce")
    = ContractList shown explorer
    ∧ fst <$> shown = [sample_record].
Proof.
  eexists _, _.
  assert (H : viewUserContracts config_with_registry None
                (read_world (lit "0x6080") [sample_record]) (lit "0xa11ce")
              = ContractList [(sample_record, lit "Mantle Sepolia Testnet")]
                  (Some (getBlockExplorerUrl (lit "mantle-testnet") (lit "0xc0ffee")
                           (lit "0xabc"))))
    by (vm_compute; reflexivity).
  split; [exact H|].
  destruct (listed_contracts_come_from_the_registry _ _ _ _ _ _ H)
    as (p & n & b & c & code & _ & _ & _ & _ & _ & Hread & _).
  reflexivity.
Defined.

(** X27.  The fallback of the lookup never works: for a configured registry
    network that is not the one of the table (and no name every object
    inherits), the branch meant to fall back reads the endpoint of a network
    the table does not have, so the lookup ends with a type error for every
    address, before any call leaves the process.  The name [sepolia] the
    source's comments speak of is one of them. *)
Theorem lookup_fallback_always_fails :
  ∀ cfg net w userAddress,
    net ≠ [] → net ≠ lit "mantle-testnet" → inherited net = false →
    viewUserContracts cfg (Some net) w userAddress = ErrorRetrievingContracts TypeError.
Proof.
  intros cfg net w userAddress Hne Hother Hin.
  unfold viewUserContracts, registry_provider.
  rewrite bool_decide_eq_false_2 by exact Hne.
  rewrite (NETWORKS_get_other _ Hother Hin). reflexivity.
Qed.

Lemma lookup_fallback_always_fails_witness :
  viewUserContracts config_with_registry (Some (lit "sepolia"))
    (read_world (lit "0x6080") [sample_record]) (lit "0xa11ce")
  = ErrorRetrievingContracts TypeError.
Proof.
  apply lookup_fallback_always_fails; [discriminate | discriminate | reflexivity].
Defined.

End LookupFacts.
